(* Shallow embedding of the score engine of janki:
   scores/models.py (RawScore, CalculatedScore.compute_stats) and
   scores/services/calculator.py (submit, update, session details,
   monthly standings).

   Conventions.
   - The database is an explicit state [DB]: the members table, the RawScore
     rows in table order (the order they were inserted), the CalculatedScore
     table, the next primary key and the current (year, month) used by
     auto_now_add. A pk of 0 stands for an unsaved object (pk None): the
     AUTOINCREMENT keys start at 1.
   - created_at grows with the insertion order, so a queryset iterated under
     RawScore.Meta.ordering = ['-created_at'] yields the rows newest first,
     the reverse of table order; see [session_queryset].
   - Python floats are modelled by exact rationals [Q]; every concrete value
     used below ((s - T) / 1000 with s, T multiples of 1000, halves of small
     integers) is exactly representable as a float.
   - RawScore objects held in Python memory carry a placement in [option Q];
     a row written to the database went through IntegerField.get_prep_value,
     i.e. [int(...)], so its placement is an integer.
   - Errors: Django's ValidationError, the database IntegrityError raised
     by the unique (member, session_id) constraint, and the error of an
     integer the column cannot hold. *)

From Stdlib Require Import List Bool ZArith QArith Qround String Ascii Lia.
From Stdlib Require Import Sorting.Sorted Sorting.Permutation.
Import ListNotations.
Open Scope Z_scope.

(* ------------------------------------------------------------------ *)
(** * Data model *)

Record Team := mkTeam {
  team_pk : nat;
  target_point : Z;
  uma_first : Z;
  uma_second : Z;
  uma_third : Z;
  uma_fourth : Z;
  chombo_enabled : bool
}.

Record Member := mkMember {
  member_pk : nat;
  m_team : nat;
  name : string
}.

Record RawScore := mkRawScore {
  rs_pk : nat;
  member : nat;
  score : Z;
  placement : option Q;
  chombo : Z;
  session_id : string;
  created_at : Z * Z  (* (year, month) of the creation timestamp *)
}.

Record CalculatedScore := mkCalc {
  total : Q;
  games_played : nat;
  average_per_game : Q;
  average_placement : Q;
  chombo_count : Z
}.

Record DB := mkDB {
  members : list Member;
  rows : list RawScore;
  calc : list (nat * CalculatedScore);
  next_pk : nat;
  clock : Z * Z
}.

Inductive Error :=
| ValidationError (msg : string)
| IntegrityError
| DoesNotExist  (* a related object that is not in its table *)
| DataError  (* an integer outside the column's range (OverflowError in sqlite3) *).

(** A score_data entry: a dict read with .get('member_id'), .get('score')
    and .get('chombo', 0). *)
Record Entry := mkEntry {
  e_member_id : option nat;
  e_score : option Z;
  e_chombo : Z
}.

(* ------------------------------------------------------------------ *)
(** * A state and error monad for the ORM calls *)

Inductive res (A : Type) :=
| Ok (a : A)
| Err (e : Error).
Arguments Ok {A} a.
Arguments Err {A} e.

Definition M (A : Type) := DB -> res A * DB.

Definition ret {A} (a : A) : M A := fun st => (Ok a, st).
Definition raise {A} (e : Error) : M A := fun st => (Err e, st).
Definition bind {A B} (m : M A) (k : A -> M B) : M B :=
  fun st => match m st with
            | (Ok a, st') => k a st'
            | (Err e, st') => (Err e, st')
            end.
Definition get : M DB := fun st => (Ok st, st).
Definition put (st : DB) : M unit := fun _ => (Ok tt, st).

Notation "x <- m ;; k" := (bind m (fun x => k))
  (at level 61, m at next level, right associativity).
Notation "m ;; k" := (bind m (fun _ => k))
  (at level 61, right associativity).

Fixpoint mapM {A B} (f : A -> M B) (l : list A) : M (list B) :=
  match l with
  | [] => ret []
  | x :: xs => y <- f x ;; ys <- mapM f xs ;; ret (y :: ys)
  end.

Fixpoint iterM {A} (f : A -> M unit) (l : list A) : M unit :=
  match l with
  | [] => ret tt
  | x :: xs => f x ;; iterM f xs
  end.

(* ------------------------------------------------------------------ *)
(** * Python helpers *)

(** [sorted(l, key=k, reverse=True)]: a stable sort, descending by key;
    elements with equal keys keep their relative order. Any stable sort
    returns the same list, so insertion sort stands for Timsort. *)
Section SortDesc.
Context {A : Type} (key : A -> Q).

Fixpoint insert_desc (x : A) (l : list A) : list A :=
  match l with
  | [] => [x]
  | y :: ys => if Qle_bool (key y) (key x) then x :: y :: ys
               else y :: insert_desc x ys
  end.

Definition sorted_desc (l : list A) : list A := fold_right insert_desc [] l.

(** The order [sorted] leaves between neighbours. *)
Definition desc (a b : A) : Prop := (key b <= key a)%Q.
End SortDesc.

(** [next(i for i, s in enumerate(l) if p(s))]; the generator is never
    empty where it is used (the element searched for is in the list). *)
Fixpoint first_index {A} (p : A -> bool) (l : list A) : nat :=
  match l with
  | [] => 0%nat
  | x :: xs => if p x then 0%nat else S (first_index p xs)
  end.

(** [sum(range(a, b))] *)
Definition sum_range (a b : Z) : Z :=
  fold_right Z.add 0 (map (fun k => a + Z.of_nat k) (seq 0 (Z.to_nat (b - a)))).

Definition QZ (z : Z) : Q := inject_Z z.
Definition Qnat (n : nat) : Q := inject_Z (Z.of_nat n).

(** Python's [int(x)] on a float: truncation toward zero. *)
Definition py_int (q : Q) : Z :=
  if Qle_bool 0 q then Qfloor q else - Qfloor (- q).

(** Python's [round(x)] on a float: round half to even. *)
Definition py_round (q : Q) : Z :=
  let f := Qfloor q in
  let d := (q - QZ f)%Q in
  if Qlt_le_dec d (1 # 2) then f
  else if Qeq_bool d (1 # 2) then (if Z.even f then f else f + 1)
  else f + 1.

Fixpoint dedup_nat (l : list nat) : list nat :=
  match l with
  | [] => []
  | x :: xs => x :: filter (fun y => negb (Nat.eqb x y)) (dedup_nat xs)
  end.

Fixpoint dedup_str (l : list string) : list string :=
  match l with
  | [] => []
  | x :: xs => x :: filter (fun y => negb (String.eqb x y)) (dedup_str xs)
  end.

Fixpoint Qsum (l : list Q) : Q :=
  match l with
  | [] => 0%Q
  | x :: xs => (x + Qsum xs)%Q
  end.

(* ------------------------------------------------------------------ *)
(** * ORM lookups *)

(** [Member.objects.get(id=member_id, team=team)] *)
Definition member_get (st : DB) (mid tid : nat) : option Member :=
  match find (fun m => Nat.eqb (member_pk m) mid) (members st) with
  | Some m => if Nat.eqb (m_team m) tid then Some m else None
  | None => None
  end.

(** The team of a row, through its member foreign key. *)
Definition row_team (st : DB) (r : RawScore) : option nat :=
  match find (fun m => Nat.eqb (member_pk m) (member r)) (members st) with
  | Some m => Some (m_team m)
  | None => None
  end.

Definition in_team (st : DB) (tid : nat) (r : RawScore) : bool :=
  match row_team st r with
  | Some t => Nat.eqb t tid
  | None => false
  end.

(** The rows [RawScore.objects.filter(member__team=team, session_id=session_id)]
    matches, in table order. count(), exists() and delete() depend only on
    this; iterating the queryset is [session_queryset]. *)
Definition session_rows (st : DB) (tid : nat) (sid : string) : list RawScore :=
  filter (fun r => in_team st tid r && String.eqb (session_id r) sid) (rows st).

(** Iterating that queryset: RawScore.Meta.ordering = ['-created_at'] gives
    the newest row first. Rows are inserted with non-decreasing created_at,
    so this is the reverse of table order. *)
Definition session_queryset (st : DB) (tid : nat) (sid : string) : list RawScore :=
  rev (session_rows st tid sid).

(** [uma_map.get(pos, 0)] *)
Definition uma_get (t : Team) (pos : Z) : Z :=
  if pos =? 1 then uma_first t
  else if pos =? 2 then uma_second t
  else if pos =? 3 then uma_third t
  else if pos =? 4 then uma_fourth t
  else 0.

Definition score_key (r : RawScore) : Q := QZ (score r).

Definition set_rows (st : DB) (rs : list RawScore) : DB :=
  mkDB (members st) rs (calc st) (next_pk st) (clock st).

Definition set_placement (r : RawScore) (q : option Q) : RawScore :=
  mkRawScore (rs_pk r) (member r) (score r) q (chombo r) (session_id r) (created_at r).

(* ------------------------------------------------------------------ *)
(** * Member rollup: CalculatedScore.compute_stats (scores/models.py) *)

Record Acc := mkAcc {
  acc_total : Q;
  acc_sessions : list string;   (* sessions_participated (a set) *)
  acc_placements : list Z;
  acc_chombo : Z
}.

(** One iteration of [for session_id in member_sessions]. *)
Definition compute_stats_step (st : DB) (t : Team) (m : Member)
    (acc : Acc) (sid : string) : Acc :=
  let session_all_scores := session_queryset st (m_team m) sid in
  if negb (Nat.eqb (List.length session_all_scores) 4) then acc
  else
    let sessions :=
      if existsb (String.eqb sid) (acc_sessions acc) then acc_sessions acc
      else acc_sessions acc ++ [sid] in
    let is_me := fun r => Nat.eqb (member r) (member_pk m) in
    match find is_me session_all_scores with
    | None => acc  (* .get(member=...) cannot fail: sid is one of m's sessions *)
    | Some member_raw_score =>
        let sorted_scores := sorted_desc score_key session_all_scores in
        let pl := Z.of_nat (first_index is_me sorted_scores) + 1 in
        let uma := uma_get t pl in
        let calculated :=
          (QZ (score member_raw_score - target_point t) / QZ 1000 + QZ uma)%Q in
        let chombo_hit := (0 <? chombo member_raw_score) && chombo_enabled t in
        let calculated :=
          if chombo_hit then (calculated - QZ (30 * chombo member_raw_score))%Q
          else calculated in
        let ch := if chombo_hit then acc_chombo acc + chombo member_raw_score
                  else acc_chombo acc in
        mkAcc (acc_total acc + calculated) sessions
              (acc_placements acc ++ [pl]) ch
    end.

(** [t] is [self.member.team]. [member_sessions] iterates member.raw_scores
    newest first; its SELECT DISTINCT also carries the ordering column, and
    dedup_str keeps first occurrences. *)
Definition compute_stats (st : DB) (t : Team) (m : Member) : CalculatedScore :=
  let member_sessions :=
    dedup_str (map session_id
                 (rev (filter (fun r => Nat.eqb (member r) (member_pk m)) (rows st)))) in
  let acc := fold_left (compute_stats_step st t m) member_sessions
                       (mkAcc 0%Q [] [] 0) in
  let games := List.length (acc_sessions acc) in
  let tot := acc_total acc in
  let placements := acc_placements acc in
  mkCalc tot games
    (if (0 <? games)%nat then (tot / Qnat games)%Q else 0%Q)
    (match placements with
     | [] => 0%Q
     | _ => (QZ (fold_right Z.add 0%Z placements) / Qnat (List.length placements))%Q
     end)
    (acc_chombo acc).

Fixpoint calc_put (k : nat) (v : CalculatedScore)
    (l : list (nat * CalculatedScore)) : list (nat * CalculatedScore) :=
  match l with
  | [] => [(k, v)]
  | (k', v') :: l' => if Nat.eqb k k' then (k, v) :: l' else (k', v') :: calc_put k v l'
  end.

(** recalculate_member_score: get_or_create, compute_stats, save. *)
Definition recalculate_member_score (t : Team) (mid : nat) : M unit :=
  st <- get ;;
  match find (fun m => Nat.eqb (member_pk m) mid) (members st) with
  | Some m =>
      put (mkDB (members st) (rows st)
                (calc_put mid (compute_stats st t m) (calc st))
                (next_pk st) (clock st))
  | None => ret tt
  end.

(* ------------------------------------------------------------------ *)
(** * Session aggregator: submit_session_scores *)

(** The range of an IntegerField: the bounds of the validators
    [connection.ops.integer_field_range('IntegerField')] adds, Django's
    default 32-bit range, taken as the range the column stores too. (The
    sqlite3 backend of recent Django versions validates and stores 64 bits;
    no statement below depends on a value outside 32 bits being refused.) *)
Definition int_min : Z := -2147483648.
Definition int_max : Z := 2147483647.

Definition int_in_range (z : Z) : bool := (int_min <=? z) && (z <=? int_max).

(** [raw_score.full_clean()]. The field validation: score and chombo are
    IntegerFields (their range validators), placement an IntegerField with
    null and blank allowed, session_id a CharField with blank=False and
    max_length 100. Then [RawScore.clean] and the unique_together check,
    both of which look for a stored row of this member in this session (the
    object is unsaved: [exclude(pk=None)] excludes nothing). All failures
    end in one ValidationError. *)
Definition full_clean (r : RawScore) : M unit :=
  st <- get ;;
  if negb (int_in_range (score r)) then
    raise (ValidationError "score: Ensure this value is within the integer range.")
  else if match placement r with
          | Some q => negb (int_in_range (py_int q))
          | None => false
          end then
    raise (ValidationError "placement: Ensure this value is within the integer range.")
  else if negb (int_in_range (chombo r)) then
    raise (ValidationError "chombo: Ensure this value is within the integer range.")
  else if String.eqb (session_id r) "" then
    raise (ValidationError "session_id: This field cannot be blank.")
  else if (100 <? String.length (session_id r))%nat then
    raise (ValidationError "session_id: at most 100 characters")
  else if existsb (fun x => Nat.eqb (member x) (member r)
                            && String.eqb (session_id x) (session_id r)) (rows st)
  then raise (ValidationError "Member already has a score in session")
  else ret tt.

(** The body of [for data in score_data]. *)
Definition build_raw_score (t : Team) (sid : string) (data : Entry) : M RawScore :=
  st <- get ;;
  match e_member_id data, e_score data with
  | Some mid, Some s =>
      match member_get st mid (team_pk t) with
      | None => raise (ValidationError "Member does not belong to team")
      | Some m =>
          let r := mkRawScore 0%nat (member_pk m) s None (e_chombo data) sid (clock st) in
          full_clean r ;; ret r
      end
  | _, _ => raise (ValidationError "Each score entry must have member_id and score")
  end.

Definition tag {A} (l : list A) : list (nat * A) := combine (seq 0 (List.length l)) l.

(** The placement the loop of submit_session_scores gives the element at
    index [i] of [sorted_raw_scores]. *)
Definition shared_or_rank (sorted : list (nat * RawScore)) (i : nat) (r : RawScore) : Q :=
  let v := score r in
  let same := fun s : nat * RawScore => score (snd s) =? v in
  let n := List.length (filter same sorted) in
  if (1 <? n)%nat then
    let f := Z.of_nat (first_index same sorted) in
    (QZ (sum_range (f + 1) (f + Z.of_nat n + 1)) / Qnat n)%Q
  else Qnat (S i).

Fixpoint assign_from (sorted : list (nat * RawScore)) (i : nat)
    (l : list (nat * RawScore)) : list (nat * RawScore) :=
  match l with
  | [] => []
  | (j, r) :: l' =>
      (j, set_placement r (Some (shared_or_rank sorted i r))) :: assign_from sorted (S i) l'
  end.

(** [sorted_raw_scores] holds the same objects as [raw_scores]; the objects
    are tagged with their index in [raw_scores] so that the placements set
    through the sorted list are seen in [raw_scores]. *)
Definition assign_placements (raw_scores : list RawScore) : list RawScore :=
  let sorted_raw_scores := sorted_desc (fun p => score_key (snd p)) (tag raw_scores) in
  let assigned := assign_from sorted_raw_scores 0 sorted_raw_scores in
  map (fun p => match find (fun q => Nat.eqb (fst q) (fst p)) assigned with
                | Some q => snd q
                | None => snd p
                end) (tag raw_scores).

Fixpoint has_dup {A} (same : A -> A -> bool) (l : list A) : bool :=
  match l with
  | [] => false
  | x :: xs => existsb (same x) xs || has_dup same xs
  end.

Definition same_key (a b : RawScore) : bool :=
  Nat.eqb (member a) (member b) && String.eqb (session_id a) (session_id b).

(** The row the database holds for an object: IntegerField.get_prep_value
    stores [int(placement)]. *)
Definition db_value (r : RawScore) : RawScore :=
  set_placement r (option_map (fun q => QZ (py_int q)) (placement r)).

(** The integers of a row fit their columns. *)
Definition placement_in_range (p : option Q) : bool :=
  match p with Some q => int_in_range (py_int q) | None => true end.

Definition row_in_range (r : RawScore) : bool :=
  int_in_range (score r) && int_in_range (chombo r) && placement_in_range (placement r).

(** [RawScore.objects.bulk_create(objs)]: one atomic INSERT. A value the
    columns cannot hold fails it first; the unique (member, session_id)
    constraint rejects the whole batch. Pks and created_at are set on the
    objects; the stored rows are their [db_value]. *)
Definition bulk_create (objs : list RawScore) : M (list RawScore) :=
  st <- get ;;
  if negb (forallb row_in_range objs) then raise DataError
  else if existsb (fun r => existsb (same_key r) (rows st)) objs || has_dup same_key objs
  then raise IntegrityError
  else
    let objs' := map (fun p => mkRawScore (next_pk st + fst p) (member (snd p))
                                 (score (snd p)) (placement (snd p)) (chombo (snd p))
                                 (session_id (snd p)) (clock st)) (tag objs) in
    let stored := map db_value objs' in
    put (mkDB (members st) (rows st ++ stored) (calc st)
              (next_pk st + List.length objs) (clock st)) ;;
    ret objs'.

Definition submit_session_scores (sid : string) (t : Team)
    (score_data : list Entry) : M (list RawScore) :=
  if negb (Nat.eqb (List.length score_data) 4) then
    raise (ValidationError "Expected 4 scores")
  else
    raw_scores <- mapM (build_raw_score t sid) score_data ;;
    created <- bulk_create (assign_placements raw_scores) ;;
    iterM (fun r => recalculate_member_score t (member r)) created ;;
    ret created.

(** update_session_scores: delete the team's rows of the session, then
    submit; no transaction. *)
Definition update_session_scores (sid : string) (t : Team)
    (score_data : list Entry) : M (list RawScore) :=
  st <- get ;;
  let old_scores := session_rows st (team_pk t) sid in
  let affected := dedup_nat (map member old_scores) in
  put (set_rows st (filter (fun r => negb (in_team st (team_pk t) r
                                           && String.eqb (session_id r) sid)) (rows st))) ;;
  new_scores <- submit_session_scores sid t score_data ;;
  let affected := dedup_nat (affected ++ map member new_scores) in
  iterM (recalculate_member_score t) affected ;;
  ret new_scores.

(** [RawScore.save()] (the path of RawScore.objects.create and of the admin
    forms); [t] is the member's team. [self.clean()] reads [self.member]
    (DoesNotExist for a dangling member id) and looks for another row of the
    member in the session, [exclude(pk=self.pk)] leaving out the object's
    own row. Model.save then runs an UPDATE of the row with the object's pk
    when there is one (created_at keeps the object's value: auto_now_add
    only fills it on an insert), and an INSERT otherwise, with the object's
    pk if set and the next AUTOINCREMENT key if not. Then the member's
    rollup. The object keeps the placement the caller gave; the row holds
    its [db_value]. *)
Definition rawscore_save (t : Team) (r : RawScore) : M RawScore :=
  st <- get ;;
  match find (fun m => Nat.eqb (member_pk m) (member r)) (members st) with
  | None => raise DoesNotExist
  | Some m =>
    let pk_set := negb (Nat.eqb (rs_pk r) 0) in
    if existsb (fun x => same_key r x && negb (pk_set && Nat.eqb (rs_pk x) (rs_pk r)))
               (rows st) then
      raise (ValidationError ("Member " ++ name m ++ " already has a score in session "
                              ++ session_id r)%string)
    else if negb (row_in_range r) then raise DataError
    else if pk_set && existsb (fun x => Nat.eqb (rs_pk x) (rs_pk r)) (rows st) then
      put (mkDB (members st)
                (map (fun x => if Nat.eqb (rs_pk x) (rs_pk r) then db_value r else x)
                     (rows st))
                (calc st) (next_pk st) (clock st)) ;;
      recalculate_member_score t (member r) ;;
      ret r
    else
      let pk := if pk_set then rs_pk r else next_pk st in
      let r' := mkRawScore pk (member r) (score r) (placement r) (chombo r)
                  (session_id r) (clock st) in
      put (mkDB (members st) (rows st ++ [db_value r']) (calc st)
                (Nat.max (next_pk st) (S pk)) (clock st)) ;;
      recalculate_member_score t (member r) ;;
      ret r'
  end.

(* ------------------------------------------------------------------ *)
(** * get_session_details *)

Record Player := mkPlayer {
  pl_member : string;
  pl_placement : Q;
  pl_raw_score : Z;
  pl_base_score : Q;
  pl_uma : Q;
  pl_chombo : Z;
  pl_calculated_score : Q
}.

(** [.order_by('placement')], NULL first as SQLite does. The order_by
    replaces Meta.ordering; rows of equal placement come in the order the
    database scans the table, taken as table order. *)
Definition placement_key_le (a b : RawScore) : bool :=
  match placement a, placement b with
  | None, _ => true
  | Some _, None => false
  | Some x, Some y => Qle_bool x y
  end.

Fixpoint insert_by_placement (x : RawScore) (l : list RawScore) : list RawScore :=
  match l with
  | [] => [x]
  | y :: ys => if placement_key_le y x then y :: insert_by_placement x ys
               else x :: y :: ys
  end.

Definition order_by_placement (l : list RawScore) : list RawScore :=
  fold_left (fun acc x => insert_by_placement x acc) l [].

Definition member_name (st : DB) (r : RawScore) : string :=
  match find (fun m => Nat.eqb (member_pk m) (member r)) (members st) with
  | Some m => name m
  | None => ""
  end.

(** Python truthiness of the stored placement. *)
Definition truthy_placement (p : option Q) : option Q :=
  match p with
  | Some q => if Qeq_bool q 0 then None else Some q
  | None => None
  end.

(** [sum(uma_map.get(pos, 0) for pos in range(a, b))] *)
Definition uma_sum (t : Team) (a b : Z) : Z :=
  fold_right Z.add 0 (map (fun k => uma_get t (a + Z.of_nat k)) (seq 0 (Z.to_nat (b - a)))).

Definition session_player (st : DB) (t : Team) (raw_scores : list RawScore)
    (raw_score : RawScore) : Player :=
  let sorted_scores := sorted_desc score_key raw_scores in
  let score_value := score raw_score in
  let same := fun s => score s =? score_value in
  let tied := List.length (filter same sorted_scores) in
  let first_tied_idx := Z.of_nat (first_index same sorted_scores) in
  let pl :=
    match truthy_placement (placement raw_score) with
    | Some q => q
    | None =>
        if (1 <? tied)%nat then
          (QZ (sum_range (first_tied_idx + 1) (first_tied_idx + Z.of_nat tied + 1))
             / Qnat tied)%Q
        else
          Qnat (S (first_index (fun s => Nat.eqb (rs_pk s) (rs_pk raw_score))
                               sorted_scores))
    end in
  let uma :=
    if (1 <? tied)%nat then
      (QZ (uma_sum t (first_tied_idx + 1) (first_tied_idx + Z.of_nat tied + 1))
         / Qnat tied)%Q
    else QZ (uma_get t (py_int pl)) in
  let base_score := (QZ (score raw_score - target_point t) / QZ 1000)%Q in
  let calculated := (base_score + uma)%Q in
  let calculated :=
    if negb (chombo raw_score =? 0) && chombo_enabled t then (calculated - QZ 30)%Q
    else calculated in
  mkPlayer (member_name st raw_score) pl (score raw_score) base_score uma
           (chombo raw_score) calculated.

(** Returns [(session_id, players)] or [None]. *)
Definition get_session_details (st : DB) (sid : string) (t : Team)
    : option (string * list Player) :=
  let qs := session_rows st (team_pk t) sid in
  if negb (Nat.eqb (List.length qs) 4) then None
  else
    let raw_scores := order_by_placement qs in
    Some (sid, map (session_player st t raw_scores) raw_scores).

(* ------------------------------------------------------------------ *)
(** * get_team_standings_by_month *)

(** The attributes set on a member object. An attribute the code never
    sets is [None] (reading it raises AttributeError). *)
Record Standing := mkStanding {
  st_member : Member;
  monthly_total : Q;
  monthly_games : nat;
  monthly_average : Q;
  monthly_avg_placement : option Q;
  monthly_chombo_count : option Z;
  monthly_first_place : option nat;
  monthly_second_place : option nat;
  monthly_third_place : option nat;
  monthly_fourth_place : option nat
}.

(** An entry of the [member_scores] dict. *)
Record MStats := mkMStats {
  ms_total : Q;
  ms_games : nat;
  ms_placements : list Q;
  ms_chombo_count : Z;
  ms_first : nat;
  ms_second : nat;
  ms_third : nat;
  ms_fourth : nat
}.

Definition mstats_zero : MStats := mkMStats 0%Q 0 [] 0 0 0 0 0.

(** Python dicts keep insertion order; association lists do the same. *)
Fixpoint assoc_get {K V} (eqb : K -> K -> bool) (k : K) (l : list (K * V)) : option V :=
  match l with
  | [] => None
  | (k', v) :: l' => if eqb k k' then Some v else assoc_get eqb k l'
  end.

Fixpoint assoc_set {K V} (eqb : K -> K -> bool) (k : K) (v : V)
    (l : list (K * V)) : list (K * V) :=
  match l with
  | [] => [(k, v)]
  | (k', v') :: l' => if eqb k k' then (k', v) :: l' else (k', v') :: assoc_set eqb k v l'
  end.

(** ORDER BY name: names compared byte by byte (sqlite's BINARY collation
    on ASCII), members of equal name keeping their table order. *)
Fixpoint insert_by_name (m : Member) (l : list Member) : list Member :=
  match l with
  | [] => [m]
  | y :: ys => match String.compare (name m) (name y) with
               | Gt => y :: insert_by_name m ys
               | _ => m :: y :: ys
               end
  end.

Definition order_by_name (l : list Member) : list Member := fold_right insert_by_name [] l.

(** [team.members.all()] in the order of Member.Meta.ordering (['name']). *)
Definition team_members (st : DB) (tid : nat) : list Member :=
  order_by_name (filter (fun m => Nat.eqb (m_team m) tid) (members st)).

(** Grouping [sessions[raw_score.session_id].append(raw_score)]. *)
Definition group_sessions (l : list RawScore) : list (string * list RawScore) :=
  fold_left (fun acc r =>
               match assoc_get String.eqb (session_id r) acc with
               | Some ss => assoc_set String.eqb (session_id r) (ss ++ [r]) acc
               | None => acc ++ [(session_id r, [r])]
               end) l [].

(** The body of [for raw_score in session_scores]. *)
Definition monthly_step (t : Team) (session_scores : list RawScore)
    (ms : list (nat * MStats)) (raw_score : RawScore) : list (nat * MStats) :=
  let mid := member raw_score in
  let ms := match assoc_get Nat.eqb mid ms with
            | Some _ => ms
            | None => assoc_set Nat.eqb mid mstats_zero ms
            end in
  let cur := match assoc_get Nat.eqb mid ms with Some s => s | None => mstats_zero end in
  let sorted_scores := sorted_desc score_key session_scores in
  let member_score_value := score raw_score in
  let same := fun s => score s =? member_score_value in
  let tied := List.length (filter same sorted_scores) in
  let first_tied_idx := Z.of_nat (first_index same sorted_scores) in
  let pl :=
    if (1 <? tied)%nat then
      (QZ (sum_range (first_tied_idx + 1) (first_tied_idx + Z.of_nat tied + 1))
         / Qnat tied)%Q
    else Qnat (S (first_index (fun s => Nat.eqb (member s) mid) sorted_scores)) in
  let uma :=
    if (1 <? tied)%nat then
      (QZ (uma_sum t (first_tied_idx + 1) (first_tied_idx + Z.of_nat tied + 1))
         / Qnat tied)%Q
    else QZ (uma_get t (py_int pl)) in
  let calculated := (QZ (score raw_score - target_point t) / QZ 1000 + uma)%Q in
  let chombo_hit := (0 <? chombo raw_score) && chombo_enabled t in
  let calculated :=
    if chombo_hit then (calculated - QZ (30 * chombo raw_score))%Q else calculated in
  let ch := if chombo_hit then ms_chombo_count cur + chombo raw_score
            else ms_chombo_count cur in
  let r := py_round pl in
  let cur' := mkMStats (ms_total cur + calculated) (S (ms_games cur))
                (ms_placements cur ++ [pl]) ch
                (if r =? 1 then S (ms_first cur) else ms_first cur)
                (if r =? 2 then S (ms_second cur) else ms_second cur)
                (if r =? 3 then S (ms_third cur) else ms_third cur)
                (if r =? 4 then S (ms_fourth cur) else ms_fourth cur) in
  assoc_set Nat.eqb mid cur' ms.

Definition monthly_session (t : Team) (ms : list (nat * MStats))
    (sess : string * list RawScore) : list (nat * MStats) :=
  let session_scores := snd sess in
  if negb (Nat.eqb (List.length session_scores) 4) then ms
  else fold_left (monthly_step t session_scores) session_scores ms.

Definition attach (ms : list (nat * MStats)) (m : Member) : Standing :=
  match assoc_get Nat.eqb (member_pk m) ms with
  | Some s =>
      let tot := ms_total s in
      let g := ms_games s in
      mkStanding m tot g
        (if (0 <? g)%nat then (tot / Qnat g)%Q else 0%Q)
        (Some (match ms_placements s with
               | [] => 0%Q
               | ps => (Qsum ps / Qnat (List.length ps))%Q
               end))
        (Some (ms_chombo_count s))
        (Some (ms_first s)) (Some (ms_second s))
        (Some (ms_third s)) (Some (ms_fourth s))
  | None =>
      mkStanding m 0%Q 0 0%Q (Some 0%Q) (Some 0) (Some 0%nat) (Some 0%nat)
                 (Some 0%nat) (Some 0%nat)
  end.

Definition in_month (month year : Z) (r : RawScore) : bool :=
  (fst (created_at r) =? year) && (snd (created_at r) =? month).

(** Iterating [RawScore.objects.filter(member__team=team,
    created_at__year=year, created_at__month=month)]: newest first, as for
    [session_queryset]. *)
Definition monthly_raw_scores (st : DB) (t : Team) (month year : Z) : list RawScore :=
  rev (filter (fun r => in_team st (team_pk t) r && in_month month year r) (rows st)).

Definition get_team_standings_by_month (st : DB) (t : Team) (month year : Z)
    : list Standing :=
  match monthly_raw_scores st t month year with
  | [] =>
      sorted_desc monthly_total
        (map (fun m => mkStanding m 0%Q 0 0%Q None None None None None None)
             (team_members st (team_pk t)))
  | _ =>
      let sessions := group_sessions (monthly_raw_scores st t month year) in
      let member_scores := fold_left (monthly_session t) sessions [] in
      sorted_desc monthly_total (map (attach member_scores) (team_members st (team_pk t)))
  end.

(** The complete sessions of the month, grouped as the code groups them,
    in which member [m] has a row. *)
Definition qualifying_sessions (st : DB) (t : Team) (month year : Z) (m : Member)
    : list (string * list RawScore) :=
  filter (fun sess => Nat.eqb (List.length (snd sess)) 4
                      && existsb (fun r => Nat.eqb (member r) (member_pk m)) (snd sess))
         (group_sessions (monthly_raw_scores st t month year)).

(* ------------------------------------------------------------------ *)
(** * validate_session_complete (scores/services/calculator.py) *)

(** [str(n)] on a non-negative int: its decimal digits. *)
Fixpoint nat_digits (fuel n : nat) (acc : string) : string :=
  match fuel with
  | O => acc
  | S f =>
      let acc' := String (ascii_of_nat (48 + n mod 10)) acc in
      if (n <? 10)%nat then acc' else nat_digits f (n / 10) acc'
  end.

Definition py_str_nat (n : nat) : string := nat_digits (S n) n EmptyString.

Definition validate_session_complete (sid : string) (t : Team) : M unit :=
  st <- get ;;
  let count := List.length (session_rows st (team_pk t) sid) in
  if negb (Nat.eqb count 4) then
    raise (ValidationError ("Session " ++ sid ++ " must have exactly 4 scores, found "
                            ++ py_str_nat count)%string)
  else ret tt.

(* ------------------------------------------------------------------ *)
(** * Reading the CalculatedScore table (teams/models.py) *)

(** [member.calculated_score]: the reverse accessor of the OneToOneField. *)
Definition calc_get (mid : nat) (l : list (nat * CalculatedScore)) : option CalculatedScore :=
  match find (fun p => Nat.eqb (fst p) mid) l with
  | Some p => Some (snd p)
  | None => None
  end.

(** Member.total_score: [self.calculated_score.total], 0 when the accessor
    raises. *)
Definition total_score (st : DB) (m : Member) : Q :=
  match calc_get (member_pk m) (calc st) with
  | Some c => total c
  | None => 0%Q
  end.

(** Team.get_standings: [sorted(members, key=lambda m:
    m.calculated_score.total if hasattr(m, 'calculated_score') else 0,
    reverse=True)]. *)
Definition get_standings (st : DB) (t : Team) : list Member :=
  sorted_desc (fun m => match calc_get (member_pk m) (calc st) with
                        | Some c => total c
                        | None => 0%Q
                        end)
              (team_members st (team_pk t)).

(* ------------------------------------------------------------------ *)
(** * SessionsView (scores/views.py): the session cards *)

Record CardRow := mkCardRow {
  cr_member_name : string;
  cr_raw_score : Z;
  cr_placement : Z;
  cr_base_score : Q;
  cr_uma : Z;
  cr_chombo : Z;
  cr_calculated_score : Q
}.

(** The body of [for idx, raw_score in enumerate(sorted_scores)]. *)
Definition card_row (st : DB) (t : Team) (idx : nat) (raw_score : RawScore) : CardRow :=
  let placement := Z.of_nat idx + 1 in
  let uma := uma_get t placement in
  let base_score := (QZ (score raw_score - target_point t) / QZ 1000)%Q in
  let calculated := (base_score + QZ uma)%Q in
  let calculated :=
    if (0 <? chombo raw_score) && chombo_enabled t
    then (calculated - QZ (30 * chombo raw_score))%Q else calculated in
  mkCardRow (member_name st raw_score) (score raw_score) placement base_score uma
            (chombo raw_score) calculated.

Definition session_card (st : DB) (t : Team) (scores : list RawScore) : list CardRow :=
  let sorted_scores := sorted_desc score_key scores in
  map (fun p => card_row st t (fst p) (snd p)) (tag sorted_scores).

(** The loop over [sessions_dict.items()], before the sort by session date
    and the pagination; [raw_scores] is the month's queryset in its
    order. *)
Definition sessions_view_cards (st : DB) (t : Team) (raw_scores : list RawScore)
    : list (string * list CardRow) :=
  map (fun sess => (fst sess, session_card st t (snd sess)))
      (filter (fun sess => Nat.eqb (List.length (snd sess)) 4)
              (group_sessions raw_scores)).

(* ------------------------------------------------------------------ *)
(** * Template filters (scores/templatetags/scores_filters.py) *)

(** Python's [l[i]] on a list: negative indices count from the end; [None]
    is IndexError. *)
Definition py_index {A} (l : list A) (i : Z) : option A :=
  if 0 <=? i then nth_error l (Z.to_nat i)
  else if - Z.of_nat (List.length l) <=? i
  then nth_error l (Z.to_nat (Z.of_nat (List.length l) + i))
  else None.

Definition short_names : list string :=
  [""; "Jan"; "Feb"; "Mar"; "Apr"; "May"; "Jun";
   "Jul"; "Aug"; "Sep"; "Oct"; "Nov"; "Dec"]%string.

(** [calendar.month_name] in the C locale: 13 entries, the first empty. *)
Definition month_name : list string :=
  [""; "January"; "February"; "March"; "April"; "May"; "June"; "July";
   "August"; "September"; "October"; "November"; "December"]%string.

(** The filters on an integer [month_num] ([int(month_num)] is the
    identity there). *)
Definition month_name_filter (month_num : Z) : string :=
  match py_index month_name month_num with
  | Some s => s
  | None => ""
  end.

Definition short_month_name (month_num : Z) : string :=
  match py_index short_names month_num with
  | Some s => s
  | None => ""
  end.

(* ------------------------------------------------------------------ *)
(** * REST API (scores/api_serializers.py, scores/api_views.py) *)

(** The tables the views read beside [DB]: the teams with their slug and
    the TeamAdmin links (user id, team pk). *)
Record TeamRow := mkTeamRow {
  tr_slug : string;
  tr_team : Team
}.

Record ApiState := mkApiState {
  api_teams : list TeamRow;
  api_admins : list (nat * nat);
  api_db : DB
}.

Definition with_db (a : ApiState) (st : DB) : ApiState :=
  mkApiState (api_teams a) (api_admins a) st.

(** A key of a parsed JSON object: absent, null, or a value. *)
Inductive JField (A : Type) :=
| Absent
| Null
| Given (a : A).
Arguments Absent {A}.
Arguments Null {A}.
Arguments Given {A} a.

(** A JSON score entry, each value of its field's type. For the required
    fields a missing key and null are both errors, and are [None]. *)
Record ScoreReq := mkScoreReq {
  rq_member_name : option string;
  rq_score : option Z;
  rq_chombo : JField Z
}.

(** A JSON request body. [rq_session_date_ok]: the optional session_date is
    absent, null or a valid date. *)
Record SessionReq := mkSessionReq {
  rq_session_id : option string;
  rq_session_date_ok : bool;
  rq_scores : option (list ScoreReq)
}.

(** The outcome of running a serializer's validation: the validated data,
    ValidationErrors (is_valid() is False), or another exception escaping
    is_valid(). *)
Inductive Validated (A : Type) :=
| Valid (a : A)
| Invalid
| Crash.
Arguments Valid {A} a.
Arguments Invalid {A}.
Arguments Crash {A}.

(** [str.strip()]. A string is a sequence of code points below 256; among
    them [str.isspace] holds of 9-13, 28-32, 133 and 160. *)
Definition py_space (c : ascii) : bool :=
  let n := nat_of_ascii c in
  ((9 <=? n) && (n <=? 13) || (28 <=? n) && (n <=? 32)
   || (n =? 133) || (n =? 160))%nat.

Fixpoint drop_space (l : list ascii) : list ascii :=
  match l with
  | c :: l' => if py_space c then drop_space l' else l
  | [] => []
  end.

Definition py_strip (s : string) : string :=
  string_of_list_ascii (rev (drop_space (rev (drop_space (list_ascii_of_string s))))).

(** serializers.CharField(required=True): a missing value, or one blank after
    trim_whitespace, is an error; then the validators on the stripped value:
    max_length, and ProhibitNullCharactersValidator. *)
Definition char_field (max_length : option nat) (v : option string) : option string :=
  match v with
  | None => None
  | Some s =>
      let s' := py_strip s in
      if String.eqb s' "" then None
      else if match max_length with
              | Some n => (n <? String.length s')%nat
              | None => false
              end then None
      else if existsb (fun c => Nat.eqb (nat_of_ascii c) 0) (list_ascii_of_string s')
      then None
      else Some s'
  end.

(** [Member.objects.filter(name=..., team=team)] *)
Definition members_named (st : DB) (tid : nat) (nm : string) : list Member :=
  filter (fun m => String.eqb (name m) nm && Nat.eqb (m_team m) tid) (members st).

(** ScoreEntrySerializer.validate_member_name: [Member.objects.get] raises
    DoesNotExist (turned into a ValidationError) or MultipleObjectsReturned
    (not caught). *)
Definition validate_member_name (st : DB) (t : Team) (value : string) : Validated string :=
  match members_named st (team_pk t) value with
  | [] => Invalid
  | [_] => Valid value
  | _ => Crash
  end.

(** ScoreEntrySerializer: member_name (CharField, then validate_member_name),
    score (IntegerField, unbounded), chombo (IntegerField, default 0 when
    the key is absent, null refused as allow_null is False, min_value 0). *)
Definition score_entry_valid (st : DB) (t : Team) (e : ScoreReq)
    : Validated (string * Z * Z) :=
  match char_field None (rq_member_name e) with
  | None => Invalid
  | Some v =>
      match validate_member_name st t v with
      | Crash => Crash
      | Invalid => Invalid
      | Valid v' =>
          match rq_score e, rq_chombo e with
          | Some s, Absent => Valid (v', s, 0)
          | Some s, Given c => if c <? 0 then Invalid else Valid (v', s, c)
          | Some _, Null => Invalid
          | None, _ => Invalid
          end
      end
  end.

(** ListSerializer: every item is validated, errors are collected, another
    exception propagates. *)
Fixpoint validate_list {A B} (f : A -> Validated B) (l : list A) : Validated (list B) :=
  match l with
  | [] => Valid []
  | x :: xs =>
      match f x, validate_list f xs with
      | Crash, _ => Crash
      | _, Crash => Crash
      | Valid y, Valid ys => Valid (y :: ys)
      | _, _ => Invalid
      end
  end.

Definition entry_req (e : string * Z * Z) : ScoreReq :=
  mkScoreReq (Some (fst (fst e))) (Some (snd (fst e))) (Given (snd e)).

(** SessionScoresSerializer.validate_scores *)
Definition validate_scores (st : DB) (t : Team) (value : list (string * Z * Z))
    : Validated (list (string * Z * Z)) :=
  if negb (Nat.eqb (List.length value) 4) then Invalid
  else
    let member_names := map (fun e => fst (fst e)) value in
    if negb (Nat.eqb (List.length member_names) (List.length (dedup_str member_names)))
    then Invalid
    else
      match validate_list (fun e => score_entry_valid st t (entry_req e)) value with
      | Crash => Crash
      | Invalid => Invalid
      | Valid _ => Valid value
      end.

(** SessionScoresSerializer: session_id (CharField, max_length 100),
    session_date, scores (the list, then validate_scores). *)
Definition session_scores_valid (st : DB) (t : Team) (req : SessionReq)
    : Validated (string * list (string * Z * Z)) :=
  let sid := char_field (Some 100%nat) (rq_session_id req) in
  let scores :=
    match rq_scores req with
    | None => Invalid
    | Some l =>
        match validate_list (score_entry_valid st t) l with
        | Valid v => validate_scores st t v
        | Invalid => Invalid
        | Crash => Crash
        end
    end in
  match scores, sid with
  | Crash, _ => Crash
  | Valid v, Some s => if rq_session_date_ok req then Valid (s, v) else Invalid
  | _, _ => Invalid
  end.

(** [Member.objects.get(name=score['member_name'], team=team)] for each
    validated entry; [None] is an exception. *)
Fixpoint convert_scores (st : DB) (t : Team) (l : list (string * Z * Z))
    : option (list Entry) :=
  match l with
  | [] => Some []
  | e :: l' =>
      match members_named st (team_pk t) (fst (fst e)), convert_scores st t l' with
      | [m], Some es => Some (mkEntry (Some (member_pk m)) (Some (snd (fst e))) (snd e) :: es)
      | _, _ => None
      end
  end.

(** [get_object_or_404(Team, slug=team_slug)]; slug is unique. *)
Definition find_team (a : ApiState) (slug : string) : option Team :=
  match find (fun tr => String.eqb (tr_slug tr) slug) (api_teams a) with
  | Some tr => Some (tr_team tr)
  | None => None
  end.

(** [team.admins.filter(user=request.user).exists()] *)
Definition is_team_admin (a : ApiState) (user : nat) (t : Team) : bool :=
  existsb (fun p => Nat.eqb (fst p) user && Nat.eqb (snd p) (team_pk t)) (api_admins a).

(** The status code of a response and the count it reports
    (scores_created, scores_updated or scores_deleted). *)
Record Response := mkResponse {
  status : Z;
  count : option nat
}.

Definition fail (code : Z) : Response := mkResponse code None.

(** SessionSubmitAPIView.post. [user] is the user the bearer token
    authenticates, [None] when IsAuthenticated refuses the request; an
    exception escaping the view is a 500. *)
Definition api_session_submit (user : option nat) (team_slug : string)
    (req : SessionReq) (a : ApiState) : Response * ApiState :=
  match user with
  | None => (fail 401, a)
  | Some u =>
    match find_team a team_slug with
    | None => (fail 404, a)
    | Some team =>
      if negb (is_team_admin a u team) then (fail 403, a)
      else
        let st := api_db a in
        match session_scores_valid st team req with
        | Crash => (fail 500, a)
        | Invalid => (fail 400, a)
        | Valid (session_id, scores_data) =>
          match convert_scores st team scores_data with
          | None => (fail 500, a)
          | Some converted_scores =>
            match session_rows st (team_pk team) session_id with
            | _ :: _ => (fail 409, a)
            | [] =>
              match submit_session_scores session_id team converted_scores st with
              | (Ok created_scores, st') =>
                  (mkResponse 201 (Some (List.length created_scores)), with_db a st')
              | (Err _, st') => (fail 400, with_db a st')
              end
            end
          end
        end
    end
  end.

(** SessionUpdateAPIView.put; [session_id] comes from the URL. *)
Definition api_session_update (user : option nat) (team_slug session_id : string)
    (req : SessionReq) (a : ApiState) : Response * ApiState :=
  match user with
  | None => (fail 401, a)
  | Some u =>
    match find_team a team_slug with
    | None => (fail 404, a)
    | Some team =>
      if negb (is_team_admin a u team) then (fail 403, a)
      else
        let st := api_db a in
        match session_rows st (team_pk team) session_id with
        | [] => (fail 404, a)
        | _ :: _ =>
          match session_scores_valid st team req with
          | Crash => (fail 500, a)
          | Invalid => (fail 400, a)
          | Valid (_, scores_data) =>
            match convert_scores st team scores_data with
            | None => (fail 500, a)
            | Some converted_scores =>
              match update_session_scores session_id team converted_scores st with
              | (Ok updated_scores, st') =>
                  (mkResponse 200 (Some (List.length updated_scores)), with_db a st')
              | (Err _, st') => (fail 400, with_db a st')
              end
            end
          end
        end
    end
  end.

(** SessionDeleteAPIView.delete; [sid] is the session_id of the URL. The
    affected members are recalculated in the order of their first row; each recalculation reads only rows and
    members, which the loop leaves alone. *)
Definition api_session_delete (user : option nat) (team_slug sid : string)
    (a : ApiState) : Response * ApiState :=
  match user with
  | None => (fail 401, a)
  | Some u =>
    match find_team a team_slug with
    | None => (fail 404, a)
    | Some team =>
      if negb (is_team_admin a u team) then (fail 403, a)
      else
        let st := api_db a in
        let session_scores := session_rows st (team_pk team) sid in
        match session_scores with
        | [] => (fail 404, a)
        | _ :: _ =>
          let affected_members := dedup_nat (map member session_scores) in
          let cnt := List.length session_scores in
          let st1 := set_rows st (filter (fun r => negb (in_team st (team_pk team) r
                                         && String.eqb (session_id r) sid)) (rows st)) in
          let st2 := snd (iterM (recalculate_member_score team) affected_members st1) in
          (mkResponse 200 (Some cnt), with_db a st2)
        end
    end
  end.

(** The (member, session_id) key of the unique_together constraint. *)
Definition rkey (r : RawScore) : nat * string := (member r, session_id r).

(* ------------------------------------------------------------------ *)
(** * Sample data *)

Definition team1 : Team := mkTeam 1 30000 15 5 (-5) (-15) true.

Definition sample_members : list Member :=
  [mkMember 1 1 "A"; mkMember 2 1 "B"; mkMember 3 1 "C"; mkMember 4 1 "D";
   mkMember 5 1 "E"; mkMember 6 1 "F"; mkMember 7 1 "G"; mkMember 8 1 "H";
   mkMember 9 2 "X"]%string.

Definition db_empty : DB := mkDB sample_members [] [] 1 (2026, 10).

Definition entry (mid : nat) (s c : Z) : Entry := mkEntry (Some mid) (Some s) c.

(** The tie example of the spec: [30000, 30000, 20000, 20000]; D has two
    chombos. *)
Definition tie_entries : list Entry :=
  [entry 1 30000 0; entry 2 30000 0; entry 3 20000 0; entry 4 20000 2].

Definition db_tie : DB := snd (submit_session_scores "s1" team1 tie_entries db_empty).

Definition member_A : Member := mkMember 1 1 "A".
Definition member_D : Member := mkMember 4 1 "D".
Definition member_E : Member := mkMember 5 1 "E".

(** Two entries of [score_data] name the same member_id. *)
Definition dup_member_ids (data : list Entry) : bool :=
  has_dup (fun a b => match e_member_id a, e_member_id b with
                      | Some x, Some y => Nat.eqb x y
                      | _, _ => false
                      end) data.

(** An entry that passes the per-entry checks of submit_session_scores:
    member_id and score present, score and chombo in the IntegerField
    range, the member is in the team, and that member has no stored row in
    the session. *)
Definition entry_ok (st : DB) (t : Team) (sid : string) (d : Entry) : bool :=
  match e_member_id d, e_score d with
  | Some mid, Some s =>
      int_in_range s && int_in_range (e_chombo d) &&
      match member_get st mid (team_pk t) with
      | Some _ => negb (existsb (fun x => Nat.eqb (member x) mid
                                          && String.eqb (session_id x) sid) (rows st))
      | None => false
      end
  | _, _ => false
  end.

(** Four other members of team 1. *)
Definition other_entries : list Entry :=
  [entry 5 35000 0; entry 6 25000 0; entry 7 25000 0; entry 8 15000 0].

(** A second submit into the complete session "s1" of [db_tie]. *)
Definition db_over : DB := snd (submit_session_scores "s1" team1 other_entries db_tie).

(** A month with one complete session with distinct scores. *)
Definition db_month : DB :=
  snd (submit_session_scores "m1" team1
         [entry 1 40000 0; entry 2 30000 0; entry 3 20000 0; entry 4 10000 0] db_empty).

(** A complete session entered row by row through RawScore.save. *)
Definition raw (mid : nat) (s : Z) : RawScore := mkRawScore 0 mid s None 0 "s2" (2026, 10).

(** A's stored row of session s1 in db_tie (pk 1), with its score edited as
    the admin change form would submit it. *)
Definition edited_A : RawScore := mkRawScore 1 1 31000 (Some 1%Q) 0 "s1" (2026, 10).

Definition db_saved : DB :=
  snd ((rawscore_save team1 (raw 1 40000) ;; rawscore_save team1 (raw 2 30000) ;;
        rawscore_save team1 (raw 3 20000) ;; rawscore_save team1 (raw 4 10000)) db_empty).

(** An API state: team1 under the slug "t1", administered by user 7. *)
Definition api_demo (st : DB) : ApiState :=
  mkApiState [mkTeamRow "t1"%string team1] [(7%nat, 1%nat)] st.

Definition score_req (nm : string) (s : Z) : ScoreReq := mkScoreReq (Some nm) (Some s) Absent.

(** A request body for session " s9 " (stripped to "s9") with players A to D. *)
Definition demo_req : SessionReq :=
  mkSessionReq (Some " s9 "%string) true
    (Some [score_req "A" 40000; score_req "B" 30000; score_req "C" 20000; score_req "D" 10000]%string).

(** The placement of a tagged row, 0 when unset. *)
Definition pl_of (p : nat * RawScore) : Q :=
  match placement (snd p) with Some q => q | None => 0%Q end.

(** A row with its placement cleared. *)
Definition strip (r : RawScore) : RawScore := set_placement r None.

(** [placement or 0] *)
Definition placement_value (r : RawScore) : Q :=
  match placement r with Some q => q | None => 0%Q end.

(* ==================================================================== *)
(** * Proofs *)

(** Closes a closed (in)equation between computed values. *)
Ltac closed_eq :=
  first [ reflexivity
        | let H := fresh in intro H; vm_compute in H; discriminate H ].

(** ** C1: the rollup ignores ties.
    After the tie session [30000, 30000, 20000, 20000] is submitted, the
    Placement Resolver gives A and B placement 3/2 and uma (15 + 5) / 2 = 10.
    compute_stats instead ranks the queryset's order, newest row first
    (D, C, B, A): the stable sort puts B before A, so B gets the plain rank 1
    with uma 15 and A the plain rank 2 with uma 5, while the submit path
    stored the shared tie placement. *)
Theorem compute_stats_tie_uses_plain_rank :
  average_placement (compute_stats db_tie team1 member_A) == 2
  /\ ~ (average_placement (compute_stats db_tie team1 member_A) == 3 # 2)
  /\ total (compute_stats db_tie team1 member_A) == 5
  /\ ~ (total (compute_stats db_tie team1 member_A) == 10)
  /\ average_placement (compute_stats db_tie team1 (mkMember 2 1 "B")) == 1
  /\ total (compute_stats db_tie team1 (mkMember 2 1 "B")) == 15.
Proof.
  vm_compute. repeat split; closed_eq.
Qed.

(** ** C2: get_session_details takes a flat 30.
    D has chombo 2 in the tie session with chombo enabled; the session
    details subtract 30 (calculated = base + uma - 30 = -50), not 30 * 2,
    while compute_stats of the same row subtracts 60 (there D, the newest
    row, ranks 3rd before C: uma -5). *)
Theorem session_details_flat_chombo :
  exists ps,
    get_session_details db_tie "s1" team1 = Some ("s1"%string, ps)
    /\ map pl_chombo ps = [0; 0; 0; 2]
    /\ Forall2 Qeq (map pl_calculated_score ps) [10; 10; -20; -50]%Q
    /\ pl_calculated_score (nth 3 ps (mkPlayer "" 0 0 0 0 0 0))
       == pl_base_score (nth 3 ps (mkPlayer "" 0 0 0 0 0 0))
          + pl_uma (nth 3 ps (mkPlayer "" 0 0 0 0 0 0)) - 30
    /\ ~ (pl_calculated_score (nth 3 ps (mkPlayer "" 0 0 0 0 0 0))
          == pl_base_score (nth 3 ps (mkPlayer "" 0 0 0 0 0 0))
             + pl_uma (nth 3 ps (mkPlayer "" 0 0 0 0 0 0)) - 30 * 2)
    /\ total (compute_stats db_tie team1 member_D) == -10 - 5 - 30 * 2.
Proof.
  eexists. split; [vm_compute; reflexivity|].
  vm_compute. repeat split; try closed_eq; repeat constructor.
Qed.

(** ** C5: tie placements do not survive storage.
    submit_session_scores returns A, B with placement 3/2 and C, D with 7/2,
    but RawScore.placement is an IntegerField: the stored values are
    int(3/2) = 1 and int(7/2) = 3, and get_session_details reports the
    placements 1, 1, 3, 3 (summing to 8). *)
Theorem tie_placement_truncated_in_round_trip :
  (exists created,
     fst (submit_session_scores "s1" team1 tie_entries db_empty) = Ok created
     /\ map placement created = [Some (3 # 2); Some (3 # 2); Some (7 # 2); Some (7 # 2)]%Q)
  /\ (exists ps,
     get_session_details db_tie "s1" team1 = Some ("s1"%string, ps)
     /\ map (fun p => (pl_member p, pl_raw_score p, pl_chombo p)) ps
        = [("A", 30000, 0); ("B", 30000, 0); ("C", 20000, 0); ("D", 20000, 2)]%string
     /\ map pl_placement ps = [1; 1; 3; 3]%Q).
Proof.
  split; eexists; vm_compute; split; reflexivity || (split; reflexivity).
Qed.

(* ------------------------------------------------------------------ *)
(** ** The stable descending sort *)

Section SortFacts.
Context {A : Type} (key : A -> Q).

Lemma insert_desc_perm : forall x l, Permutation (insert_desc key x l) (x :: l).
Proof.
  intros x l; induction l as [|y ys IH]; simpl; [reflexivity|].
  destruct (Qle_bool (key y) (key x)); [reflexivity|].
  rewrite IH. apply perm_swap.
Qed.

Lemma sorted_desc_perm : forall l, Permutation (sorted_desc key l) l.
Proof.
  induction l as [|x xs IH]; simpl; [reflexivity|].
  rewrite insert_desc_perm. now apply perm_skip.
Qed.

Lemma insert_desc_hdrel : forall y x l,
  HdRel (desc key) y l -> (desc key) y x -> HdRel (desc key) y (insert_desc key x l).
Proof.
  intros y x l Hh Hyx; destruct l as [|z zs]; simpl.
  - now constructor.
  - destruct (Qle_bool (key z) (key x)); [now constructor|].
    inversion Hh; now constructor.
Qed.

Lemma insert_desc_sorted : forall x l,
  Sorted (desc key) l -> Sorted (desc key) (insert_desc key x l).
Proof.
  intros x l; induction l as [|y ys IH]; intros Hs; simpl.
  - now repeat constructor.
  - destruct (Qle_bool (key y) (key x)) eqn:E.
    + constructor; [exact Hs|]. constructor. unfold desc.
      now apply Qle_bool_iff.
    + inversion Hs as [|? ? Hs' Hh]; subst.
      constructor; [now apply IH|].
      apply insert_desc_hdrel; [exact Hh|].
      unfold desc. apply Qlt_le_weak, Qnot_le_lt.
      intro Hle; apply Qle_bool_iff in Hle; congruence.
Qed.

Lemma sorted_desc_sorted : forall l, Sorted (desc key) (sorted_desc key l).
Proof.
  induction l as [|x xs IH]; simpl; [constructor|].
  now apply insert_desc_sorted.
Qed.
(** Stability: the elements of one key value keep their relative order. *)
Lemma filter_insert_desc : forall q x l,
  filter (fun y => Qeq_bool (key y) q) (insert_desc key x l)
  = filter (fun y => Qeq_bool (key y) q) (x :: l).
Proof.
  intros q x l; induction l as [|y ys IH]; simpl; [reflexivity|].
  destruct (Qle_bool (key y) (key x)) eqn:Ele; [reflexivity|].
  simpl. rewrite IH. simpl.
  destruct (Qeq_bool (key y) q) eqn:Ey, (Qeq_bool (key x) q) eqn:Ex; try reflexivity.
  exfalso. apply Qeq_bool_iff in Ey, Ex.
  assert (Hle : (key y <= key x)%Q) by (rewrite Ey, Ex; apply Qle_refl).
  apply Qle_bool_iff in Hle. congruence.
Qed.

Lemma sorted_desc_stable : forall q l,
  filter (fun y => Qeq_bool (key y) q) (sorted_desc key l)
  = filter (fun y => Qeq_bool (key y) q) l.
Proof.
  intros q l; induction l as [|x xs IH]; [reflexivity|].
  change (sorted_desc key (x :: xs)) with (insert_desc key x (sorted_desc key xs)).
  rewrite filter_insert_desc. simpl. now rewrite IH.
Qed.
End SortFacts.

Lemma filter_map_comm : forall {A B} (f : A -> B) (p : B -> bool) l,
  filter p (map f l) = map f (filter (fun x => p (f x)) l).
Proof.
  intros A B f p l; induction l as [|x xs IH]; simpl; [reflexivity|].
  destruct (p (f x)); simpl; now rewrite IH.
Qed.

Lemma Qsum_perm : forall l l', Permutation l l' -> Qsum l == Qsum l'.
Proof.
  intros l l' P; induction P; simpl.
  - reflexivity.
  - now rewrite IHP.
  - ring.
  - now transitivity (Qsum l').
Qed.

(* ------------------------------------------------------------------ *)
(** ** Placements of a sorted 4-player session *)

Ltac settle_eqb :=
  repeat match goal with
  | |- context [?x =? ?x] => rewrite (Z.eqb_refl x)
  | |- context [?x =? ?y] =>
      replace (x =? y) with false by (symmetry; apply Z.eqb_neq; lia)
  end.

(** Whatever the ties, the placements the submit loop hands out along a
    descending 4-element list add up to 1 + 2 + 3 + 4. *)
Lemma assign_from_sum_10 : forall p0 p1 p2 p3,
  let s := [p0; p1; p2; p3] in
  score (snd p1) <= score (snd p0) ->
  score (snd p2) <= score (snd p1) ->
  score (snd p3) <= score (snd p2) ->
  Qsum (map pl_of (assign_from s 0 s)) == 10.
Proof.
  intros [j0 r0] [j1 r1] [j2 r2] [j3 r3] s H1 H2 H3; subst s; simpl in *.
  unfold shared_or_rank, pl_of; simpl.
  destruct (Z.eq_dec (score r0) (score r1)) as [E1|E1];
  destruct (Z.eq_dec (score r1) (score r2)) as [E2|E2];
  destruct (Z.eq_dec (score r2) (score r3)) as [E3|E3];
  rewrite ?E1, ?E2, ?E3 in *; settle_eqb; vm_compute; reflexivity.
Qed.

(** Those placements are between 1 and 4, so they fit the column. *)
Lemma assign_from_in_range : forall p0 p1 p2 p3,
  let s := [p0; p1; p2; p3] in
  score (snd p1) <= score (snd p0) ->
  score (snd p2) <= score (snd p1) ->
  score (snd p3) <= score (snd p2) ->
  forallb (fun p => placement_in_range (placement (snd p))) (assign_from s 0 s) = true.
Proof.
  intros [j0 r0] [j1 r1] [j2 r2] [j3 r3] s H1 H2 H3; subst s; simpl in *.
  unfold shared_or_rank; simpl.
  destruct (Z.eq_dec (score r0) (score r1)) as [E1|E1];
  destruct (Z.eq_dec (score r1) (score r2)) as [E2|E2];
  destruct (Z.eq_dec (score r2) (score r3)) as [E3|E3];
  rewrite ?E1, ?E2, ?E3 in *; settle_eqb; vm_compute; reflexivity.
Qed.

(* ------------------------------------------------------------------ *)
(** ** Tagging and the write-back of placements *)

Lemma strip_set_placement : forall r q, strip (set_placement r q) = strip r.
Proof. now destruct r. Qed.

Lemma tag_fst_from : forall {A} (l : list A) k,
  map fst (combine (seq k (List.length l)) l) = seq k (List.length l).
Proof.
  intros A l; induction l as [|x xs IH]; intros k; simpl; [reflexivity|].
  now rewrite IH.
Qed.

Lemma tag_snd_from : forall {A} (l : list A) k,
  map snd (combine (seq k (List.length l)) l) = l.
Proof.
  intros A l; induction l as [|x xs IH]; intros k; simpl; [reflexivity|].
  now rewrite IH.
Qed.

Lemma tag_in_from : forall {A} (l : list A) k j r,
  In (j, r) (combine (seq k (List.length l)) l) ->
  (k <= j)%nat /\ nth_error l (j - k) = Some r.
Proof.
  intros A l; induction l as [|x xs IH]; intros k j r Hin; simpl in Hin; [easy|].
  destruct Hin as [E|Hin].
  - inversion E; subst. now rewrite Nat.sub_diag.
  - destruct (IH (S k) j r Hin) as [Hk Hn]. split; [lia|].
    replace (j - k)%nat with (S (j - S k)) by lia. exact Hn.
Qed.

Lemma tag_fst : forall {A} (l : list A), map fst (tag l) = seq 0 (List.length l).
Proof. intros; apply tag_fst_from. Qed.

Lemma tag_snd : forall {A} (l : list A), map snd (tag l) = l.
Proof. intros; apply tag_snd_from. Qed.

Lemma tag_unique : forall {A} (l : list A) j r1 r2,
  In (j, r1) (tag l) -> In (j, r2) (tag l) -> r1 = r2.
Proof.
  intros A l j r1 r2 H1 H2.
  apply tag_in_from in H1, H2. destruct H1 as [_ H1], H2 as [_ H2]. congruence.
Qed.

Lemma key_unique : forall {A} (al : list (nat * A)) a b,
  NoDup (map fst al) -> In a al -> In b al -> fst a = fst b -> a = b.
Proof.
  intros A al; induction al as [|x xs IH]; intros a b Hnd Ha Hb Hk; [easy|].
  simpl in Hnd; inversion Hnd as [|? ? Hx Hnd']; subst.
  destruct Ha as [<-|Ha], Hb as [<-|Hb]; auto.
  - exfalso; apply Hx. rewrite Hk. now apply in_map.
  - exfalso; apply Hx. rewrite <- Hk. now apply in_map.
Qed.

Lemma assign_from_fst : forall s i l, map fst (assign_from s i l) = map fst l.
Proof.
  intros s i l; revert i; induction l as [|[j r] l IH]; intros i; simpl; [easy|].
  now rewrite IH.
Qed.

Lemma assign_from_in : forall s i l q,
  In q (assign_from s i l) ->
  exists p, In p l /\ fst q = fst p /\ strip (snd q) = strip (snd p).
Proof.
  intros s i l; revert i; induction l as [|[j r] l IH]; intros i q Hq; simpl in Hq; [easy|].
  destruct Hq as [<-|Hq].
  - exists (j, r). simpl. split; [now left|]. split; [easy|]. apply strip_set_placement.
  - destruct (IH (S i) q Hq) as (p & Hp & E1 & E2). exists p. simpl; auto.
Qed.

Section WriteBack.
Variable l : list RawScore.

Let sorted_l := sorted_desc (fun p => score_key (snd p)) (tag l).
Let assigned := assign_from sorted_l 0 sorted_l.
Let found (p : nat * RawScore) : nat * RawScore :=
  match find (fun q => Nat.eqb (fst q) (fst p)) assigned with
  | Some q => q
  | None => p
  end.

Lemma assigned_keys_nodup : NoDup (map fst assigned).
Proof.
  unfold assigned. rewrite assign_from_fst.
  apply (Permutation_NoDup (l := map fst (tag l))).
  - apply Permutation_map. symmetry. apply sorted_desc_perm.
  - rewrite tag_fst. apply seq_NoDup.
Qed.

Lemma found_spec : forall p, In p (tag l) ->
  find (fun q => Nat.eqb (fst q) (fst p)) assigned = Some (found p)
  /\ In (found p) assigned /\ fst (found p) = fst p
  /\ strip (snd (found p)) = strip (snd p).
Proof.
  intros p Hp.
  assert (Hs : In p sorted_l) by (eapply Permutation_in;
    [symmetry; apply sorted_desc_perm | exact Hp]).
  assert (Hk : In (fst p) (map fst assigned)).
  { unfold assigned. rewrite assign_from_fst. now apply in_map. }
  apply in_map_iff in Hk. destruct Hk as (q' & Eq' & Hq').
  unfold found.
  destruct (find (fun q => Nat.eqb (fst q) (fst p)) assigned) as [q|] eqn:F.
  - apply find_some in F. destruct F as [Hq Eq]. apply Nat.eqb_eq in Eq.
    split; [reflexivity|]. split; [exact Hq|]. split; [exact Eq|].
    destruct (assign_from_in _ _ _ _ Hq) as (p' & Hp' & E1 & E2).
    rewrite E2. f_equal.
    assert (Hp't : In p' (tag l)) by (eapply Permutation_in;
      [apply sorted_desc_perm | exact Hp']).
    assert (Ek : fst p' = fst p) by congruence.
    apply (tag_unique l (fst p)).
    + rewrite <- Ek, <- surjective_pairing. exact Hp't.
    + rewrite <- surjective_pairing. exact Hp.
  - exfalso. eapply find_none in F; [|exact Hq'].
    rewrite Eq', Nat.eqb_refl in F. discriminate.
Qed.

Lemma assign_placements_as_found :
  assign_placements l = map (fun p => snd (found p)) (tag l).
Proof.
  unfold assign_placements. apply map_ext. intros p. unfold found.
  fold sorted_l. fold assigned.
  destruct (find _ assigned); reflexivity.
Qed.

Lemma assign_placements_strip : map strip (assign_placements l) = map strip l.
Proof.
  rewrite assign_placements_as_found, map_map.
  rewrite <- (tag_snd l) at 2. rewrite map_map.
  apply map_ext_in. intros p Hp. now apply found_spec.
Qed.

Lemma found_perm : Permutation (map found (tag l)) assigned.
Proof.
  apply NoDup_Permutation.
  - apply (NoDup_map_inv fst).
    replace (map fst (map found (tag l))) with (map fst (tag l)).
    + rewrite tag_fst. apply seq_NoDup.
    + rewrite map_map. apply map_ext_in. intros p Hp.
      symmetry. now apply found_spec.
  - apply (NoDup_map_inv fst). apply assigned_keys_nodup.
  - intros x; split.
    + intros Hx. apply in_map_iff in Hx. destruct Hx as (p & <- & Hp).
      now apply found_spec.
    + intros Hx.
      destruct (assign_from_in _ _ _ _ Hx) as (p' & Hp' & E1 & _).
      assert (Hp't : In p' (tag l)) by (eapply Permutation_in;
        [apply sorted_desc_perm | exact Hp']).
      destruct (found_spec p' Hp't) as (_ & Hf & Ef & _).
      apply in_map_iff. exists p'. split; [|exact Hp't].
      apply (key_unique assigned); [apply assigned_keys_nodup | exact Hf | exact Hx |].
      congruence.
Qed.

(** For four objects whose integers fit, the placed objects still fit. *)
Lemma assign_placements_in_range :
  List.length l = 4%nat -> forallb row_in_range l = true ->
  forallb row_in_range (assign_placements l) = true.
Proof.
  intros Hl Hr.
  assert (Ha : forallb (fun p => placement_in_range (placement (snd p))) assigned = true).
  { unfold assigned, sorted_l.
    assert (Hlen : List.length (sorted_desc (fun p => score_key (snd p)) (tag l)) = 4%nat).
    { rewrite (Permutation_length (sorted_desc_perm _ (tag l))).
      rewrite <- (length_map fst), tag_fst, length_seq. exact Hl. }
    pose proof (sorted_desc_sorted (fun p => score_key (snd p)) (tag l)) as Hs.
    destruct (sorted_desc (fun p => score_key (snd p)) (tag l))
      as [|p0 [|p1 [|p2 [|p3 [|? ?]]]]]; try discriminate.
    apply Sorted_inv in Hs as [Hs H0]. apply Sorted_inv in Hs as [Hs H1].
    apply Sorted_inv in Hs as [Hs H2].
    apply HdRel_inv in H0, H1, H2. unfold desc, score_key, QZ in *.
    rewrite <- Zle_Qle in H0, H1, H2.
    now apply assign_from_in_range. }
  rewrite assign_placements_as_found. apply forallb_forall.
  intros r Hr'. apply in_map_iff in Hr' as (p & <- & Hp).
  destruct (found_spec p Hp) as (_ & Hin & _ & Hs).
  rewrite forallb_forall in Ha, Hr. specialize (Ha _ Hin).
  assert (Hl' : In (snd p) l) by (rewrite <- (tag_snd l); now apply in_map).
  specialize (Hr _ Hl').
  assert (Es : score (snd (found p)) = score (snd p)) by exact (f_equal score Hs).
  assert (Ec : chombo (snd (found p)) = chombo (snd p)) by exact (f_equal chombo Hs).
  unfold row_in_range in *. rewrite Es, Ec.
  apply andb_true_iff in Hr as [Hr _]. now rewrite Hr, Ha.
Qed.
End WriteBack.

(** The placements assign_placements gives four raw scores add up to 10. *)
Lemma assign_placements_sum_10 : forall l, List.length l = 4%nat ->
  Qsum (map placement_value (assign_placements l)) == 10.
Proof.
  intros l Hl.
  rewrite assign_placements_as_found, map_map.
  rewrite (Qsum_perm _ (map pl_of (assign_from
             (sorted_desc (fun p => score_key (snd p)) (tag l)) 0
             (sorted_desc (fun p => score_key (snd p)) (tag l))))).
  2:{ replace (map (fun x => placement_value (snd _)) (tag l))
        with (map pl_of (map (fun p => match find (fun q => Nat.eqb (fst q) (fst p))
               (assign_from (sorted_desc (fun p => score_key (snd p)) (tag l)) 0
                  (sorted_desc (fun p => score_key (snd p)) (tag l))) with
               | Some q => q | None => p end) (tag l))).
      - apply Permutation_map, found_perm.
      - rewrite map_map. apply map_ext. intros p. unfold pl_of, placement_value.
        destruct (find _ _); reflexivity. }
  assert (Hlen : List.length (sorted_desc (fun p => score_key (snd p)) (tag l)) = 4%nat).
  { rewrite (Permutation_length (sorted_desc_perm _ (tag l))).
    rewrite <- (length_map fst), tag_fst, length_seq. exact Hl. }
  pose proof (sorted_desc_sorted (fun p => score_key (snd p)) (tag l)) as Hs.
  destruct (sorted_desc (fun p => score_key (snd p)) (tag l))
    as [|p0 [|p1 [|p2 [|p3 [|? ?]]]]]; try discriminate.
  apply Sorted_inv in Hs as [Hs H0]. apply Sorted_inv in Hs as [Hs H1].
  apply Sorted_inv in Hs as [Hs H2].
  apply HdRel_inv in H0, H1, H2. unfold desc, score_key, QZ in *.
  rewrite <- Zle_Qle in H0, H1, H2.
  now apply assign_from_sum_10.
Qed.

(* ------------------------------------------------------------------ *)
(** ** State effects of the ORM steps *)

Lemma full_clean_state : forall r st, snd (full_clean r st) = st.
Proof.
  intros r st. unfold full_clean, bind, get, ret, raise.
  repeat match goal with |- context [if ?b then _ else _] => destruct b end;
    reflexivity.
Qed.

Lemma build_raw_score_state : forall t sid d st,
  snd (build_raw_score t sid d st) = st.
Proof.
  intros t sid [[mid|] [s|] c] st; unfold build_raw_score, bind, get, raise;
    simpl; try reflexivity.
  destruct (member_get st mid (team_pk t)) as [m|]; [|reflexivity].
  unfold bind. pose proof (full_clean_state
    (mkRawScore 0 (member_pk m) s None c sid (clock st)) st) as E.
  destruct (full_clean _ st) as [[[]|e] st1]; simpl in *; subst; reflexivity.
Qed.

Lemma member_get_pk : forall st mid tid m,
  member_get st mid tid = Some m -> member_pk m = mid /\ m_team m = tid.
Proof.
  intros st mid tid m. unfold member_get.
  destruct (find _ _) as [m'|] eqn:F; [|discriminate].
  apply find_some in F as [_ Hk]. apply Nat.eqb_eq in Hk.
  destruct (Nat.eqb (m_team m') tid) eqn:Et; [|discriminate].
  apply Nat.eqb_eq in Et. intros H; inversion H; subst; auto.
Qed.

Lemma build_raw_score_ok : forall t sid d st r,
  fst (build_raw_score t sid d st) = Ok r ->
  e_member_id d = Some (member r) /\ session_id r = sid /\ placement r = None
  /\ (exists m, member_get st (member r) (team_pk t) = Some m)
  /\ existsb (fun x => Nat.eqb (member x) (member r)
                       && String.eqb (session_id x) (session_id r)) (rows st) = false.
Proof.
  intros t sid [[mid|] [s|] c] st r; unfold build_raw_score, bind, get, raise;
    simpl; try discriminate.
  destruct (member_get st mid (team_pk t)) as [m|] eqn:Em; [|discriminate].
  unfold full_clean, bind, get, ret, raise.
  repeat (match goal with |- context [if ?b then _ else _] => destruct b eqn:? end;
          simpl; try discriminate).
  intros H; inversion H; subst; clear H. simpl.
  destruct (member_get_pk _ _ _ _ Em) as [Hpk _]. subst mid.
  repeat split; try reflexivity; [now exists m | assumption].
Qed.

(** An object built for the batch passed full_clean's field checks. *)
Lemma build_raw_score_fields : forall t sid d st r,
  fst (build_raw_score t sid d st) = Ok r ->
  row_in_range r = true /\ session_id r <> ""%string /\ rs_pk r = 0%nat.
Proof.
  intros t sid [[mid|] [s|] c] st r; unfold build_raw_score, bind, get, raise;
    simpl; try discriminate.
  destruct (member_get st mid (team_pk t)) as [m|] eqn:Em; [|discriminate].
  unfold full_clean, bind, get, ret, raise; simpl.
  destruct (int_in_range s) eqn:E1; simpl; [|discriminate].
  destruct (int_in_range c) eqn:E2; simpl; [|discriminate].
  destruct (String.eqb sid "") eqn:E3; simpl; [discriminate|].
  intros H. repeat (match type of H with context [if ?b then _ else _] =>
                      destruct b; simpl in H; try discriminate end).
  inversion H; subst; clear H. unfold row_in_range; simpl.
  rewrite E1, E2. split; [reflexivity|]. split; [|reflexivity].
  intros E. rewrite E in E3. discriminate.
Qed.

Lemma mapM_build_state : forall t sid data st,
  snd (mapM (build_raw_score t sid) data st) = st.
Proof.
  intros t sid data; induction data as [|d ds IH]; intros st; [reflexivity|].
  simpl. unfold bind.
  pose proof (build_raw_score_state t sid d st) as E.
  destruct (build_raw_score t sid d st) as [[r|e] st1]; simpl in E; subst st1;
    [|reflexivity].
  specialize (IH st).
  destruct (mapM (build_raw_score t sid) ds st) as [[rs|e] st2]; simpl in *; subst st2;
    reflexivity.
Qed.

Lemma mapM_build_ok : forall t sid data st rs,
  fst (mapM (build_raw_score t sid) data st) = Ok rs ->
  Forall2 (fun d r => e_member_id d = Some (member r) /\ session_id r = sid
                      /\ placement r = None
                      /\ (exists m, member_get st (member r) (team_pk t) = Some m)
                      /\ existsb (fun x => Nat.eqb (member x) (member r)
                           && String.eqb (session_id x) (session_id r)) (rows st) = false)
          data rs.
Proof.
  intros t sid data; induction data as [|d ds IH]; intros st rs H.
  - simpl in H. inversion H. constructor.
  - simpl in H. unfold bind in H.
    pose proof (build_raw_score_state t sid d st) as E.
    pose proof (build_raw_score_ok t sid d st) as Hok.
    destruct (build_raw_score t sid d st) as [[r|e] st1]; simpl in E, Hok; subst st1;
      [|discriminate].
    pose proof (IH st) as IH1.
    destruct (mapM (build_raw_score t sid) ds st) as [[rs'|e] st2];
      simpl in H; [|discriminate].
    unfold ret in H. inversion H; subst. constructor.
    + now apply Hok.
    + now apply IH1.
Qed.

Lemma mapM_build_fields : forall t sid data st rs,
  fst (mapM (build_raw_score t sid) data st) = Ok rs ->
  Forall (fun r => row_in_range r = true /\ session_id r <> ""%string /\ rs_pk r = 0%nat) rs.
Proof.
  intros t sid data; induction data as [|d ds IH]; intros st rs H.
  - simpl in H. inversion H. constructor.
  - simpl in H. unfold bind in H.
    pose proof (build_raw_score_state t sid d st) as E.
    pose proof (build_raw_score_fields t sid d st) as Hok.
    destruct (build_raw_score t sid d st) as [[r|e] st1]; simpl in E, Hok; subst st1;
      [|discriminate].
    pose proof (IH st) as IH1.
    destruct (mapM (build_raw_score t sid) ds st) as [[rs'|e] st2];
      simpl in H; [|discriminate].
    unfold ret in H. inversion H; subst. constructor.
    + now apply Hok.
    + now apply IH1.
Qed.

Lemma recalculate_member_score_effect : forall t mid st,
  fst (recalculate_member_score t mid st) = Ok tt
  /\ rows (snd (recalculate_member_score t mid st)) = rows st
  /\ members (snd (recalculate_member_score t mid st)) = members st.
Proof.
  intros t mid st. unfold recalculate_member_score, bind, get, put, ret.
  destruct (find _ _); simpl; auto.
Qed.

Lemma iterM_recalc_effect : forall {A} t (f : A -> nat) l st,
  fst (iterM (fun x => recalculate_member_score t (f x)) l st) = Ok tt
  /\ rows (snd (iterM (fun x => recalculate_member_score t (f x)) l st)) = rows st
  /\ members (snd (iterM (fun x => recalculate_member_score t (f x)) l st)) = members st.
Proof.
  intros A t f l; induction l as [|x xs IH]; intros st; [simpl; auto|].
  simpl. unfold bind.
  destruct (recalculate_member_score_effect t (f x) st) as (E1 & E2 & E3).
  destruct (recalculate_member_score t (f x) st) as [[[]|e] st1]; simpl in *;
    [|discriminate].
  destruct (IH st1) as (F1 & F2 & F3). repeat split; congruence.
Qed.

Lemma iterM_recalc_ids : forall t l st,
  fst (iterM (recalculate_member_score t) l st) = Ok tt
  /\ rows (snd (iterM (recalculate_member_score t) l st)) = rows st
  /\ members (snd (iterM (recalculate_member_score t) l st)) = members st.
Proof. intros t l st. exact (iterM_recalc_effect t (fun x => x) l st). Qed.

Lemma bulk_create_err : forall objs st e st',
  bulk_create objs st = (Err e, st') -> st' = st /\ (e = IntegrityError \/ e = DataError).
Proof.
  intros objs st e st'. unfold bulk_create, bind, get, put, ret, raise.
  destruct (negb _); [simpl; intros H; inversion H; auto|].
  destruct (_ || _); simpl; intros H; inversion H; auto.
Qed.

Lemma bulk_create_clash : forall objs st,
  forallb row_in_range objs = true ->
  has_dup same_key objs = true -> bulk_create objs st = (Err IntegrityError, st).
Proof.
  intros objs st Hr H. unfold bulk_create, bind, get, raise. simpl.
  rewrite Hr, H, orb_true_r. reflexivity.
Qed.

Lemma bulk_create_stored : forall objs st created st',
  bulk_create objs st = (Ok created, st') -> rows st' = rows st ++ map db_value created.
Proof.
  intros objs st created st'. unfold bulk_create, bind, get, put, ret, raise.
  destruct (negb _); [simpl; discriminate|].
  destruct (_ || _); simpl; [discriminate|].
  intros H; inversion H; subst; clear H. reflexivity.
Qed.

Lemma bulk_create_ok : forall objs st created st',
  bulk_create objs st = (Ok created, st') ->
  has_dup same_key objs = false
  /\ members st' = members st
  /\ map placement created = map placement objs
  /\ exists stored, rows st' = rows st ++ stored
       /\ map member stored = map member objs
       /\ map session_id stored = map session_id objs.
Proof.
  intros objs st created st'. unfold bulk_create, bind, get, put, ret, raise.
  destruct (negb _); [simpl; discriminate|].
  destruct (existsb _ objs) eqn:E1; [simpl; discriminate|].
  destruct (has_dup same_key objs) eqn:E2; [simpl; discriminate|].
  simpl. intros H; inversion H; subst; clear H.
  split; [reflexivity|]. split; [reflexivity|]. split.
  - rewrite map_map. simpl. rewrite <- (tag_snd objs) at 2. now rewrite map_map.
  - eexists. split; [reflexivity|].
    rewrite !map_map. simpl. split;
      (rewrite <- (tag_snd objs) at 2; rewrite map_map; reflexivity).
Qed.

Lemma assign_placements_member : forall l,
  map member (assign_placements l) = map member l.
Proof.
  intros l.
  replace (map member (assign_placements l)) with (map member (map strip (assign_placements l)))
    by (rewrite map_map; apply map_ext; now intros []).
  rewrite assign_placements_strip, map_map. apply map_ext; now intros [].
Qed.

Lemma assign_placements_session : forall l,
  map session_id (assign_placements l) = map session_id l.
Proof.
  intros l.
  replace (map session_id (assign_placements l))
    with (map session_id (map strip (assign_placements l)))
    by (rewrite map_map; apply map_ext; now intros []).
  rewrite assign_placements_strip, map_map. apply map_ext; now intros [].
Qed.

Lemma assign_placements_length : forall l,
  List.length (assign_placements l) = List.length l.
Proof.
  intros l. rewrite <- (length_map member), assign_placements_member.
  apply length_map.
Qed.

Lemma submit_err_state : forall sid t data st e st',
  submit_session_scores sid t data st = (Err e, st') -> st' = st.
Proof.
  intros sid t data st e st'. unfold submit_session_scores.
  destruct (negb _); [unfold raise; intros H; now inversion H|].
  unfold bind. pose proof (mapM_build_state t sid data st) as E.
  destruct (mapM (build_raw_score t sid) data st) as [[rs|e1] st1];
    simpl in E; subst st1; [|intros H; now inversion H].
  destruct (bulk_create (assign_placements rs) st) as [[created|e1] st2] eqn:Eb.
  - destruct (iterM_recalc_effect t member created st2) as (F & _ & _).
    destruct (iterM _ created st2) as [[[]|e2] st3]; simpl in F; [|discriminate].
    unfold ret. discriminate.
  - apply bulk_create_err in Eb as [-> _]. intros H; now inversion H.
Qed.

Lemma submit_ok : forall sid t data st created st',
  submit_session_scores sid t data st = (Ok created, st') ->
  exists rs stored,
    fst (mapM (build_raw_score t sid) data st) = Ok rs
    /\ List.length data = 4%nat
    /\ has_dup same_key (assign_placements rs) = false
    /\ members st' = members st
    /\ rows st' = rows st ++ stored
    /\ map member stored = map member rs
    /\ map session_id stored = map session_id rs
    /\ map placement created = map placement (assign_placements rs).
Proof.
  intros sid t data st created st'. unfold submit_session_scores.
  destruct (negb (Nat.eqb (List.length data) 4)) eqn:El;
    [unfold raise; intros H; now inversion H|].
  apply negb_false_iff, Nat.eqb_eq in El.
  unfold bind. pose proof (mapM_build_state t sid data st) as E.
  destruct (mapM (build_raw_score t sid) data st) as [[rs|e1] st1] eqn:Em;
    simpl in E; subst st1; [|intros H; now inversion H].
  destruct (bulk_create (assign_placements rs) st) as [[cr|e1] st2] eqn:Eb;
    [|intros H; now inversion H].
  destruct (iterM_recalc_effect t member cr st2) as (F1 & F2 & F3).
  destruct (iterM _ cr st2) as [[[]|e2] st3]; simpl in F1, F2, F3; [|discriminate].
  unfold ret. intros H; inversion H; subst; clear H.
  apply bulk_create_ok in Eb as (Hd & Hm & Hp & stored & Hr & Hsm & Hss).
  exists rs, stored. repeat split; auto; try congruence.
  - rewrite Hsm. apply assign_placements_member.
  - rewrite Hss. apply assign_placements_session.
Qed.

Lemma submit_rows_created : forall sid t data st created st',
  submit_session_scores sid t data st = (Ok created, st') ->
  rows st' = rows st ++ map db_value created.
Proof.
  intros sid t data st created st'. unfold submit_session_scores.
  destruct (negb (Nat.eqb (List.length data) 4));
    [unfold raise; intros H; now inversion H|].
  unfold bind. pose proof (mapM_build_state t sid data st) as E.
  destruct (mapM (build_raw_score t sid) data st) as [[rs|e1] st1];
    simpl in E; subst st1; [|intros H; now inversion H].
  destruct (bulk_create (assign_placements rs) st) as [[cr|e1] st2] eqn:Eb;
    [|intros H; now inversion H].
  destruct (iterM_recalc_effect t member cr st2) as (F1 & F2 & F3).
  destruct (iterM _ cr st2) as [[[]|e2] st3]; simpl in F1, F2, F3; [|discriminate].
  unfold ret. intros H; inversion H; subst; clear H.
  rewrite F2. exact (bulk_create_stored _ _ _ _ Eb).
Qed.

Lemma mapM_build_length : forall t sid data st rs,
  fst (mapM (build_raw_score t sid) data st) = Ok rs -> List.length rs = List.length data.
Proof.
  intros t sid data st rs H. apply mapM_build_ok in H.
  symmetry. eapply Forall2_length; eauto.
Qed.

(** The batch submit_session_scores hands to bulk_create fits the columns. *)
Lemma mapM_build_placed_in_range : forall t sid data st rs,
  fst (mapM (build_raw_score t sid) data st) = Ok rs -> List.length data = 4%nat ->
  forallb row_in_range (assign_placements rs) = true.
Proof.
  intros t sid data st rs H Hl. apply assign_placements_in_range.
  - rewrite (mapM_build_length _ _ _ _ _ H). exact Hl.
  - apply forallb_forall. intros r Hr.
    apply mapM_build_fields in H. rewrite Forall_forall in H. now apply H.
Qed.

(** ** C6: the placements submit assigns sum to 10.
    Amended claim: for every score_data accepted by submit_session_scores,
    the four placements it assigns to the rows it creates and returns (plain
    ranks or averaged tie placements) sum to exactly 10, whatever the ties. *)
Theorem submit_placements_sum_10 : forall sid t data st created st',
  submit_session_scores sid t data st = (Ok created, st') ->
  Qsum (map placement_value created) == 10.
Proof.
  intros sid t data st created st' H.
  destruct (submit_ok _ _ _ _ _ _ H) as (rs & stored & Hm & Hl & _ & _ & _ & _ & _ & Hp).
  replace (map placement_value created)
    with (map placement_value (assign_placements rs)).
  - apply assign_placements_sum_10. rewrite (mapM_build_length _ _ _ _ _ Hm). exact Hl.
  - unfold placement_value.
    rewrite <- (map_map placement (fun o => match o with Some q => q | None => 0%Q end)).
    rewrite <- (map_map placement (fun o => match o with Some q => q | None => 0%Q end) created).
    now rewrite Hp.
Qed.

Lemma submit_placements_sum_10_witness :
  Qsum (map placement_value
          (match fst (submit_session_scores "s1" team1 tie_entries db_empty) with
           | Ok c => c | Err _ => [] end)) == 10.
Proof.
  apply (submit_placements_sum_10 "s1" team1 tie_entries db_empty _ db_tie).
  vm_compute. reflexivity.
Defined.

(** C6, as stated, fails for stored sessions: a complete session entered
    row by row through RawScore.save holds no placement at all, so its
    placements do not sum to 10. *)
Lemma stored_placements_not_10 :
  List.length (session_rows db_saved 1 "s2") = 4%nat
  /\ map placement (session_rows db_saved 1 "s2") = [None; None; None; None]
  /\ ~ (Qsum (map placement_value (session_rows db_saved 1 "s2")) == 10).
Proof.
  vm_compute. repeat split; closed_eq.
Qed.

(* ------------------------------------------------------------------ *)
(** ** Checks that only look at member and session_id *)

Lemma existsb_map_comp : forall {A B} (f : A -> B) g l,
  existsb g (map f l) = existsb (fun x => g (f x)) l.
Proof. intros A B f g l; induction l as [|x xs IH]; simpl; congruence. Qed.

Lemma existsb_ext_eq : forall {A} (g h : A -> bool) l,
  (forall x, g x = h x) -> existsb g l = existsb h l.
Proof. intros A g h l H; induction l as [|x xs IH]; simpl; congruence. Qed.

Lemma existsb_strip : forall g l, (forall r, g r = g (strip r)) ->
  existsb g (assign_placements l) = existsb g l.
Proof.
  intros g l Hg.
  assert (E : forall l', existsb g l' = existsb g (map strip l')).
  { intros l'. rewrite existsb_map_comp. now apply existsb_ext_eq. }
  now rewrite E, assign_placements_strip, <- E.
Qed.

Lemma has_dup_strip_map : forall l,
  has_dup same_key l = has_dup same_key (map strip l).
Proof.
  induction l as [|x xs IH]; simpl; [easy|].
  rewrite IH, existsb_map_comp. reflexivity.
Qed.

Lemma has_dup_assign : forall l,
  has_dup same_key (assign_placements l) = has_dup same_key l.
Proof.
  intros l. now rewrite has_dup_strip_map, assign_placements_strip, <- has_dup_strip_map.
Qed.

Lemma existsb_dup_rel : forall sid d r ds rs,
  e_member_id d = Some (member r) -> session_id r = sid ->
  Forall2 (fun d r => e_member_id d = Some (member r) /\ session_id r = sid) ds rs ->
  existsb (fun b => match e_member_id d, e_member_id b with
                    | Some x, Some y => Nat.eqb x y | _, _ => false end) ds
  = existsb (same_key r) rs.
Proof.
  intros sid d r ds rs Hd Hs F; induction F as [|d' r' ds' rs' [Hd' Hs'] F IH];
    simpl; [easy|].
  rewrite IH, Hd, Hd'. unfold same_key. rewrite Hs, Hs', String.eqb_refl.
  now rewrite andb_true_r.
Qed.

Lemma dup_member_ids_rel : forall sid data rs,
  Forall2 (fun d r => e_member_id d = Some (member r) /\ session_id r = sid) data rs ->
  has_dup same_key rs = dup_member_ids data.
Proof.
  intros sid data rs F; unfold dup_member_ids.
  induction F as [|d r ds rs [Hd Hs] F IH]; simpl; [easy|].
  now rewrite IH, (existsb_dup_rel sid d r ds rs).
Qed.

Lemma mapM_build_rel : forall t sid data st rs,
  fst (mapM (build_raw_score t sid) data st) = Ok rs ->
  Forall2 (fun d r => e_member_id d = Some (member r) /\ session_id r = sid) data rs.
Proof.
  intros t sid data st rs H. apply mapM_build_ok in H.
  induction H as [|d r ds rs' (H1 & H2 & _) F IH]; constructor; auto.
Qed.

(** ** C9: a duplicated member is rejected by the database.
    Amended claim: submit_session_scores with two entries of the same
    member_id raises an error and leaves the whole state unchanged (no row is
    written); when the entries pass the per-entry validation (for instance
    in a session where none of these members has a row yet), the error is the
    IntegrityError of the unique (member, session_id) constraint raised by
    bulk_create, not a ValidationError. *)
Theorem submit_duplicate_member : forall sid t data st,
  dup_member_ids data = true ->
  (exists e, fst (submit_session_scores sid t data st) = Err e)
  /\ snd (submit_session_scores sid t data st) = st
  /\ (List.length data = 4%nat ->
      forall rs, fst (mapM (build_raw_score t sid) data st) = Ok rs ->
      fst (submit_session_scores sid t data st) = Err IntegrityError).
Proof.
  intros sid t data st Hdup.
  assert (Herr : exists e, fst (submit_session_scores sid t data st) = Err e).
  { destruct (submit_session_scores sid t data st) as [[created|e] st'] eqn:E;
      [|now exists e].
    exfalso. destruct (submit_ok _ _ _ _ _ _ E) as (rs & _ & Hm & _ & Hd & _).
    rewrite has_dup_assign, (dup_member_ids_rel sid data rs) in Hd;
      [congruence|]. eapply mapM_build_rel; eauto. }
  split; [exact Herr|]. split.
  - destruct Herr as [e He].
    destruct (submit_session_scores sid t data st) as [r st'] eqn:E; simpl in He |- *.
    subst r. eapply submit_err_state; eauto.
  - intros Hl rs Hm. pose proof (mapM_build_rel _ _ _ _ _ Hm) as Hrel.
    pose proof (mapM_build_placed_in_range _ _ _ _ _ Hm Hl) as Hrange.
    unfold submit_session_scores.
    rewrite Hl. simpl. unfold bind.
    pose proof (mapM_build_state t sid data st) as Es.
    destruct (mapM (build_raw_score t sid) data st) as [r st1]; simpl in Hm, Es.
    subst r st1.
    rewrite bulk_create_clash; [reflexivity|exact Hrange|].
    rewrite has_dup_assign. erewrite dup_member_ids_rel; [exact Hdup | exact Hrel].
Qed.

Lemma submit_duplicate_member_witness :
  snd (submit_session_scores "s3" team1
         [entry 1 30000 0; entry 1 20000 0; entry 3 20000 0; entry 4 10000 0] db_empty)
  = db_empty.
Proof.
  refine (proj1 (proj2 (submit_duplicate_member "s3" team1
            [entry 1 30000 0; entry 1 20000 0; entry 3 20000 0; entry 4 10000 0]
            db_empty _))).
  vm_compute. reflexivity.
Defined.

(** C9, as stated, fails: member 1 twice in an empty session gives the
    database's IntegrityError, not a ValidationError. *)
Lemma duplicate_member_not_validation_error :
  fst (submit_session_scores "s3" team1
         [entry 1 30000 0; entry 1 20000 0; entry 3 20000 0; entry 4 10000 0] db_empty)
  = Err IntegrityError
  /\ forall msg,
     fst (submit_session_scores "s3" team1
            [entry 1 30000 0; entry 1 20000 0; entry 3 20000 0; entry 4 10000 0] db_empty)
     <> Err (ValidationError msg).
Proof.
  split; [vm_compute; reflexivity|].
  intros msg. vm_compute. discriminate.
Qed.

(* ------------------------------------------------------------------ *)
(** ** update_session_scores *)

Lemma filter_neg_nil : forall {A} (p : A -> bool) l,
  filter p (filter (fun x => negb (p x)) l) = [].
Proof.
  intros A p l; induction l as [|x xs IH]; simpl; [easy|].
  destruct (p x) eqn:E; simpl; [exact IH|]. now rewrite E.
Qed.

Lemma filter_negb_all : forall {A} (p : A -> bool) l,
  filter p l = [] -> filter (fun x => negb (p x)) l = l.
Proof.
  intros A p l; induction l as [|x xs IH]; simpl; [easy|].
  destruct (p x); simpl; [discriminate|]. intros H; now rewrite IH.
Qed.

Lemma filter_all : forall {A} (p : A -> bool) l,
  (forall x, In x l -> p x = true) -> filter p l = l.
Proof.
  intros A p l; induction l as [|x xs IH]; intros H; simpl; [easy|].
  rewrite H by now left. f_equal. apply IH. intros y Hy. apply H. now right.
Qed.

Lemma filter_neg_and : forall {A} (p q : A -> bool) l,
  filter (fun x => negb (p x)) (filter (fun x => negb (p x && q x)) l)
  = filter (fun x => negb (p x)) l.
Proof.
  intros A p q l; induction l as [|x xs IH]; simpl; [easy|].
  destruct (p x) eqn:E; simpl.
  - destruct (q x); simpl; [exact IH|]. rewrite E. exact IH.
  - rewrite E. simpl. now rewrite IH.
Qed.

Lemma in_team_ext : forall a b, members a = members b -> in_team a = in_team b.
Proof. intros a b E. unfold in_team, row_team. now rewrite E. Qed.

Lemma session_rows_ext : forall a b,
  members a = members b -> rows a = rows b -> session_rows a = session_rows b.
Proof.
  intros a b E1 E2. unfold session_rows. rewrite (in_team_ext a b E1), E2. reflexivity.
Qed.

Lemma member_get_in_team : forall st mid tid m r,
  member_get st mid tid = Some m -> member r = mid -> in_team st tid r = true.
Proof.
  intros st mid tid m r. unfold member_get, in_team, row_team. intros H <-.
  destruct (find _ _) as [m'|]; [|discriminate].
  destruct (Nat.eqb (m_team m') tid) eqn:E; [easy|discriminate].
Qed.

Lemma nodup_members : forall sid l,
  has_dup same_key l = false -> (forall r, In r l -> session_id r = sid) ->
  NoDup (map member l).
Proof.
  intros sid l; induction l as [|x xs IH]; intros Hd Hs; simpl; [constructor|].
  simpl in Hd. apply orb_false_iff in Hd as [Hx Hd].
  constructor.
  - intros Hin. apply in_map_iff in Hin as (y & Ey & Hy).
    assert (same_key x y = true).
    { unfold same_key. rewrite Ey, Nat.eqb_refl.
      rewrite (Hs x), (Hs y) by (simpl; auto). apply String.eqb_refl. }
    assert (existsb (same_key x) xs = true) by (apply existsb_exists; eauto).
    congruence.
  - apply IH; [exact Hd|]. intros r Hr. apply Hs. now right.
Qed.

(** ** C3: a failed update has already deleted the session.
    Amended claim: update_session_scores uses no transaction; it deletes the
    team's rows of the session before submit_session_scores validates the
    new entries, so when it raises, the session has no row left for the
    team, every other row is unchanged and no new row was written (the
    session is left empty, never partial). *)
Theorem update_error_empties_session : forall sid t data st e st',
  update_session_scores sid t data st = (Err e, st') ->
  members st' = members st
  /\ rows st' = filter (fun r => negb (in_team st (team_pk t) r
                                       && String.eqb (session_id r) sid)) (rows st)
  /\ session_rows st' (team_pk t) sid = [].
Proof.
  intros sid t data st e st'.
  cbv beta iota zeta delta [update_session_scores bind get put ret].
  set (kept := filter _ (rows st)).
  destruct (submit_session_scores sid t data (set_rows st kept)) as [[ns|e1] st2] eqn:E.
  - destruct (iterM_recalc_ids t
                (dedup_nat (dedup_nat (map member (session_rows st (team_pk t) sid))
                            ++ map member ns)) st2) as (F & _ & _).
    destruct (iterM _ _ st2) as [[[]|e2] st3]; simpl in F |- *;
      [intros H; discriminate H | discriminate F].
  - intros H; inversion H; subst; clear H.
    apply submit_err_state in E. subst st'.
    split; [reflexivity|]. split; [reflexivity|].
    unfold session_rows. simpl. unfold kept. apply filter_neg_nil.
Qed.

Lemma update_error_empties_session_witness :
  session_rows (snd (update_session_scores "s1" team1
                       [entry 1 30000 0; entry 2 30000 0; entry 3 20000 0] db_tie))
               (team_pk team1) "s1" = [].
Proof.
  refine (proj2 (proj2 (update_error_empties_session "s1" team1
            [entry 1 30000 0; entry 2 30000 0; entry 3 20000 0] db_tie
            (ValidationError "Expected 4 scores") _ _))).
  vm_compute. reflexivity.
Defined.

(** C3, as stated, fails: updating the complete session "s1" with three
    entries raises a ValidationError after its 4 rows were deleted. *)
Lemma failed_update_loses_rows :
  List.length (session_rows db_tie 1 "s1") = 4%nat
  /\ fst (update_session_scores "s1" team1
            [entry 1 30000 0; entry 2 30000 0; entry 3 20000 0] db_tie)
     = Err (ValidationError "Expected 4 scores")
  /\ session_rows (snd (update_session_scores "s1" team1
            [entry 1 30000 0; entry 2 30000 0; entry 3 20000 0] db_tie)) 1 "s1" = [].
Proof.
  vm_compute. repeat split; reflexivity.
Qed.

Lemma Forall2_in_r : forall {A B} (P : A -> B -> Prop) l1 l2 y,
  Forall2 P l1 l2 -> In y l2 -> exists x, In x l1 /\ P x y.
Proof.
  intros A B P l1 l2 y F; induction F as [|x y' xs ys Hxy F IH]; intros Hy; [easy|].
  destruct Hy as [<-|Hy].
  - exists x. split; [now left | exact Hxy].
  - destruct (IH Hy) as (x' & Hx' & Hp). exists x'. split; [now right | exact Hp].
Qed.

Lemma filter_neg_none : forall {A} (p : A -> bool) l,
  (forall x, In x l -> p x = true) -> filter (fun x => negb (p x)) l = [].
Proof.
  intros A p l; induction l as [|x xs IH]; intros H; simpl; [easy|].
  rewrite H by now left. simpl. apply IH. intros y Hy. apply H. now right.
Qed.

(** ** C8: a successful update leaves exactly the 4 new rows.
    After update_session_scores succeeds, the session has exactly 4 rows for
    the team, for 4 distinct members; they are the objects it created, as
    stored, and no row of the team from before is left in the session. The
    rows not belonging to the team (in particular other teams' rows with the
    same session_id) are exactly those before the update. *)
Theorem update_leaves_four_rows : forall sid t data st created st',
  update_session_scores sid t data st = (Ok created, st') ->
  List.length (session_rows st' (team_pk t) sid) = 4%nat
  /\ NoDup (map member (session_rows st' (team_pk t) sid))
  /\ session_rows st' (team_pk t) sid = map db_value created
  /\ filter (fun r => negb (in_team st (team_pk t) r)) (rows st')
     = filter (fun r => negb (in_team st (team_pk t) r)) (rows st).
Proof.
  intros sid t data st created st'.
  cbv beta iota zeta delta [update_session_scores bind get put ret].
  set (kept := filter _ (rows st)).
  destruct (submit_session_scores sid t data (set_rows st kept)) as [[ns|e1] st2] eqn:E;
    [|intros H; discriminate H].
  destruct (iterM_recalc_ids t
              (dedup_nat (dedup_nat (map member (session_rows st (team_pk t) sid))
                          ++ map member ns)) st2) as (F1 & F2 & F3).
  destruct (iterM _ _ st2) as [[[]|e2] st3]; simpl in F1, F2, F3 |- *; [|discriminate F1].
  intros H; injection H as Hc Hs; subst created st'.
  destruct (submit_ok _ _ _ _ _ _ E)
    as (rs & stored & Hm & Hl & Hd & Hmem & Hrows & Hsm & Hss & _).
  simpl in Hmem.
  pose proof (mapM_build_ok _ _ _ _ _ Hm) as HF.
  assert (Hlen : List.length rs = 4%nat)
    by (rewrite (mapM_build_length _ _ _ _ _ Hm); exact Hl).
  assert (Hsid : forall r, In r rs -> session_id r = sid).
  { intros r Hr. destruct (Forall2_in_r _ _ _ _ HF Hr) as (d & _ & _ & Hs & _). exact Hs. }
  assert (Hst : forall x, In x stored ->
            in_team st (team_pk t) x = true /\ String.eqb (session_id x) sid = true).
  { intros x Hx.
    assert (Hxm : In (member x) (map member rs)) by (rewrite <- Hsm; now apply in_map).
    assert (Hxs : In (session_id x) (map session_id rs))
      by (rewrite <- Hss; now apply in_map).
    apply in_map_iff in Hxm as (r & Er & Hr).
    apply in_map_iff in Hxs as (r' & Er' & Hr').
    destruct (Forall2_in_r _ _ _ _ HF Hr) as (d & _ & _ & _ & _ & [m Hmg] & _).
    split.
    - exact (member_get_in_team (set_rows st kept) _ _ m x Hmg (eq_sym Er)).
    - rewrite <- Er', (Hsid r' Hr'). apply String.eqb_refl. }
  assert (Hsr : session_rows st3 (team_pk t) sid = stored).
  { unfold session_rows. rewrite (in_team_ext st3 st) by congruence.
    rewrite F2, Hrows, filter_app.
    replace (filter _ kept) with (@nil RawScore) by (symmetry; unfold kept; apply filter_neg_nil).
    apply filter_all. intros x Hx. apply andb_true_iff. now apply Hst. }
  assert (Hstored : stored = map db_value ns).
  { pose proof (submit_rows_created _ _ _ _ _ _ E) as Hc. rewrite Hrows in Hc.
    exact (app_inv_head _ _ _ Hc). }
  rewrite Hsr. split; [|split; [|split]].
  - rewrite <- (length_map member), Hsm, length_map. exact Hlen.
  - rewrite Hsm. apply (nodup_members sid); [|exact Hsid].
    now rewrite <- has_dup_assign.
  - exact Hstored.
  - rewrite F2, Hrows, filter_app.
    rewrite (filter_neg_none (in_team st (team_pk t)) stored)
      by (intros x Hx; now apply Hst).
    rewrite app_nil_r. unfold kept. apply filter_neg_and.
Qed.

Lemma update_leaves_four_rows_witness :
  List.length (session_rows (snd (update_session_scores "s1" team1 other_entries db_tie))
                            (team_pk team1) "s1") = 4%nat.
Proof.
  refine (proj1 (update_leaves_four_rows "s1" team1 other_entries db_tie
            (match fst (update_session_scores "s1" team1 other_entries db_tie) with
             | Ok c => c | Err _ => [] end) _ _)).
  vm_compute. reflexivity.
Defined.

(** ** C10: get_session_details returns None exactly when the
    team's session does not have exactly 4 rows. This covers over-full
    sessions: a second submit into the complete session "s1" succeeds,
    leaving 8 rows, and the details of "s1" are then None. *)
Theorem session_details_none_iff_not_four :
  (forall st sid t,
     get_session_details st sid t = None
     <-> List.length (session_rows st (team_pk t) sid) <> 4%nat)
  /\ (exists created, fst (submit_session_scores "s1" team1 other_entries db_tie) = Ok created)
  /\ List.length (session_rows db_over (team_pk team1) "s1") = 8%nat
  /\ get_session_details db_over "s1" team1 = None.
Proof.
  split; [|split; [|split]].
  - intros st sid t. unfold get_session_details.
    destruct (Nat.eqb_spec (List.length (session_rows st (team_pk t) sid)) 4) as [E|E];
      simpl; split; intros H; try discriminate H; try reflexivity; tauto.
  - eexists. vm_compute. reflexivity.
  - vm_compute. reflexivity.
  - vm_compute. reflexivity.
Qed.

Lemma build_raw_score_success : forall t sid d st,
  String.eqb sid "" = false ->
  (String.length sid <=? 100)%nat = true -> entry_ok st t sid d = true ->
  exists r, fst (build_raw_score t sid d st) = Ok r.
Proof.
  intros t sid [[mid|] [s|] c] st Hb Hl He; unfold entry_ok in He; simpl in He;
    try discriminate He.
  apply andb_true_iff in He as [He0 He]. apply andb_true_iff in He0 as [Hs Hc].
  unfold build_raw_score, bind, get. simpl.
  destruct (member_get st mid (team_pk t)) as [m|] eqn:Em; [|discriminate He].
  destruct (member_get_pk _ _ _ _ Em) as [Hpk _].
  unfold full_clean, bind, get, ret, raise. simpl.
  rewrite Hs, Hc, Hb. simpl.
  replace (100 <? String.length sid)%nat with false
    by (symmetry; apply Nat.ltb_ge; apply Nat.leb_le in Hl; lia).
  rewrite Hpk. apply negb_true_iff in He. rewrite He. eexists; reflexivity.
Qed.

Lemma mapM_build_success : forall t sid data st,
  String.eqb sid "" = false ->
  (String.length sid <=? 100)%nat = true -> forallb (entry_ok st t sid) data = true ->
  exists rs, fst (mapM (build_raw_score t sid) data st) = Ok rs.
Proof.
  intros t sid data st Hb Hl; induction data as [|d ds IH]; intros Hf.
  - eexists; reflexivity.
  - simpl in Hf. apply andb_true_iff in Hf as [Hd Hds].
    simpl. unfold bind.
    destruct (build_raw_score_success t sid d st Hb Hl Hd) as [r Er].
    pose proof (build_raw_score_state t sid d st) as Es.
    destruct (build_raw_score t sid d st) as [[r'|e] st1]; simpl in Er, Es;
      [|discriminate Er]. subst st1.
    destruct (IH Hds) as [rs Ers].
    destruct (mapM (build_raw_score t sid) ds st) as [[rs'|e] st2]; simpl in Ers;
      [|discriminate Ers].
    eexists; reflexivity.
Qed.

Lemma no_stored_clash : forall t sid data st rs,
  fst (mapM (build_raw_score t sid) data st) = Ok rs ->
  existsb (fun r => existsb (same_key r) (rows st)) (assign_placements rs) = false.
Proof.
  intros t sid data st rs H.
  rewrite existsb_strip by (intros []; reflexivity).
  apply mapM_build_ok in H.
  induction H as [|d r ds rs' (_ & _ & _ & _ & Hx) F IH]; [reflexivity|].
  simpl. rewrite IH, orb_false_r.
  rewrite <- Hx. apply existsb_ext_eq. intros x. unfold same_key.
  now rewrite Nat.eqb_sym, String.eqb_sym.
Qed.

(** ** C4: the core operations do not check the session's
    state. (A) On a session with no rows for the team, update_session_scores
    behaves as submit_session_scores (same result, same rows): it does not
    raise for an absent session. (B) submit_session_scores succeeds as soon
    as the session_id is non-empty with at most 100 characters, there are 4
    entries, each names a member of the team with no stored row in that
    session and has a score and chombo within the IntegerField range, and no
    two entries name the same member: none of these conditions depends on
    how many rows the session already has for other members. *)
Theorem session_state_not_checked_by_core :
  (forall sid t data st,
     session_rows st (team_pk t) sid = [] ->
     fst (update_session_scores sid t data st) = fst (submit_session_scores sid t data st)
     /\ rows (snd (update_session_scores sid t data st))
        = rows (snd (submit_session_scores sid t data st)))
  /\ (forall sid t data st,
     String.eqb sid "" = false ->
     (String.length sid <=? 100)%nat = true ->
     List.length data = 4%nat ->
     forallb (entry_ok st t sid) data = true ->
     dup_member_ids data = false ->
     exists created, fst (submit_session_scores sid t data st) = Ok created).
Proof.
  split.
  - intros sid t data st Hnil.
    assert (Hk : set_rows st (filter (fun r => negb (in_team st (team_pk t) r
                                       && String.eqb (session_id r) sid)) (rows st)) = st).
    { unfold session_rows in Hnil.
      rewrite (filter_negb_all (fun r => in_team st (team_pk t) r
                                         && String.eqb (session_id r) sid) _ Hnil).
      destruct st; reflexivity. }
    cbv beta iota zeta delta [update_session_scores bind get put ret].
    rewrite Hk.
    destruct (submit_session_scores sid t data st) as [[ns|e1] st2]; [|split; reflexivity].
    destruct (iterM_recalc_ids t
                (dedup_nat (dedup_nat (map member (session_rows st (team_pk t) sid))
                            ++ map member ns)) st2) as (F1 & F2 & _).
    destruct (iterM _ _ st2) as [[[]|e2] st3]; simpl in F1, F2 |- *; [|discriminate F1].
    split; [reflexivity | exact F2].
  - intros sid t data st Hb Hl H4 Hf Hd.
    destruct (mapM_build_success t sid data st Hb Hl Hf) as [rs Hm].
    pose proof (mapM_build_state t sid data st) as Es.
    unfold submit_session_scores. rewrite H4. simpl. unfold bind.
    destruct (mapM (build_raw_score t sid) data st) as [[rs'|e] st1] eqn:Em;
      simpl in Hm, Es; [|discriminate Hm].
    injection Hm as Hrs. subst rs' st1.
    assert (Hm' : fst (mapM (build_raw_score t sid) data st) = Ok rs) by now rewrite Em.
    assert (Hdup : has_dup same_key (assign_placements rs) = false).
    { rewrite has_dup_assign. erewrite dup_member_ids_rel; [exact Hd|].
      exact (mapM_build_rel _ _ _ _ _ Hm'). }
    unfold bulk_create, bind, get, put, ret.
    rewrite (mapM_build_placed_in_range _ _ _ _ _ Hm' H4).
    rewrite (no_stored_clash t sid data st rs Hm'), Hdup. simpl.
    match goal with
    | |- context [iterM ?f ?l ?s] =>
        destruct (iterM_recalc_effect t member l s) as (F & _ & _);
        destruct (iterM f l s) as [[[]|e2] st3]
    end; simpl in F |- *; [|discriminate F].
    eexists; reflexivity.
Qed.

Lemma session_state_not_checked_by_core_witness :
  exists created, fst (submit_session_scores "s1" team1 other_entries db_tie) = Ok created.
Proof.
  apply (proj2 session_state_not_checked_by_core); vm_compute; reflexivity.
Defined.

(** C4, as stated, fails: a second submit into the complete session "s1"
    succeeds and leaves 8 rows, and an update of a session with no rows
    succeeds. *)
Lemma core_accepts_wrong_session_state :
  (exists created, fst (submit_session_scores "s1" team1 other_entries db_tie) = Ok created)
  /\ List.length (session_rows db_tie 1 "s1") = 4%nat
  /\ List.length (session_rows db_over 1 "s1") = 8%nat
  /\ session_rows db_empty 1 "s9" = []
  /\ (exists created, fst (update_session_scores "s9" team1 tie_entries db_empty) = Ok created).
Proof.
  split; [eexists; vm_compute; reflexivity|].
  split; [vm_compute; reflexivity|].
  split; [vm_compute; reflexivity|].
  split; [reflexivity|].
  eexists; vm_compute; reflexivity.
Qed.

Lemma assoc_get_set_neq : forall {V} k k' (v : V) l,
  k <> k' -> assoc_get Nat.eqb k (assoc_set Nat.eqb k' v l) = assoc_get Nat.eqb k l.
Proof.
  intros V k k' v l Hne; induction l as [|[k0 v0] l IH]; simpl.
  - destruct (Nat.eqb_spec k k'); [contradiction | reflexivity].
  - destruct (Nat.eqb_spec k' k0) as [<-|Hk0]; simpl.
    + destruct (Nat.eqb_spec k k'); [contradiction | reflexivity].
    + destruct (Nat.eqb k k0); [reflexivity | exact IH].
Qed.

Lemma monthly_step_none : forall t ss ms r k,
  member r <> k -> assoc_get Nat.eqb k ms = None ->
  assoc_get Nat.eqb k (monthly_step t ss ms r) = None.
Proof.
  intros t ss ms r k Hne Hn. unfold monthly_step. cbv zeta.
  rewrite assoc_get_set_neq by congruence.
  destruct (assoc_get Nat.eqb (member r) ms); [exact Hn|].
  rewrite assoc_get_set_neq by congruence. exact Hn.
Qed.

Lemma fold_monthly_step_none : forall t ss l ms k,
  (forall r, In r l -> member r <> k) -> assoc_get Nat.eqb k ms = None ->
  assoc_get Nat.eqb k (fold_left (monthly_step t ss) l ms) = None.
Proof.
  intros t ss l; induction l as [|r l IH]; intros ms k Hl Hn; simpl; [exact Hn|].
  apply IH; [intros r' Hr'; apply Hl; now right|].
  apply monthly_step_none; [apply Hl; now left | exact Hn].
Qed.

Lemma fold_monthly_session_none : forall t sessions ms k,
  (forall sess, In sess sessions -> Nat.eqb (List.length (snd sess)) 4 = true ->
     forall r, In r (snd sess) -> member r <> k) ->
  assoc_get Nat.eqb k ms = None ->
  assoc_get Nat.eqb k (fold_left (monthly_session t) sessions ms) = None.
Proof.
  intros t sessions; induction sessions as [|sess l IH]; intros ms k Hs Hn; simpl;
    [exact Hn|].
  apply IH; [intros s' Hs'; apply Hs; now right|].
  unfold monthly_session.
  destruct (Nat.eqb (List.length (snd sess)) 4) eqn:E4; simpl; [|exact Hn].
  apply fold_monthly_step_none; [|exact Hn].
  apply (Hs sess); [now left | exact E4].
Qed.

Lemma no_qualifying_not_scored : forall t sessions m,
  filter (fun sess => Nat.eqb (List.length (snd sess)) 4
                      && existsb (fun r => Nat.eqb (member r) (member_pk m)) (snd sess))
         sessions = [] ->
  assoc_get Nat.eqb (member_pk m) (fold_left (monthly_session t) sessions []) = None.
Proof.
  intros t sessions m Hq. apply fold_monthly_session_none; [|reflexivity].
  intros sess Hin E4 r Hr Heq.
  assert (Hp : In sess (filter (fun sess => Nat.eqb (List.length (snd sess)) 4
                 && existsb (fun r => Nat.eqb (member r) (member_pk m)) (snd sess))
                 sessions)).
  { apply filter_In. split; [exact Hin|]. rewrite E4. simpl.
    apply existsb_exists. exists r. split; [exact Hr|]. now apply Nat.eqb_eq. }
  rewrite Hq in Hp. exact Hp.
Qed.

Lemma attach_member : forall ms m, st_member (attach ms m) = m.
Proof. intros ms m. unfold attach. now destruct (assoc_get _ _ _). Qed.

Lemma map_st_member_perm : forall (f : Member -> Standing) l,
  (forall m, st_member (f m) = m) ->
  Permutation (map st_member (sorted_desc monthly_total (map f l))) l.
Proof.
  intros f l Hf.
  rewrite (Permutation_map st_member (sorted_desc_perm monthly_total (map f l))).
  rewrite map_map. rewrite (map_ext _ (fun m => m) Hf), map_id. reflexivity.
Qed.

(** ** C7: the monthly standings are sorted by monthly_total
    only. The result is a permutation of the team's members sorted by
    monthly_total descending; every member with no qualifying (complete,
    in-month) session has monthly_total, monthly_games and monthly_average
    zero, and, when the month has rows for the team, the other six
    statistics zero as well. Such members are not sorted after the other
    members: a member with a negative total comes after them. The sort is
    stable: the standings of one monthly_total come in the order of
    team.members.all() (by name). *)
Theorem monthly_standings_sorted_by_total : forall st t month year,
  Sorted (desc monthly_total) (get_team_standings_by_month st t month year)
  /\ Permutation (map st_member (get_team_standings_by_month st t month year))
                 (team_members st (team_pk t))
  /\ (forall s, In s (get_team_standings_by_month st t month year) ->
        qualifying_sessions st t month year (st_member s) = [] ->
        monthly_total s = 0%Q /\ monthly_games s = 0%nat /\ monthly_average s = 0%Q
        /\ (monthly_raw_scores st t month year <> [] ->
            monthly_avg_placement s = Some 0%Q /\ monthly_chombo_count s = Some 0
            /\ monthly_first_place s = Some 0%nat /\ monthly_second_place s = Some 0%nat
            /\ monthly_third_place s = Some 0%nat /\ monthly_fourth_place s = Some 0%nat))
  /\ (exists f : Member -> Standing, (forall m, st_member (f m) = m)
      /\ forall q,
          filter (fun s => Qeq_bool (monthly_total s) q) (get_team_standings_by_month st t month year)
          = map f (filter (fun m => Qeq_bool (monthly_total (f m)) q) (team_members st (team_pk t)))).
Proof.
  intros st t month year. unfold get_team_standings_by_month, qualifying_sessions.
  destruct (monthly_raw_scores st t month year) as [|r0 rs0] eqn:E.
  - split; [apply sorted_desc_sorted|]. split; [apply map_st_member_perm; reflexivity|].
    split.
    + intros s Hs _.
      apply (Permutation_in _ (sorted_desc_perm monthly_total _)) in Hs.
      apply in_map_iff in Hs as (m & <- & _). simpl.
      split; [reflexivity|]. split; [reflexivity|]. split; [reflexivity|].
      intros H; contradiction.
    + exists (fun m => mkStanding m 0%Q 0 0%Q None None None None None None).
      split; [intros m; reflexivity|].
      intros q. rewrite sorted_desc_stable. apply filter_map_comm.
  - split; [apply sorted_desc_sorted|]. split; [apply map_st_member_perm, attach_member|].
    split.
    + intros s Hs Hq.
      apply (Permutation_in _ (sorted_desc_perm monthly_total _)) in Hs.
      apply in_map_iff in Hs as (m & <- & _).
      rewrite attach_member in Hq.
      unfold attach. rewrite (no_qualifying_not_scored t _ m Hq). simpl.
      repeat split; reflexivity.
    + eexists. split; [apply attach_member|].
      intros q. rewrite sorted_desc_stable. apply filter_map_comm.
Qed.

Lemma monthly_standings_sorted_by_total_witness :
  monthly_total (nth 2 (get_team_standings_by_month db_month team1 10 2026)
                       (mkStanding member_A 1 0 0 None None None None None None)) = 0%Q.
Proof.
  refine (proj1 (proj1 (proj2 (proj2 (monthly_standings_sorted_by_total db_month team1 10 2026)))
            _ _ _)).
  - vm_compute. right. right. left. reflexivity.
  - vm_compute. reflexivity.
Defined.

(** C7, as stated, fails: in the month of "m1" (A 40000, B 30000, C 20000,
    D 10000), the members E to H with no session come between B and C, whose
    totals are negative; in a month without rows the six other statistics
    are never set. *)
Lemma zero_session_members_not_last :
  map (fun s => member_pk (st_member s)) (get_team_standings_by_month db_month team1 10 2026)
    = [1; 2; 5; 6; 7; 8; 3; 4]%nat
  /\ qualifying_sessions db_month team1 10 2026 member_E = []
  /\ (monthly_total (nth 6 (get_team_standings_by_month db_month team1 10 2026)
                       (mkStanding member_A 0 0 0 None None None None None None)) < 0)%Q
  /\ map monthly_avg_placement (get_team_standings_by_month db_empty team1 10 2026)
     = repeat None 8.
Proof.
  split; [vm_compute; reflexivity|].
  split; [vm_compute; reflexivity|].
  split; [vm_compute; reflexivity|].
  vm_compute; reflexivity.
Qed.

(* ------------------------------------------------------------------ *)
(** ** The (member, session_id) key *)

Lemma same_key_rkey : forall a b, same_key a b = true <-> rkey a = rkey b.
Proof.
  intros a b. unfold same_key, rkey. rewrite andb_true_iff, Nat.eqb_eq, String.eqb_eq.
  split; [intros [-> ->]; reflexivity | intros H; inversion H; auto].
Qed.

Lemma existsb_same_key_notin : forall r l,
  existsb (same_key r) l = false <-> ~ In (rkey r) (map rkey l).
Proof.
  intros r l. split.
  - intros He Hin. apply in_map_iff in Hin as (y & Ey & Hy).
    assert (Hs : same_key r y = true) by (apply same_key_rkey; congruence).
    assert (Ht : existsb (same_key r) l = true) by (apply existsb_exists; eauto).
    congruence.
  - intros Hn. destruct (existsb (same_key r) l) eqn:E; [|reflexivity].
    apply existsb_exists in E as (y & Hy & Hs). apply same_key_rkey in Hs.
    exfalso. apply Hn. rewrite Hs. now apply in_map.
Qed.

Lemma has_dup_nodup : forall l, has_dup same_key l = false <-> NoDup (map rkey l).
Proof.
  induction l as [|x xs IH]; simpl.
  - split; [constructor | reflexivity].
  - rewrite orb_false_iff, IH, existsb_same_key_notin. split.
    + intros [Hn Hd]. now constructor.
    + intros Hn. inversion Hn; subst. now split.
Qed.

Lemma map_rkey : forall l, map rkey l = combine (map member l) (map session_id l).
Proof. induction l as [|x xs IH]; simpl; [reflexivity | now rewrite IH]. Qed.

Lemma NoDup_map_filter : forall {A B} (f : A -> B) p l,
  NoDup (map f l) -> NoDup (map f (filter p l)).
Proof.
  intros A B f p l; induction l as [|x xs IH]; simpl; intros Hn; [constructor|].
  inversion Hn as [|? ? Hni Hn']; subst.
  destruct (p x); simpl; [|now apply IH].
  constructor; [|now apply IH].
  intros Hin. apply Hni. apply in_map_iff in Hin as (y & Ey & Hy).
  apply filter_In in Hy as [Hy _]. rewrite <- Ey. now apply in_map.
Qed.

Lemma NoDup_app_keys : forall l stored,
  NoDup (map rkey l) -> NoDup (map rkey stored) ->
  (forall x, In x stored -> ~ In (rkey x) (map rkey l)) ->
  NoDup (map rkey (l ++ stored)).
Proof.
  intros l stored H1 H2 H3. rewrite map_app. apply NoDup_app; [exact H1 | exact H2|].
  intros a Ha Hb. apply in_map_iff in Hb as (x & <- & Hx). exact (H3 x Hx Ha).
Qed.

(** Replacing the row of primary key [p] by [y] keeps the keys distinct
    when no other row has [y]'s key. *)
Lemma replace_keys_nodup : forall p y l,
  NoDup (map rs_pk l) -> NoDup (map rkey l) ->
  (forall x, In x l -> rs_pk x <> p -> rkey x <> rkey y) ->
  NoDup (map rkey (map (fun x => if Nat.eqb (rs_pk x) p then y else x) l)).
Proof.
  intros p y l; induction l as [|x xs IH]; simpl; intros Hp Hk Hy; [constructor|].
  inversion Hp as [|? ? Hpn Hp']; subst. inversion Hk as [|? ? Hkn Hk']; subst.
  assert (IH' := IH Hp' Hk' (fun z Hz => Hy z (or_intror Hz))).
  destruct (Nat.eqb_spec (rs_pk x) p) as [Ex|Ex]; simpl; constructor; try exact IH'.
  - intros Hin. apply in_map_iff in Hin as (z & Ez & Hz).
    apply in_map_iff in Hz as (w & <- & Hw).
    destruct (Nat.eqb_spec (rs_pk w) p) as [Ew|Ew].
    + apply Hpn. rewrite Ex, <- Ew. now apply in_map.
    + exact (Hy w (or_intror Hw) Ew Ez).
  - intros Hin. apply in_map_iff in Hin as (z & Ez & Hz).
    apply in_map_iff in Hz as (w & <- & Hw).
    destruct (Nat.eqb_spec (rs_pk w) p) as [Ew|Ew].
    + exact (Hy x (or_introl eq_refl) Ex (eq_sym Ez)).
    + apply Hkn. rewrite <- Ez. now apply in_map.
Qed.

(* ------------------------------------------------------------------ *)
(** ** What a successful submit stores *)

Lemma bulk_create_created : forall objs st created st',
  bulk_create objs st = (Ok created, st') ->
  map member created = map member objs.
Proof.
  intros objs st created st'. unfold bulk_create, bind, get, put, ret, raise.
  destruct (negb _); [simpl; discriminate|].
  destruct (existsb _ objs) eqn:E1; [simpl; discriminate|].
  destruct (has_dup same_key objs) eqn:E2; [simpl; discriminate|].
  simpl. intros H; inversion H; subst; clear H.
  rewrite map_map. simpl. rewrite <- (tag_snd objs) at 2. now rewrite map_map.
Qed.

Lemma submit_created : forall sid t data st created st',
  submit_session_scores sid t data st = (Ok created, st') ->
  exists rs, fst (mapM (build_raw_score t sid) data st) = Ok rs
    /\ map member created = map member rs.
Proof.
  intros sid t data st created st'. unfold submit_session_scores.
  destruct (negb (Nat.eqb (List.length data) 4));
    [unfold raise; intros H; now inversion H|].
  unfold bind. pose proof (mapM_build_state t sid data st) as E.
  destruct (mapM (build_raw_score t sid) data st) as [[rs|e1] st1] eqn:Em;
    simpl in E; subst st1; [|intros H; now inversion H].
  destruct (bulk_create (assign_placements rs) st) as [[cr|e1] st2] eqn:Eb;
    [|intros H; now inversion H].
  destruct (iterM_recalc_effect t member cr st2) as (F1 & _ & _).
  destruct (iterM _ cr st2) as [[[]|e2] st3]; simpl in F1; [|discriminate].
  unfold ret. intros H; inversion H; subst; clear H.
  apply bulk_create_created in Eb.
  exists rs. split; [reflexivity|]. rewrite Eb. apply assign_placements_member.
Qed.

Lemma member_get_find : forall st mid tid m,
  member_get st mid tid = Some m ->
  find (fun m => Nat.eqb (member_pk m) mid) (members st) = Some m.
Proof.
  intros st mid tid m. unfold member_get.
  destruct (find _ _) as [m'|]; [|discriminate].
  destruct (Nat.eqb (m_team m') tid); [|discriminate]. intros H; now inversion H.
Qed.

Lemma submit_stored : forall sid t data st created st',
  submit_session_scores sid t data st = (Ok created, st') ->
  exists stored,
    members st' = members st
    /\ rows st' = rows st ++ stored
    /\ List.length stored = 4%nat
    /\ map member stored = map member created
    /\ NoDup (map rkey stored)
    /\ (forall x, In x stored -> in_team st (team_pk t) x = true /\ session_id x = sid)
    /\ (forall x, In x stored -> ~ In (rkey x) (map rkey (rows st)))
    /\ (forall r, In r created -> exists m, member_get st (member r) (team_pk t) = Some m).
Proof.
  intros sid t data st created st' E.
  destruct (submit_ok _ _ _ _ _ _ E)
    as (rs & stored & Hm & Hl & Hd & Hmem & Hrows & Hsm & Hss & _).
  destruct (submit_created _ _ _ _ _ _ E) as (rs' & Hm' & Hc).
  rewrite Hm in Hm'. injection Hm' as Hrs. subst rs'.
  pose proof (mapM_build_ok _ _ _ _ _ Hm) as HF.
  assert (Hlen : List.length rs = 4%nat)
    by (rewrite (mapM_build_length _ _ _ _ _ Hm); exact Hl).
  assert (Hk : map rkey stored = map rkey rs) by (rewrite !map_rkey, Hsm, Hss; reflexivity).
  exists stored. split; [exact Hmem|]. split; [exact Hrows|]. split.
  { rewrite <- (length_map member), Hsm, length_map. exact Hlen. }
  split; [rewrite Hsm, Hc; reflexivity|].
  split; [rewrite Hk; apply has_dup_nodup; now rewrite <- has_dup_assign|].
  split; [|split].
  - intros x Hx.
    assert (Hxm : In (member x) (map member rs)) by (rewrite <- Hsm; now apply in_map).
    assert (Hxs : In (session_id x) (map session_id rs))
      by (rewrite <- Hss; now apply in_map).
    apply in_map_iff in Hxm as (r & Er & Hr).
    apply in_map_iff in Hxs as (r' & Er' & Hr').
    destruct (Forall2_in_r _ _ _ _ HF Hr) as (d & _ & _ & _ & _ & [m Hmg] & _).
    destruct (Forall2_in_r _ _ _ _ HF Hr') as (d' & _ & _ & Hs & _).
    split.
    + exact (member_get_in_team st _ _ m x Hmg (eq_sym Er)).
    + rewrite <- Er'. exact Hs.
  - intros x Hx Hin.
    assert (Hxk : In (rkey x) (map rkey rs)) by (rewrite <- Hk; now apply in_map).
    apply in_map_iff in Hxk as (r & Er & Hr).
    destruct (Forall2_in_r _ _ _ _ HF Hr) as (d & _ & _ & _ & _ & _ & Hx').
    apply in_map_iff in Hin as (y & Ey & Hy).
    unfold rkey in Er, Ey. rewrite <- Er in Ey. injection Ey as E1 E2.
    assert (Hex : existsb (fun x0 => Nat.eqb (member x0) (member r)
                          && String.eqb (session_id x0) (session_id r)) (rows st) = true).
    { apply existsb_exists. exists y. split; [exact Hy|].
      rewrite E1, E2, Nat.eqb_refl, String.eqb_refl. reflexivity. }
    congruence.
  - intros r Hr.
    assert (Hrm : In (member r) (map member rs)) by (rewrite <- Hc; now apply in_map).
    apply in_map_iff in Hrm as (r0 & Er0 & Hr0).
    destruct (Forall2_in_r _ _ _ _ HF Hr0) as (d & _ & _ & _ & _ & [m Hmg] & _).
    exists m. rewrite <- Er0. exact Hmg.
Qed.

(* ------------------------------------------------------------------ *)
(** ** Rows of other sessions *)

Lemma in_team_unique : forall st tid tid' x,
  in_team st tid x = true -> in_team st tid' x = true -> tid = tid'.
Proof.
  intros st tid tid' x. unfold in_team.
  destruct (row_team st x); [|discriminate].
  intros H1 H2. apply Nat.eqb_eq in H1, H2. congruence.
Qed.

Lemma filter_none : forall {A} (p : A -> bool) l,
  (forall x, In x l -> p x = false) -> filter p l = [].
Proof.
  intros A p l; induction l as [|x xs IH]; intros H; simpl; [easy|].
  rewrite H by now left. apply IH. intros y Hy. apply H. now right.
Qed.

Lemma filter_filter_disjoint : forall {A} (p q : A -> bool) l,
  (forall x, q x = true -> p x = false) ->
  filter q (filter (fun x => negb (p x)) l) = filter q l.
Proof.
  intros A p q l H; induction l as [|x xs IH]; simpl; [easy|].
  destruct (q x) eqn:Eq.
  - rewrite (H x Eq). simpl. rewrite Eq. now f_equal.
  - destruct (p x); simpl; [exact IH|]. rewrite Eq. exact IH.
Qed.

Lemma other_session_key : forall st tid sid tid' sid' x,
  (tid', sid') <> (tid, sid) ->
  in_team st tid' x && String.eqb (session_id x) sid' = true ->
  in_team st tid x && String.eqb (session_id x) sid = false.
Proof.
  intros st tid sid tid' sid' x Hne H.
  apply andb_true_iff in H as [H1 H2]. apply String.eqb_eq in H2.
  destruct (in_team st tid x) eqn:E; [|reflexivity].
  destruct (String.eqb_spec (session_id x) sid); [|reflexivity].
  exfalso. apply Hne. rewrite (in_team_unique _ _ _ _ H1 E). congruence.
Qed.

Lemma session_rows_append_frame : forall st st' stored tid sid tid' sid',
  members st' = members st -> rows st' = rows st ++ stored ->
  (forall x, In x stored -> in_team st tid x = true /\ session_id x = sid) ->
  (tid', sid') <> (tid, sid) ->
  session_rows st' tid' sid' = session_rows st tid' sid'.
Proof.
  intros st st' stored tid sid tid' sid' Hm Hr Hs Hne.
  unfold session_rows. rewrite (in_team_ext st' st Hm), Hr, filter_app.
  rewrite (filter_none _ stored), app_nil_r; [reflexivity|].
  intros x Hx. destruct (Hs x Hx) as [H1 H2].
  destruct (in_team st tid' x && String.eqb (session_id x) sid') eqn:E; [|reflexivity].
  pose proof (other_session_key st tid sid tid' sid' x Hne E) as F.
  rewrite H1, H2, String.eqb_refl in F. discriminate F.
Qed.

Lemma session_rows_append_same : forall st st' stored tid sid,
  members st' = members st -> rows st' = rows st ++ stored ->
  (forall x, In x stored -> in_team st tid x = true /\ session_id x = sid) ->
  session_rows st' tid sid = session_rows st tid sid ++ stored.
Proof.
  intros st st' stored tid sid Hm Hr Hs.
  unfold session_rows. rewrite (in_team_ext st' st Hm), Hr, filter_app.
  f_equal. apply filter_all. intros x Hx. destruct (Hs x Hx) as [H1 H2].
  rewrite H1, H2, String.eqb_refl. reflexivity.
Qed.

(* ------------------------------------------------------------------ *)
(** ** Inside update_session_scores *)

Lemma update_ok_inv : forall sid t data st created st',
  update_session_scores sid t data st = (Ok created, st') ->
  exists st2,
    submit_session_scores sid t data
      (set_rows st (filter (fun r => negb (in_team st (team_pk t) r
                                          && String.eqb (session_id r) sid)) (rows st)))
      = (Ok created, st2)
    /\ st' = snd (iterM (recalculate_member_score t)
                   (dedup_nat (dedup_nat (map member (session_rows st (team_pk t) sid))
                               ++ map member created)) st2).
Proof.
  intros sid t data st created st'.
  cbv beta iota zeta delta [update_session_scores bind get put ret].
  destruct (submit_session_scores sid t data _) as [[ns|e1] st2] eqn:E;
    [|intros H; discriminate H].
  destruct (iterM_recalc_ids t
              (dedup_nat (dedup_nat (map member (session_rows st (team_pk t) sid))
                          ++ map member ns)) st2) as (F1 & _ & _).
  destruct (iterM _ _ st2) as [[[]|e2] st3] eqn:Ei; simpl in F1 |- *; [|discriminate F1].
  intros H; injection H as Hc Hs; subst created st'.
  exists st2. split; [reflexivity|]. rewrite Ei. reflexivity.
Qed.

Lemma update_err_inv : forall sid t data st e st',
  update_session_scores sid t data st = (Err e, st') ->
  st' = set_rows st (filter (fun r => negb (in_team st (team_pk t) r
                                            && String.eqb (session_id r) sid)) (rows st)).
Proof.
  intros sid t data st e st'.
  cbv beta iota zeta delta [update_session_scores bind get put ret].
  destruct (submit_session_scores sid t data _) as [[ns|e1] st2] eqn:E.
  - destruct (iterM_recalc_ids t
                (dedup_nat (dedup_nat (map member (session_rows st (team_pk t) sid))
                            ++ map member ns)) st2) as (F1 & _ & _).
    destruct (iterM _ _ st2) as [[[]|e2] st3]; simpl in F1 |- *;
      [intros H; discriminate H | discriminate F1].
  - intros H; injection H as _ Hs. subst st'. exact (submit_err_state _ _ _ _ _ _ E).
Qed.

(** The rows update_session_scores leaves after success. *)
Lemma update_ok_rows : forall sid t data st created st',
  update_session_scores sid t data st = (Ok created, st') ->
  exists stored,
    members st' = members st
    /\ rows st' = filter (fun r => negb (in_team st (team_pk t) r
                                         && String.eqb (session_id r) sid)) (rows st)
                  ++ stored
    /\ List.length stored = 4%nat
    /\ map member stored = map member created
    /\ NoDup (map rkey stored)
    /\ (forall x, In x stored -> in_team st (team_pk t) x = true /\ session_id x = sid)
    /\ (forall x, In x stored -> ~ In (rkey x) (map rkey
          (filter (fun r => negb (in_team st (team_pk t) r
                                  && String.eqb (session_id r) sid)) (rows st))))
    /\ (forall r, In r created -> exists m, member_get st (member r) (team_pk t) = Some m).
Proof.
  intros sid t data st created st' E.
  destruct (update_ok_inv _ _ _ _ _ _ E) as (st2 & Es & ->).
  destruct (submit_stored _ _ _ _ _ _ Es)
    as (stored & Hm & Hr & Hl & Hc & Hn & Hs & Hx & Hg).
  destruct (iterM_recalc_ids t
              (dedup_nat (dedup_nat (map member (session_rows st (team_pk t) sid))
                          ++ map member created)) st2) as (_ & F2 & F3).
  exists stored. simpl in Hm, Hr, Hx.
  split; [congruence|]. split; [congruence|].
  do 4 (split; [assumption|]).
  split; [exact Hx|].
  intros r Hr'. destruct (Hg r Hr') as [m Hmg]. exists m.
  unfold member_get in *. exact Hmg.
Qed.

Lemma nodup_members_of_keys : forall sid l,
  NoDup (map rkey l) -> (forall x, In x l -> session_id x = sid) ->
  NoDup (map member l).
Proof.
  intros sid l Hn Hs.
  assert (E : map rkey l = map (fun m => (m, sid)) (map member l)).
  { rewrite map_map. apply map_ext_in. intros x Hx. unfold rkey. now rewrite (Hs x Hx). }
  rewrite E in Hn. exact (NoDup_map_inv _ _ Hn).
Qed.

Lemma validate_session_complete_four : forall sid t st,
  List.length (session_rows st (team_pk t) sid) = 4%nat ->
  validate_session_complete sid t st = (Ok tt, st).
Proof.
  intros sid t st H. unfold validate_session_complete, bind, get, ret.
  rewrite H. reflexivity.
Qed.

Lemma submit_frame_rows : forall sid t data st created st',
  submit_session_scores sid t data st = (Ok created, st') ->
  (exists added,
     session_rows st' (team_pk t) sid = session_rows st (team_pk t) sid ++ added
     /\ List.length added = 4%nat
     /\ NoDup (map member added)
     /\ map member added = map member created)
  /\ (forall tid' sid', (tid', sid') <> (team_pk t, sid) ->
        session_rows st' tid' sid' = session_rows st tid' sid')
  /\ (session_rows st (team_pk t) sid = [] ->
        validate_session_complete sid t st' = (Ok tt, st')).
Proof.
  intros sid t data st created st' E.
  destruct (submit_stored _ _ _ _ _ _ E) as (stored & Hm & Hr & Hl & Hc & Hn & Hs & _ & _).
  assert (Hsame : session_rows st' (team_pk t) sid = session_rows st (team_pk t) sid ++ stored)
    by exact (session_rows_append_same _ _ _ _ _ Hm Hr Hs).
  split; [|split].
  - exists stored. split; [exact Hsame|]. split; [exact Hl|]. split; [|exact Hc].
    apply (nodup_members_of_keys sid); [exact Hn|]. intros x Hx. exact (proj2 (Hs x Hx)).
  - intros tid' sid' Hne. exact (session_rows_append_frame _ _ _ _ _ _ _ Hm Hr Hs Hne).
  - intros H0. apply validate_session_complete_four. rewrite Hsame, H0. exact Hl.
Qed.

(** X1: a successful submit_session_scores adds exactly four rows of four
    distinct members to the session, one per created score, leaves the rows
    of every other (team, session) as they were, and completes a session
    that was empty, so validate_session_complete then passes. *)
Theorem submit_session_scores_frame : forall sid t data st created st',
  submit_session_scores sid t data st = (Ok created, st') ->
  (exists added,
     session_rows st' (team_pk t) sid = session_rows st (team_pk t) sid ++ added
     /\ List.length added = 4%nat
     /\ NoDup (map member added)
     /\ map member added = map member created)
  /\ (forall tid' sid', (tid', sid') <> (team_pk t, sid) ->
        session_rows st' tid' sid' = session_rows st tid' sid')
  /\ (session_rows st (team_pk t) sid = [] ->
        validate_session_complete sid t st' = (Ok tt, st')).
Proof. exact submit_frame_rows. Qed.

Lemma submit_session_scores_frame_witness :
  let st' := snd (submit_session_scores "s1" team1 tie_entries db_empty) in
  let created := match fst (submit_session_scores "s1" team1 tie_entries db_empty) with
                 | Ok c => c | Err _ => [] end in
  (exists added,
     session_rows st' (team_pk team1) "s1" = session_rows db_empty (team_pk team1) "s1" ++ added
     /\ List.length added = 4%nat
     /\ NoDup (map member added)
     /\ map member added = map member created)
  /\ (forall tid' sid', (tid', sid') <> (team_pk team1, "s1"%string) ->
        session_rows st' tid' sid' = session_rows db_empty tid' sid')
  /\ (session_rows db_empty (team_pk team1) "s1" = [] ->
        validate_session_complete "s1" team1 st' = (Ok tt, st')).
Proof.
  apply (submit_session_scores_frame "s1" team1 tie_entries db_empty).
  vm_compute. reflexivity.
Defined.

Lemma update_frame_rows : forall sid t data st created st',
  update_session_scores sid t data st = (Ok created, st') ->
  List.length (session_rows st' (team_pk t) sid) = 4%nat
  /\ NoDup (map member (session_rows st' (team_pk t) sid))
  /\ map member (session_rows st' (team_pk t) sid) = map member created
  /\ validate_session_complete sid t st' = (Ok tt, st')
  /\ (forall tid' sid', (tid', sid') <> (team_pk t, sid) ->
        session_rows st' tid' sid' = session_rows st tid' sid').
Proof.
  intros sid t data st created st' E.
  destruct (update_ok_rows _ _ _ _ _ _ E) as (stored & Hm & Hr & Hl & Hc & Hn & Hs & _ & _).
  set (kept := filter _ (rows st)) in Hr.
  assert (Hsess : session_rows st' (team_pk t) sid = stored).
  { unfold session_rows. rewrite (in_team_ext st' st Hm), Hr, filter_app.
    rewrite (filter_none _ kept).
    - simpl. apply filter_all. intros x Hx. destruct (Hs x Hx) as [H1 H2].
      rewrite H1, H2, String.eqb_refl. reflexivity.
    - intros x Hx. unfold kept in Hx. apply filter_In in Hx as [_ Hx].
      destruct (in_team st (team_pk t) x && String.eqb (session_id x) sid); easy. }
  rewrite Hsess. split; [exact Hl|]. split.
  { apply (nodup_members_of_keys sid); [exact Hn|]. intros x Hx. exact (proj2 (Hs x Hx)). }
  split; [exact Hc|]. split; [apply validate_session_complete_four; now rewrite Hsess|].
  intros tid' sid' Hne. unfold session_rows.
  rewrite (in_team_ext st' st Hm), Hr, filter_app.
  rewrite (filter_none _ stored), app_nil_r.
  - unfold kept. apply filter_filter_disjoint. intros x Hx.
    exact (other_session_key st _ _ _ _ x Hne Hx).
  - intros x Hx. destruct (Hs x Hx) as [H1 H2].
    destruct (in_team st tid' x && String.eqb (session_id x) sid') eqn:Ex; [|reflexivity].
    pose proof (other_session_key st _ _ _ _ x Hne Ex) as F.
    rewrite H1, H2, String.eqb_refl in F. discriminate F.
Qed.

(** X2: after a successful update_session_scores the session holds exactly
    four rows of four distinct members, one per created score, so
    validate_session_complete passes, and the rows of every other (team,
    session) are unchanged. *)
Theorem update_session_scores_frame : forall sid t data st created st',
  update_session_scores sid t data st = (Ok created, st') ->
  List.length (session_rows st' (team_pk t) sid) = 4%nat
  /\ NoDup (map member (session_rows st' (team_pk t) sid))
  /\ map member (session_rows st' (team_pk t) sid) = map member created
  /\ validate_session_complete sid t st' = (Ok tt, st')
  /\ (forall tid' sid', (tid', sid') <> (team_pk t, sid) ->
        session_rows st' tid' sid' = session_rows st tid' sid').
Proof. exact update_frame_rows. Qed.

Lemma update_session_scores_frame_witness :
  let st' := snd (update_session_scores "s1" team1 other_entries db_tie) in
  let created := match fst (update_session_scores "s1" team1 other_entries db_tie) with
                 | Ok c => c | Err _ => [] end in
  List.length (session_rows st' (team_pk team1) "s1") = 4%nat
  /\ NoDup (map member (session_rows st' (team_pk team1) "s1"))
  /\ map member (session_rows st' (team_pk team1) "s1") = map member created
  /\ validate_session_complete "s1" team1 st' = (Ok tt, st')
  /\ (forall tid' sid', (tid', sid') <> (team_pk team1, "s1"%string) ->
        session_rows st' tid' sid' = session_rows db_tie tid' sid').
Proof.
  apply (update_session_scores_frame "s1" team1 other_entries db_tie).
  vm_compute. reflexivity.
Defined.

(** X3: the database keeps at most one RawScore per (member, session_id):
    if the rows have distinct keys before, they still do after
    submit_session_scores or update_session_scores, whatever their outcome;
    and after RawScore.save, insert or update, whatever its outcome, when the
    primary keys are distinct too. *)
Theorem member_session_key_unique : forall sid t data r st,
  NoDup (map rkey (rows st)) ->
  NoDup (map rkey (rows (snd (submit_session_scores sid t data st))))
  /\ NoDup (map rkey (rows (snd (update_session_scores sid t data st))))
  /\ (NoDup (map rs_pk (rows st)) ->
      NoDup (map rkey (rows (snd (rawscore_save t r st))))).
Proof.
  intros sid t data r st Hn. split; [|split].
  - destruct (submit_session_scores sid t data st) as [[c|e] st'] eqn:E; simpl.
    + destruct (submit_stored _ _ _ _ _ _ E) as (stored & _ & Hr & _ & _ & Hs & _ & Hx & _).
      rewrite Hr. exact (NoDup_app_keys _ _ Hn Hs Hx).
    + rewrite (submit_err_state _ _ _ _ _ _ E). exact Hn.
  - destruct (update_session_scores sid t data st) as [[c|e] st'] eqn:E; simpl.
    + destruct (update_ok_rows _ _ _ _ _ _ E) as (stored & _ & Hr & _ & _ & Hs & _ & Hx & _).
      rewrite Hr. apply (NoDup_app_keys _ _ (NoDup_map_filter _ _ _ Hn) Hs Hx).
    + rewrite (update_err_inv _ _ _ _ _ _ E). simpl. exact (NoDup_map_filter _ _ _ Hn).
  - intros Hp. unfold rawscore_save, bind, get, put, ret, raise.
    destruct (find _ (members st)) as [m|]; simpl; [|exact Hn].
    destruct (existsb _ (rows st)) eqn:Ec; simpl; [exact Hn|].
    assert (Hc : forall x, In x (rows st) -> same_key r x = true ->
              (negb (Nat.eqb (rs_pk r) 0) && Nat.eqb (rs_pk x) (rs_pk r)) = true).
    { intros x Hx Hs. destruct (negb (Nat.eqb (rs_pk r) 0) && Nat.eqb (rs_pk x) (rs_pk r)) eqn:Ex;
        [reflexivity|].
      assert (Ht : existsb (fun x => same_key r x && negb (negb (Nat.eqb (rs_pk r) 0)
                     && Nat.eqb (rs_pk x) (rs_pk r))) (rows st) = true).
      { apply existsb_exists. exists x. now rewrite Hs, Ex. }
      congruence. }
    destruct (negb (row_in_range r)); simpl; [exact Hn|].
    destruct (negb (Nat.eqb (rs_pk r) 0) && existsb _ (rows st)) eqn:Eu;
    match goal with
    | |- context [recalculate_member_score t (member r) ?s] =>
        destruct (recalculate_member_score_effect t (member r) s) as (F1 & F2 & _);
        destruct (recalculate_member_score t (member r) s) as [[[]|e] s1];
        simpl in F1, F2 |- *; [|discriminate F1]
    end; rewrite F2.
    + apply replace_keys_nodup; [exact Hp | exact Hn|].
      intros x Hx Hne Hk. apply Hne.
      assert (Hs : same_key r x = true) by (apply same_key_rkey; exact (eq_sym Hk)).
      apply Hc in Hs; [|exact Hx]. apply andb_true_iff in Hs as [_ Hs].
      now apply Nat.eqb_eq.
    + apply NoDup_app_keys; [exact Hn | repeat constructor; easy|].
      intros x [<- | []] Hin. apply in_map_iff in Hin as (y & Ey & Hy).
      assert (Hs : same_key r y = true) by (apply same_key_rkey; exact (eq_sym Ey)).
      apply Hc in Hs; [|exact Hy]. apply andb_true_iff in Hs as [Hs1 Hs2].
      rewrite Hs1 in Eu. simpl in Eu.
      assert (Ht : existsb (fun x => Nat.eqb (rs_pk x) (rs_pk r)) (rows st) = true)
        by (apply existsb_exists; eauto).
      congruence.
Qed.

Lemma member_session_key_unique_witness :
  NoDup (map rkey (rows db_tie)) /\ NoDup (map rs_pk (rows db_tie)) /\
  (NoDup (map rkey (rows (snd (submit_session_scores "s1" team1 other_entries db_tie))))
   /\ NoDup (map rkey (rows (snd (update_session_scores "s1" team1 other_entries db_tie))))
   /\ NoDup (map rkey (rows (snd (rawscore_save team1 (raw 1 100) db_tie))))
   /\ NoDup (map rkey (rows (snd (rawscore_save team1 edited_A db_tie))))).
Proof.
  assert (H : NoDup (map rkey (rows db_tie))).
  { vm_compute. repeat constructor; vm_compute; intuition discriminate. }
  assert (Hp : NoDup (map rs_pk (rows db_tie))).
  { vm_compute. repeat constructor; vm_compute; intuition discriminate. }
  destruct (member_session_key_unique "s1" team1 other_entries (raw 1 100) db_tie H)
    as (H1 & H2 & H3).
  destruct (member_session_key_unique "s1" team1 other_entries edited_A db_tie H)
    as (_ & _ & H4).
  repeat split; auto.
Defined.

(* ------------------------------------------------------------------ *)
(** ** The CalculatedScore rollup *)

Lemma compute_stats_ext : forall a b t m,
  members a = members b -> rows a = rows b ->
  compute_stats a t m = compute_stats b t m.
Proof.
  intros [ma ra ca na ka] [mb rb cb nb kb] t m. simpl. intros -> ->.
  reflexivity.
Qed.

Lemma calc_get_put_eq : forall k v l, calc_get k (calc_put k v l) = Some v.
Proof.
  intros k v l; induction l as [|[k' v'] l IH]; simpl.
  - unfold calc_get. simpl. now rewrite Nat.eqb_refl.
  - destruct (Nat.eqb k k') eqn:E.
    + unfold calc_get. simpl. now rewrite Nat.eqb_refl.
    + unfold calc_get in *. simpl. rewrite Nat.eqb_sym, E. exact IH.
Qed.

Lemma calc_get_put_neq : forall k k' v l,
  k <> k' -> calc_get k (calc_put k' v l) = calc_get k l.
Proof.
  intros k k' v l Hne; induction l as [|[k0 v0] l IH]; unfold calc_get in *; simpl.
  - destruct (Nat.eqb_spec k' k); [congruence | reflexivity].
  - destruct (Nat.eqb_spec k' k0) as [<-|Hk].
    + simpl. destruct (Nat.eqb_spec k' k); [congruence|].
      reflexivity.
    + simpl. destruct (Nat.eqb k0 k); [reflexivity | exact IH].
Qed.

Lemma recalculate_member_score_found : forall t mid st m,
  find (fun m => Nat.eqb (member_pk m) mid) (members st) = Some m ->
  calc (snd (recalculate_member_score t mid st))
  = calc_put mid (compute_stats st t m) (calc st).
Proof.
  intros t mid st m H. unfold recalculate_member_score, bind, get, put.
  rewrite H. reflexivity.
Qed.

Lemma recalculate_member_score_other : forall t mid st k,
  k <> mid ->
  calc_get k (calc (snd (recalculate_member_score t mid st))) = calc_get k (calc st).
Proof.
  intros t mid st k Hne. unfold recalculate_member_score, bind, get, put, ret.
  destruct (find _ _); simpl; [|reflexivity]. now apply calc_get_put_neq.
Qed.

Lemma iterM_snd : forall {A} (f : A -> M unit) x xs st,
  (forall st0, fst (f x st0) = Ok tt) ->
  snd (iterM f (x :: xs) st) = snd (iterM f xs (snd (f x st))).
Proof.
  intros A f x xs st H. simpl. unfold bind.
  specialize (H st). destruct (f x st) as [[[]|e] s1]; simpl in *; [reflexivity|discriminate].
Qed.

Lemma iterM_recalc_other : forall {A} t (f : A -> nat) l st k,
  (forall x, In x l -> f x <> k) ->
  calc_get k (calc (snd (iterM (fun x => recalculate_member_score t (f x)) l st)))
  = calc_get k (calc st).
Proof.
  intros A t f l; induction l as [|x xs IH]; intros st k H; [reflexivity|].
  rewrite iterM_snd by (intros; apply recalculate_member_score_effect).
  rewrite IH by (intros y Hy; apply H; now right).
  apply recalculate_member_score_other. intros E. apply (H x); [now left | congruence].
Qed.

Lemma iterM_recalc_fresh : forall {A} t (f : A -> nat) l st x,
  In x l ->
  (exists m, find (fun m => Nat.eqb (member_pk m) (f x)) (members st) = Some m) ->
  exists m, find (fun m => Nat.eqb (member_pk m) (f x)) (members st) = Some m
    /\ calc_get (f x) (calc (snd (iterM (fun y => recalculate_member_score t (f y)) l st)))
       = Some (compute_stats (snd (iterM (fun y => recalculate_member_score t (f y)) l st))
                             t m).
Proof.
  intros A t f l; induction l as [|y ys IH]; intros st x Hx [m Hm]; [destruct Hx|].
  rewrite iterM_snd by (intros; apply recalculate_member_score_effect).
  set (st1 := snd (recalculate_member_score t (f y) st)).
  destruct (recalculate_member_score_effect t (f y) st) as (_ & R1 & M1).
  fold st1 in R1, M1.
  destruct (existsb (fun z => Nat.eqb (f z) (f x)) ys) eqn:Ez.
  - apply existsb_exists in Ez as (z & Hz & Ezx). apply Nat.eqb_eq in Ezx.
    rewrite <- Ezx. rewrite <- Ezx in Hm.
    destruct (IH st1 z Hz) as (m' & Hm' & Hc); [exists m; now rewrite M1|].
    exists m'. rewrite M1 in Hm'. split; [exact Hm' | exact Hc].
  - assert (Hy : y = x \/ f y = f x).
    { destruct Hx as [<- | Hx]; [now left|].
      exfalso. assert (existsb (fun z => Nat.eqb (f z) (f x)) ys = true)
        by (apply existsb_exists; exists x; split; [exact Hx | apply Nat.eqb_refl]).
      congruence. }
    assert (Hfy : f y = f x) by (destruct Hy; congruence).
    exists m. split; [exact Hm|].
    rewrite iterM_recalc_other.
    + destruct (iterM_recalc_effect t f ys st1) as (_ & R2 & M2).
      rewrite (compute_stats_ext _ st t m) by congruence.
      unfold st1. rewrite <- Hfy in Hm |- *.
      rewrite (recalculate_member_score_found t (f y) st m Hm), calc_get_put_eq.
      reflexivity.
    + intros z Hz E. assert (existsb (fun z => Nat.eqb (f z) (f x)) ys = true)
        by (apply existsb_exists; exists z; split; [exact Hz | now apply Nat.eqb_eq]).
      congruence.
Qed.

Lemma dedup_nat_In : forall x l, In x (dedup_nat l) <-> In x l.
Proof.
  intros x l; induction l as [|y ys IH]; simpl; [easy|].
  rewrite filter_In, IH. split.
  - intros [-> | [H _]]; auto.
  - intros [-> | H]; [now left|].
    destruct (Nat.eqb_spec y x); [now left | right; split; [exact H | reflexivity]].
Qed.

Lemma in_team_member_get : forall st tid x,
  in_team st tid x = true -> exists m, member_get st (member x) tid = Some m.
Proof.
  intros st tid x. unfold in_team, row_team, member_get.
  destruct (find _ _) as [m|]; [|discriminate]. intros H. rewrite H. now exists m.
Qed.

Lemma member_get_members : forall a b mid tid,
  members a = members b -> member_get a mid tid = member_get b mid tid.
Proof. intros a b mid tid H. unfold member_get. now rewrite H. Qed.

Lemma submit_ok_iter : forall sid t data st created st',
  submit_session_scores sid t data st = (Ok created, st') ->
  exists st2, st' = snd (iterM (fun r => recalculate_member_score t (member r)) created st2).
Proof.
  intros sid t data st created st'. unfold submit_session_scores.
  destruct (negb (Nat.eqb (List.length data) 4));
    [unfold raise; intros H; now inversion H|].
  unfold bind. pose proof (mapM_build_state t sid data st) as E.
  destruct (mapM (build_raw_score t sid) data st) as [[rs|e1] st1] eqn:Em;
    simpl in E; subst st1; [|intros H; now inversion H].
  destruct (bulk_create (assign_placements rs) st) as [[cr|e1] st2] eqn:Eb;
    [|intros H; now inversion H].
  destruct (iterM_recalc_effect t member cr st2) as (F1 & _ & _).
  destruct (iterM _ cr st2) as [[[]|e2] st3] eqn:Ei; simpl in F1; [|discriminate].
  unfold ret. intros H; inversion H; subst; clear H.
  exists st2. rewrite Ei. reflexivity.
Qed.

(** X4: after a successful submit_session_scores, every member that got a
    score is a member of the team and its CalculatedScore equals
    compute_stats over the final database, so the rollup includes the new
    session. *)
Theorem submit_rollup_fresh : forall sid t data st created st',
  submit_session_scores sid t data st = (Ok created, st') ->
  forall r, In r created ->
  exists m, member_get st' (member r) (team_pk t) = Some m
    /\ calc_get (member r) (calc st') = Some (compute_stats st' t m).
Proof.
  intros sid t data st created st' E r Hr.
  destruct (submit_stored _ _ _ _ _ _ E) as (stored & Hm & _ & _ & _ & _ & _ & _ & Hg).
  destruct (Hg r Hr) as [m Hmg].
  destruct (submit_ok_iter _ _ _ _ _ _ E) as (st2 & Hst).
  destruct (iterM_recalc_effect t member created st2) as (_ & _ & M2).
  rewrite <- Hst in M2.
  destruct (iterM_recalc_fresh t member created st2 r Hr) as (m' & Hm' & Hc).
  { exists m. apply member_get_find in Hmg. congruence. }
  rewrite <- Hst in Hc.
  apply member_get_find in Hmg as Hf.
  assert (m' = m) by congruence. subst m'.
  exists m. split; [|exact Hc]. rewrite (member_get_members st' st _ _ Hm). exact Hmg.
Qed.

Lemma submit_rollup_fresh_witness :
  let created := match fst (submit_session_scores "s1" team1 tie_entries db_empty) with
                 | Ok c => c | Err _ => [] end in
  let st' := snd (submit_session_scores "s1" team1 tie_entries db_empty) in
  In (hd (raw 0 0) created) created
  /\ exists m, member_get st' (member (hd (raw 0 0) created)) (team_pk team1) = Some m
       /\ calc_get (member (hd (raw 0 0) created)) (calc st')
          = Some (compute_stats st' team1 m).
Proof.
  assert (H : In (hd (raw 0 0) (match fst (submit_session_scores "s1" team1 tie_entries db_empty)
                                with Ok c => c | Err _ => [] end))
                 (match fst (submit_session_scores "s1" team1 tie_entries db_empty)
                  with Ok c => c | Err _ => [] end)) by (vm_compute; left; reflexivity).
  split; [exact H|].
  refine (submit_rollup_fresh "s1" team1 tie_entries db_empty _ _ _ _ H).
  vm_compute. reflexivity.
Defined.

(** X5: after a successful update_session_scores, every member that had a
    score in the session before or has one after (a replaced player too) is
    a member of the team and its CalculatedScore equals compute_stats over
    the final database. *)
Theorem update_rollup_fresh : forall sid t data st created st',
  update_session_scores sid t data st = (Ok created, st') ->
  forall mid, In mid (map member (session_rows st (team_pk t) sid) ++ map member created) ->
  exists m, member_get st' mid (team_pk t) = Some m
    /\ calc_get mid (calc st') = Some (compute_stats st' t m).
Proof.
  intros sid t data st created st' E mid Hin.
  destruct (update_ok_rows _ _ _ _ _ _ E) as (stored & Hm & _ & _ & _ & _ & _ & _ & Hg).
  assert (Hmg : exists m, member_get st mid (team_pk t) = Some m).
  { apply in_app_or in Hin as [Hin | Hin]; apply in_map_iff in Hin as (x & <- & Hx).
    - apply filter_In in Hx as [_ Hx]. apply andb_true_iff in Hx as [Hx _].
      exact (in_team_member_get _ _ _ Hx).
    - exact (Hg x Hx). }
  destruct Hmg as [m Hmg].
  destruct (update_ok_inv _ _ _ _ _ _ E) as (st2 & Es & Hst).
  destruct (submit_stored _ _ _ _ _ _ Es) as (stored2 & Hm2 & _).
  destruct (iterM_recalc_fresh t (fun x => x)
              (dedup_nat (dedup_nat (map member (session_rows st (team_pk t) sid))
                          ++ map member created)) st2 mid) as (m' & Hm' & Hc).
  { apply dedup_nat_In. apply in_or_app.
    apply in_app_or in Hin as [H | H]; [left; now apply dedup_nat_In | now right]. }
  { exists m. apply member_get_find in Hmg. simpl in Hm2. congruence. }
  apply member_get_find in Hmg as Hf. simpl in Hm2.
  assert (m' = m) by congruence. subst m'.
  rewrite (member_get_members st' st _ _ Hm). subst st'.
  exists m. split; [exact Hmg | exact Hc].
Qed.

Lemma update_rollup_fresh_witness :
  let st' := snd (update_session_scores "s1" team1 other_entries db_tie) in
  In 4%nat (map member (session_rows db_tie (team_pk team1) "s1")
            ++ map member (match fst (update_session_scores "s1" team1 other_entries db_tie)
                           with Ok c => c | Err _ => [] end))
  /\ exists m, member_get st' 4 (team_pk team1) = Some m
       /\ calc_get 4 (calc st') = Some (compute_stats st' team1 m).
Proof.
  assert (H : In 4%nat (map member (session_rows db_tie (team_pk team1) "s1")
            ++ map member (match fst (update_session_scores "s1" team1 other_entries db_tie)
                           with Ok c => c | Err _ => [] end))) by (vm_compute; tauto).
  split; [exact H|].
  refine (update_rollup_fresh "s1" team1 other_entries db_tie _ _ _ 4 H).
  vm_compute. reflexivity.
Defined.

(* ------------------------------------------------------------------ *)
(** ** compute_stats *)

Lemma fold_left_inv : forall {A B} (P : A -> Prop) (f : A -> B -> A) l a,
  P a -> (forall a b, In b l -> P a -> P (f a b)) -> P (fold_left f l a).
Proof.
  intros A B P f l; induction l as [|x xs IH]; intros a Ha H; simpl; [exact Ha|].
  apply IH; [apply H; [now left | exact Ha] | intros a' b Hb; apply H; now right].
Qed.

Lemma first_index_lt : forall {A} (p : A -> bool) l x,
  In x l -> p x = true -> (first_index p l < List.length l)%nat.
Proof.
  intros A p l x; induction l as [|y ys IH]; simpl; [easy|].
  intros [-> | Hx] Hp; [rewrite Hp; lia|].
  destruct (p y); [lia|]. specialize (IH Hx Hp). lia.
Qed.

Lemma avg_bounds : forall s n, (0 < n)%nat -> (Z.of_nat n <= s <= 4 * Z.of_nat n)%Z ->
  (1 <= QZ s / Qnat n <= 4)%Q.
Proof.
  intros s n Hn Hs.
  assert (H0 : (0 < Qnat n)%Q).
  { unfold Qnat. change 0%Q with (inject_Z 0). rewrite <- Zlt_Qlt. lia. }
  split.
  - apply Qle_shift_div_l; [exact H0|]. rewrite Qmult_1_l.
    unfold Qnat, QZ. rewrite <- Zle_Qle. lia.
  - apply Qle_shift_div_r; [exact H0|]. unfold Qnat, QZ.
    change 4%Q with (inject_Z 4). rewrite <- inject_Z_mult, <- Zle_Qle. lia.
Qed.

Lemma sum_bounds : forall ps, Forall (fun p => (1 <= p <= 4)%Z) ps ->
  (Z.of_nat (List.length ps) <= fold_right Z.add 0%Z ps <= 4 * Z.of_nat (List.length ps))%Z.
Proof.
  induction ps as [|p ps IH]; intros H; simpl; [lia|].
  inversion H as [|? ? Hp Hps]; subst. specialize (IH Hps). lia.
Qed.

(** The running accumulator of compute_stats, the fold over the member's
    sessions. *)
Lemma compute_stats_acc : forall st t m,
  let member_sessions :=
    dedup_str (map session_id
                 (rev (filter (fun r => Nat.eqb (member r) (member_pk m)) (rows st)))) in
  let acc := fold_left (compute_stats_step st t m) member_sessions (mkAcc 0%Q [] [] 0) in
  compute_stats st t m
  = mkCalc (acc_total acc) (List.length (acc_sessions acc))
      (if (0 <? List.length (acc_sessions acc))%nat
       then (acc_total acc / Qnat (List.length (acc_sessions acc)))%Q else 0%Q)
      (match acc_placements acc with
       | [] => 0%Q
       | _ => (QZ (fold_right Z.add 0%Z (acc_placements acc))
               / Qnat (List.length (acc_placements acc)))%Q
       end)
      (acc_chombo acc).
Proof. intros. reflexivity. Qed.

Lemma compute_stats_step_cases : forall st t m acc sid,
  compute_stats_step st t m acc sid = acc
  \/ exists r calculated pl,
       In r (session_queryset st (m_team m) sid)
       /\ List.length (session_queryset st (m_team m) sid) = 4%nat
       /\ member r = member_pk m
       /\ pl = Z.of_nat (first_index (fun r => Nat.eqb (member r) (member_pk m))
                          (sorted_desc score_key (session_queryset st (m_team m) sid))) + 1
       /\ acc_placements (compute_stats_step st t m acc sid) = acc_placements acc ++ [pl]
       /\ acc_total (compute_stats_step st t m acc sid) = (acc_total acc + calculated)%Q
       /\ acc_chombo (compute_stats_step st t m acc sid)
          = (if (0 <? chombo r) && chombo_enabled t then acc_chombo acc + chombo r
             else acc_chombo acc).
Proof.
  intros st t m acc sid. unfold compute_stats_step.
  destruct (Nat.eqb_spec (List.length (session_queryset st (m_team m) sid)) 4) as [Hl|Hl];
    simpl; [|now left].
  destruct (find (fun r => Nat.eqb (member r) (member_pk m)) _) as [r|] eqn:Ef; [|now left].
  right. apply find_some in Ef as [Hin Hr]. apply Nat.eqb_eq in Hr.
  do 3 eexists. split; [exact Hin|]. split; [exact Hl|]. split; [exact Hr|].
  split; [reflexivity|]. split; [reflexivity|]. split; reflexivity.
Qed.

(** X6: compute_stats never gives a negative chombo_count, and gives 0 when
    the team has chombo disabled. *)
Theorem compute_stats_chombo_count : forall st t m,
  (0 <= chombo_count (compute_stats st t m))%Z
  /\ (chombo_enabled t = false -> chombo_count (compute_stats st t m) = 0%Z).
Proof.
  intros st t m. rewrite compute_stats_acc. simpl. split.
  - apply (fold_left_inv (fun acc => 0 <= acc_chombo acc)%Z); simpl; [lia|].
    intros acc sid _ H.
    destruct (compute_stats_step_cases st t m acc sid) as [-> | (r & c & pl & _ & _ & _ & _ & _ & _ & ->)];
      [exact H|].
    destruct (0 <? chombo r) eqn:E; simpl; [|exact H].
    destruct (chombo_enabled t); [|exact H]. apply Z.ltb_lt in E. lia.
  - intros Hc. apply (fold_left_inv (fun acc => acc_chombo acc = 0)%Z); simpl; [reflexivity|].
    intros acc sid _ H.
    destruct (compute_stats_step_cases st t m acc sid) as [-> | (r & c & pl & _ & _ & _ & _ & _ & _ & ->)];
      [exact H|].
    rewrite Hc, andb_false_r. exact H.
Qed.

(** X7: the average_placement computed by compute_stats is 0 (no placement
    recorded) or lies between 1 and 4. *)
Theorem compute_stats_average_placement_range : forall st t m,
  average_placement (compute_stats st t m) = 0%Q
  \/ (1 <= average_placement (compute_stats st t m) <= 4)%Q.
Proof.
  intros st t m. rewrite compute_stats_acc. simpl.
  set (acc := fold_left _ _ _).
  assert (HF : Forall (fun p => (1 <= p <= 4)%Z) (acc_placements acc)).
  { apply (fold_left_inv (fun acc => Forall (fun p => (1 <= p <= 4)%Z) (acc_placements acc)));
      simpl; [constructor|].
    intros a sid _ H.
    destruct (compute_stats_step_cases st t m a sid)
      as [-> | (r & c & pl & Hin & Hl & Hr & Hpl & -> & _ & _)]; [exact H|].
    apply Forall_app. split; [exact H|]. constructor; [|constructor].
    assert (Hlt : (first_index (fun r => Nat.eqb (member r) (member_pk m))
                     (sorted_desc score_key (session_queryset st (m_team m) sid))
                   < List.length (sorted_desc score_key (session_queryset st (m_team m) sid)))%nat).
    { apply (first_index_lt _ _ r).
      - apply (Permutation_in _ (Permutation_sym (sorted_desc_perm score_key _))). exact Hin.
      - now apply Nat.eqb_eq. }
    rewrite (Permutation_length (sorted_desc_perm score_key _)), Hl in Hlt. lia. }
  destruct (acc_placements acc) as [|p ps] eqn:Ep; [now left|].
  right. apply avg_bounds; [simpl; lia|]. exact (sum_bounds _ HF).
Qed.

Lemma dedup_str_In : forall x l, In x (dedup_str l) -> In x l.
Proof.
  intros x l; induction l as [|y ys IH]; simpl; [easy|].
  intros [-> | H]; [now left|]. apply filter_In in H as [H _]. right. now apply IH.
Qed.

(** X8: a member none of whose sessions has exactly 4 rows of the member's
    team gets all-zero statistics from compute_stats: total, games_played,
    averages and chombo_count are 0. *)
Theorem compute_stats_no_complete_session : forall st t m,
  (forall r, In r (rows st) -> member r = member_pk m ->
     List.length (session_rows st (m_team m) (session_id r)) <> 4%nat) ->
  compute_stats st t m = mkCalc 0%Q 0 0%Q 0%Q 0%Z.
Proof.
  intros st t m H. rewrite compute_stats_acc. simpl.
  assert (Hf : forall acc, fold_left (compute_stats_step st t m)
     (dedup_str (map session_id (rev (filter (fun r => Nat.eqb (member r) (member_pk m)) (rows st)))))
     acc = acc).
  { intros acc. apply (fold_left_inv (fun a => a = acc)); [reflexivity|].
    intros a sid Hs ->. apply dedup_str_In in Hs.
    apply in_map_iff in Hs as (r & <- & Hr). apply in_rev in Hr. apply filter_In in Hr as [Hr Hm].
    apply Nat.eqb_eq in Hm. specialize (H r Hr Hm).
    unfold compute_stats_step, session_queryset. rewrite length_rev.
    apply Nat.eqb_neq in H. now rewrite H. }
  rewrite Hf. reflexivity.
Qed.

Lemma compute_stats_no_complete_session_witness :
  compute_stats (snd (rawscore_save team1 (raw 1 25000) db_empty)) team1 member_A
  = mkCalc 0%Q 0 0%Q 0%Q 0%Z.
Proof.
  apply compute_stats_no_complete_session. intros r Hr _.
  vm_compute in Hr. destruct Hr as [<- | []]. vm_compute. discriminate.
Defined.

(* ------------------------------------------------------------------ *)
(** ** recalculate_member_score *)

Lemma calc_put_keys : forall k v l,
  map fst (calc_put k v l)
  = if existsb (Nat.eqb k) (map fst l) then map fst l else map fst l ++ [k].
Proof.
  intros k v l; induction l as [|[k' v'] l IH]; simpl; [reflexivity|].
  destruct (Nat.eqb_spec k k') as [<-|Hk]; simpl; [reflexivity|].
  rewrite IH. destruct (existsb (Nat.eqb k) (map fst l)); reflexivity.
Qed.

Lemma calc_put_nodup : forall k v l,
  NoDup (map fst l) -> NoDup (map fst (calc_put k v l)).
Proof.
  intros k v l Hn. rewrite calc_put_keys.
  destruct (existsb (Nat.eqb k) (map fst l)) eqn:E; [exact Hn|].
  apply NoDup_app; [exact Hn | repeat constructor; easy|].
  intros a Ha [Ea | []]. subst a. assert (existsb (Nat.eqb k) (map fst l) = true)
    by (apply existsb_exists; exists k; split; [exact Ha | apply Nat.eqb_refl]).
  congruence.
Qed.

(** X9: recalculate_member_score leaves rows and members alone, and the
    CalculatedScore of every other member too; for an existing member its
    CalculatedScore becomes compute_stats of the current data, for an
    unknown id nothing changes; the table keeps at most one CalculatedScore
    per member. *)
Theorem recalculate_member_score_spec : forall t mid st,
  let st' := snd (recalculate_member_score t mid st) in
  rows st' = rows st /\ members st' = members st
  /\ (forall k, k <> mid -> calc_get k (calc st') = calc_get k (calc st))
  /\ match find (fun m => Nat.eqb (member_pk m) mid) (members st) with
     | Some m => calc_get mid (calc st') = Some (compute_stats st t m)
     | None => st' = st
     end
  /\ (NoDup (map fst (calc st)) -> NoDup (map fst (calc st'))).
Proof.
  intros t mid st st'.
  destruct (recalculate_member_score_effect t mid st) as (_ & R & Mm).
  split; [exact R|]. split; [exact Mm|].
  split; [intros k Hk; now apply recalculate_member_score_other|].
  unfold st'. unfold recalculate_member_score, bind, get, put, ret.
  destruct (find _ (members st)) as [m|] eqn:Ef; simpl.
  - split; [apply calc_get_put_eq | apply calc_put_nodup].
  - split; [reflexivity | exact (fun H => H)].
Qed.

Lemma recalculate_member_score_spec_witness :
  let st' := snd (recalculate_member_score team1 1 db_tie) in
  rows st' = rows db_tie /\ members st' = members db_tie
  /\ (forall k, k <> 1%nat -> calc_get k (calc st') = calc_get k (calc db_tie))
  /\ match find (fun m => Nat.eqb (member_pk m) 1) (members db_tie) with
     | Some m => calc_get 1 (calc st') = Some (compute_stats db_tie team1 m)
     | None => st' = db_tie
     end
  /\ (NoDup (map fst (calc db_tie)) -> NoDup (map fst (calc st'))).
Proof. exact (recalculate_member_score_spec team1 1 db_tie). Defined.

(* ------------------------------------------------------------------ *)
(** ** Team.get_standings *)

(** X10: Team.get_standings lists exactly the team's members (a
    permutation of them), ordered by Member.total_score from highest to
    lowest, a member without CalculatedScore counting as 0. *)
Theorem get_standings_sorted_perm : forall st t,
  Permutation (get_standings st t) (team_members st (team_pk t))
  /\ Sorted (desc (total_score st)) (get_standings st t).
Proof.
  intros st t. split; [apply sorted_desc_perm | apply sorted_desc_sorted].
Qed.

(* ------------------------------------------------------------------ *)
(** ** SessionsView cards *)

Lemma Sorted_map : forall {A B} (P : A -> A -> Prop) (R : B -> B -> Prop) (f : A -> B) l,
  (forall a b, P a b -> R (f a) (f b)) -> Sorted P l -> Sorted R (map f l).
Proof.
  intros A B P R f l H S. induction S as [|a l S IH Hd]; simpl; constructor; [exact IH|].
  destruct Hd as [|b l' Hab]; simpl; constructor. now apply H.
Qed.

Lemma session_card_rows : forall st t scores,
  List.length scores = 4%nat ->
  map cr_placement (session_card st t scores) = [1; 2; 3; 4]
  /\ map cr_uma (session_card st t scores)
     = [uma_first t; uma_second t; uma_third t; uma_fourth t]
  /\ map cr_raw_score (session_card st t scores) = map score (sorted_desc score_key scores).
Proof.
  intros st t scores Hl. unfold session_card.
  assert (Hs : List.length (sorted_desc score_key scores) = 4%nat)
    by (rewrite (Permutation_length (sorted_desc_perm score_key scores)); exact Hl).
  rewrite !map_map.
  assert (Hf : forall (g : nat -> Z),
             map (fun p => g (fst p)) (tag (sorted_desc score_key scores)) = map g [0; 1; 2; 3]%nat).
  { intros g. rewrite <- (map_map fst g), tag_fst, Hs. reflexivity. }
  split; [|split].
  - exact (Hf (fun k => Z.of_nat k + 1)).
  - exact (Hf (fun k => uma_get t (Z.of_nat k + 1))).
  - transitivity (map (fun p => score (snd p)) (tag (sorted_desc score_key scores)));
      [apply map_ext; intros; reflexivity|].
    rewrite <- (map_map snd score), tag_snd. reflexivity.
Qed.

(** X11: every card SessionsView shows is a session of exactly 4 rows of the
    month; its rows carry placements 1, 2, 3, 4 and the umas first to fourth
    in that order, even when scores tie, and their raw scores are the
    session's scores from highest to lowest. *)
Theorem sessions_view_cards_rows : forall st t raw_scores sid card,
  In (sid, card) (sessions_view_cards st t raw_scores) ->
  exists group, In (sid, group) (group_sessions raw_scores)
    /\ List.length group = 4%nat
    /\ map cr_placement card = [1; 2; 3; 4]
    /\ map cr_uma card = [uma_first t; uma_second t; uma_third t; uma_fourth t]
    /\ Permutation (map cr_raw_score card) (map score group)
    /\ Sorted (fun a b => b <= a) (map cr_raw_score card).
Proof.
  intros st t raw_scores sid card Hin.
  unfold sessions_view_cards in Hin. apply in_map_iff in Hin as ([sid' group] & E & Hg).
  injection E as <- <-. apply filter_In in Hg as [Hg Hl]. apply Nat.eqb_eq in Hl.
  simpl in Hl |- *. destruct (session_card_rows st t group Hl) as (H1 & H2 & H3).
  exists group. do 4 (split; [assumption|]). rewrite H3. split.
  - apply Permutation_map, sorted_desc_perm.
  - apply (Sorted_map (desc score_key)); [|apply sorted_desc_sorted].
    intros a b Hab. unfold desc, score_key, QZ in Hab. rewrite <- Zle_Qle in Hab. exact Hab.
Qed.

Lemma sessions_view_cards_rows_witness :
  let cards := sessions_view_cards db_tie team1 (rows db_tie) in
  In ("s1"%string, snd (hd (EmptyString, []) cards)) cards
  /\ exists group, In ("s1"%string, group) (group_sessions (rows db_tie))
    /\ List.length group = 4%nat
    /\ map cr_placement (snd (hd (EmptyString, []) cards)) = [1; 2; 3; 4]
    /\ map cr_uma (snd (hd (EmptyString, []) cards)) = [uma_first team1; uma_second team1; uma_third team1; uma_fourth team1]
    /\ Permutation (map cr_raw_score (snd (hd (EmptyString, []) cards))) (map score group)
    /\ Sorted (fun a b => b <= a) (map cr_raw_score (snd (hd (EmptyString, []) cards))).
Proof.
  assert (H : In ("s1"%string, snd (hd (EmptyString, []) (sessions_view_cards db_tie team1 (rows db_tie))))
                 (sessions_view_cards db_tie team1 (rows db_tie))).
  { vm_compute. left. reflexivity. }
  split; [exact H|]. exact (sessions_view_cards_rows db_tie team1 (rows db_tie) "s1" _ H).
Defined.

(* ------------------------------------------------------------------ *)
(** ** Month filters *)

Lemma py_index_out : forall {A} (l : list A) i,
  (i < - Z.of_nat (List.length l) \/ Z.of_nat (List.length l) <= i)%Z -> py_index l i = None.
Proof.
  intros A l i H. unfold py_index.
  destruct (0 <=? i) eqn:E1.
  - apply nth_error_None. apply Z.leb_le in E1. lia.
  - destruct (- Z.of_nat (List.length l) <=? i) eqn:E2; [|reflexivity].
    apply Z.leb_le in E2. apply Z.leb_gt in E1. lia.
Qed.

(** X12: month_name_filter gives a non-empty name exactly for 1 to 12 and,
    through Python's negative indexing, for -12 to -1 (0, -13 and every
    other integer give ""); short_month_name is always its first three
    characters. *)
Theorem month_filters_range : forall n,
  (month_name_filter n <> ""%string <-> (1 <= n <= 12 \/ -12 <= n <= -1)%Z)
  /\ short_month_name n = String.substring 0 3 (month_name_filter n).
Proof.
  intros n.
  destruct (Z_lt_le_dec n (-13)) as [Hlo|Hlo];
    [|destruct (Z_lt_le_dec 12 n) as [Hhi|Hhi]].
  1, 2: unfold month_name_filter, short_month_name;
        rewrite !py_index_out by (simpl; lia); split; [split; [intros H; easy | lia] | reflexivity].
  assert (Hk : exists k, (k < 26)%nat /\ n = Z.of_nat k - 13)
    by (exists (Z.to_nat (n + 13)); lia).
  destruct Hk as (k & Hk & ->). clear Hlo Hhi.
  do 26 (destruct k as [|k];
         [split; [split; intros H; [first [lia | exfalso; apply H; reflexivity]
                                   | first [discriminate | lia]] | reflexivity]|]).
  lia.
Qed.

(* ------------------------------------------------------------------ *)
(** ** The REST views *)

Lemma with_db_self : forall a, with_db a (api_db a) = a.
Proof. intros []; reflexivity. Qed.

Lemma session_rows_cleared : forall st tid sid,
  session_rows (set_rows st (filter (fun r => negb (in_team st tid r
                                     && String.eqb (session_id r) sid)) (rows st))) tid sid = [].
Proof.
  intros st tid sid. unfold session_rows. simpl.
  rewrite (in_team_ext _ st) by reflexivity.
  apply filter_none. intros x Hx. apply filter_In in Hx as [_ Hx].
  destruct (in_team st tid x && String.eqb (session_id x) sid); easy.
Qed.

Lemma session_rows_cleared_other : forall st tid sid tid' sid',
  (tid', sid') <> (tid, sid) ->
  session_rows (set_rows st (filter (fun r => negb (in_team st tid r
                                     && String.eqb (session_id r) sid)) (rows st))) tid' sid'
  = session_rows st tid' sid'.
Proof.
  intros st tid sid tid' sid' Hne. unfold session_rows. simpl.
  rewrite (in_team_ext _ st) by reflexivity.
  apply filter_filter_disjoint. intros x Hx. exact (other_session_key st _ _ _ _ x Hne Hx).
Qed.

Ltac api_case := cbn [negb]; cbv beta iota zeta delta [fail status count fst snd].

(** X13: SessionSubmitAPIView.post changes nothing unless it answers 201.
    A 201 comes from an authenticated admin of the team, for a session that
    held no row of the team; the session then holds exactly 4 rows, the
    response reports 4 scores created, and the teams and admins are
    untouched. *)
Theorem api_session_submit_outcome : forall user slug req a,
  let r := api_session_submit user slug req a in
  (status (fst r) <> 201 -> snd r = a)
  /\ (status (fst r) = 201 ->
      exists u team sid,
        user = Some u /\ find_team a slug = Some team /\ is_team_admin a u team = true
        /\ session_rows (api_db a) (team_pk team) sid = []
        /\ List.length (session_rows (api_db (snd r)) (team_pk team) sid) = 4%nat
        /\ count (fst r) = Some 4%nat
        /\ api_teams (snd r) = api_teams a /\ api_admins (snd r) = api_admins a).
Proof.
  intros user slug req a r. unfold r, api_session_submit. clear r.
  destruct user as [u|]; [|api_case; split; [reflexivity | discriminate]].
  destruct (find_team a slug) as [team|] eqn:Et; [|api_case; split; [reflexivity | discriminate]].
  destruct (is_team_admin a u team) eqn:Ea; [|api_case; split; [reflexivity | discriminate]].
  api_case.
  destruct (session_scores_valid (api_db a) team req) as [[sid v]| |] eqn:Ev;
    [|split; [reflexivity | discriminate] ..].
  destruct (convert_scores (api_db a) team v) as [conv|] eqn:Ec;
    [|split; [reflexivity | discriminate]].
  destruct (session_rows (api_db a) (team_pk team) sid) as [|x xs] eqn:Er;
    [|split; [reflexivity | discriminate]].
  destruct (submit_session_scores sid team conv (api_db a)) as [[c|e] st'] eqn:Es.
  - split; [intros H; exfalso; apply H; reflexivity|]. intros _.
    destruct (submit_stored _ _ _ _ _ _ Es) as (stored & Hm & Hr & Hl & Hc & _ & Hs & _).
    exists u, team, sid. split; [reflexivity|]. split; [reflexivity|]. split; [exact Ea|].
    split; [exact Er|]. simpl.
    rewrite (session_rows_append_same _ _ _ _ _ Hm Hr Hs), Er. split; [exact Hl|].
    split; [|split; reflexivity].
    rewrite <- (length_map member c), <- Hc, length_map, Hl. reflexivity.
  - apply submit_err_state in Es. subst st'. rewrite with_db_self.
    split; [reflexivity | discriminate].
Qed.

(** X14: SessionUpdateAPIView.put leaves everything unchanged unless it
    answers 200 or 400. A 200 comes from an authenticated admin of the team
    for a session that already had rows of the team; the session then holds
    exactly 4 rows of 4 distinct members, the response reports 4 scores
    updated, and the rows of every other (team, session) are as before. *)
Theorem api_session_update_outcome : forall user slug sid req a,
  let r := api_session_update user slug sid req a in
  (status (fst r) <> 200 -> status (fst r) <> 400 -> snd r = a)
  /\ (status (fst r) = 200 ->
      exists u team,
        user = Some u /\ find_team a slug = Some team /\ is_team_admin a u team = true
        /\ session_rows (api_db a) (team_pk team) sid <> []
        /\ List.length (session_rows (api_db (snd r)) (team_pk team) sid) = 4%nat
        /\ NoDup (map member (session_rows (api_db (snd r)) (team_pk team) sid))
        /\ count (fst r) = Some 4%nat
        /\ (forall tid' sid', (tid', sid') <> (team_pk team, sid) ->
              session_rows (api_db (snd r)) tid' sid' = session_rows (api_db a) tid' sid')
        /\ api_teams (snd r) = api_teams a /\ api_admins (snd r) = api_admins a).
Proof.
  intros user slug sid req a r. unfold r, api_session_update. clear r.
  destruct user as [u|]; [|api_case; split; [reflexivity | discriminate]].
  destruct (find_team a slug) as [team|] eqn:Et; [|api_case; split; [reflexivity | discriminate]].
  destruct (is_team_admin a u team) eqn:Ea; [|api_case; split; [reflexivity | discriminate]].
  api_case.
  destruct (session_rows (api_db a) (team_pk team) sid) as [|x xs] eqn:Er;
    [split; [reflexivity | discriminate]|].
  destruct (session_scores_valid (api_db a) team req) as [[sid' v]| |] eqn:Ev;
    [|split; [reflexivity | discriminate] ..].
  destruct (convert_scores (api_db a) team v) as [conv|] eqn:Ec;
    [|split; [reflexivity | discriminate]].
  destruct (update_session_scores sid team conv (api_db a)) as [[c|e] st'] eqn:Es.
  - split; [intros H; exfalso; apply H; reflexivity|]. intros _.
    destruct (update_frame_rows _ _ _ _ _ _ Es) as (Hl & Hn & Hc & _ & Ho).
    exists u, team. split; [reflexivity|]. split; [reflexivity|]. split; [exact Ea|]. split; [rewrite Er; discriminate|]. simpl.
    do 2 (split; [assumption|]).
    split; [rewrite <- (length_map member c), <- Hc, length_map, Hl; reflexivity|].
    split; [exact Ho | split; reflexivity].
  - split; [intros _ H; exfalso; apply H; reflexivity | discriminate].
Qed.

(** X15: SessionDeleteAPIView.delete leaves everything unchanged unless it
    answers 200. A 200 comes from an authenticated admin of the team for a
    session with rows of the team; the response reports how many rows there
    were, the team's rows of the session are gone, the rows of every other
    (team, session) are kept, and every member that had a row in the
    session has its CalculatedScore recomputed over the remaining rows. *)
Theorem api_session_delete_outcome : forall user slug sid a,
  let r := api_session_delete user slug sid a in
  (status (fst r) <> 200 -> snd r = a)
  /\ (status (fst r) = 200 ->
      exists u team,
        user = Some u /\ find_team a slug = Some team /\ is_team_admin a u team = true
        /\ count (fst r) = Some (List.length (session_rows (api_db a) (team_pk team) sid))
        /\ session_rows (api_db a) (team_pk team) sid <> []
        /\ session_rows (api_db (snd r)) (team_pk team) sid = []
        /\ (forall tid' sid', (tid', sid') <> (team_pk team, sid) ->
              session_rows (api_db (snd r)) tid' sid' = session_rows (api_db a) tid' sid')
        /\ (forall mid, In mid (map member (session_rows (api_db a) (team_pk team) sid)) ->
              exists m, member_get (api_db (snd r)) mid (team_pk team) = Some m
                /\ calc_get mid (calc (api_db (snd r)))
                   = Some (compute_stats (api_db (snd r)) team m))
        /\ api_teams (snd r) = api_teams a /\ api_admins (snd r) = api_admins a).
Proof.
  intros user slug sid a r. unfold r, api_session_delete. clear r.
  destruct user as [u|]; [|api_case; split; [reflexivity | discriminate]].
  destruct (find_team a slug) as [team|] eqn:Et; [|api_case; split; [reflexivity | discriminate]].
  destruct (is_team_admin a u team) eqn:Ea; [|api_case; split; [reflexivity | discriminate]].
  api_case.
  destruct (session_rows (api_db a) (team_pk team) sid) as [|x xs] eqn:Er;
    [split; [reflexivity | discriminate]|].
  rewrite <- Er.
  split; [intros H; exfalso; apply H; reflexivity|]. intros _.
  set (st := api_db a).
  set (st1 := set_rows st _).
  set (l := dedup_nat (map member (session_rows st (team_pk team) sid))).
  destruct (iterM_recalc_ids team l st1) as (_ & R2 & M2).
  exists u, team. split; [reflexivity|]. split; [reflexivity|]. split; [exact Ea|].
  split; [reflexivity|]. split; [unfold st; rewrite Er; discriminate|]. simpl.
  assert (Hsr : forall tid' sid', session_rows (snd (iterM (recalculate_member_score team) l st1)) tid' sid'
                                = session_rows st1 tid' sid').
  { intros. now rewrite (session_rows_ext _ _ M2 R2). }
  split; [rewrite Hsr; apply session_rows_cleared|].
  split; [intros tid' sid' Hne; rewrite Hsr; now apply session_rows_cleared_other|].
  split; [|split; reflexivity].
  intros mid Hin.
  assert (Hmg : exists m, member_get st mid (team_pk team) = Some m).
  { apply in_map_iff in Hin as (y & <- & Hy).
    apply filter_In in Hy as [_ Hy]. apply andb_true_iff in Hy as [Hy _].
    exact (in_team_member_get _ _ _ Hy). }
  destruct Hmg as [m Hmg].
  destruct (iterM_recalc_fresh team (fun x => x) l st1 mid) as (m' & Hm' & Hc).
  { unfold l. now apply dedup_nat_In. }
  { exists m. apply member_get_find in Hmg. exact Hmg. }
  apply member_get_find in Hmg as Hf.
  assert (m' = m) by (simpl in Hm'; congruence). subst m'.
  exists m. split; [|exact Hc].
  rewrite (member_get_members _ st _ _ M2). exact Hmg.
Qed.

(* ------------------------------------------------------------------ *)
(** ** Requests that the views accept *)

Lemma validate_list_valid : forall {A B} (f : A -> Validated B) l ys,
  validate_list f l = Valid ys -> Forall2 (fun x y => f x = Valid y) l ys.
Proof.
  intros A B f l; induction l as [|x xs IH]; intros ys H; simpl in H.
  - injection H as <-. constructor.
  - destruct (f x) as [y| |] eqn:Ef; destruct (validate_list f xs) as [ys'| |] eqn:Ev;
      try discriminate H.
    injection H as <-. constructor; [exact Ef | now apply IH].
Qed.

Lemma score_entry_valid_named : forall st t e y,
  score_entry_valid st t e = Valid y ->
  exists m, members_named st (team_pk t) (fst (fst y)) = [m].
Proof.
  intros st t e y. unfold score_entry_valid.
  destruct (char_field None (rq_member_name e)) as [v|]; [|discriminate].
  unfold validate_member_name.
  destruct (members_named st (team_pk t) v) as [|m [|m' ms]] eqn:En; try discriminate.
  destruct (rq_score e) as [s|]; [|discriminate].
  destruct (rq_chombo e) as [| |c]; [| discriminate | destruct (c <? 0); [discriminate|]];
    intros H; injection H as <-; exists m; exact En.
Qed.

Lemma char_field_max : forall n v s,
  char_field (Some n) v = Some s -> (String.length s <= n)%nat.
Proof.
  intros n [v|] s; simpl; [|discriminate].
  destruct (String.eqb (py_strip v) ""); [discriminate|].
  destruct (n <? String.length (py_strip v))%nat eqn:E; [discriminate|].
  destruct (existsb _ _); [discriminate|].
  intros H; injection H as <-. apply Nat.ltb_ge in E. exact E.
Qed.

Lemma char_field_nonblank : forall n v s,
  char_field n v = Some s -> String.eqb s "" = false.
Proof.
  intros n [v|] s; simpl; [|discriminate].
  destruct (String.eqb (py_strip v) "") eqn:E; [discriminate|].
  destruct (match n with Some k => _ | None => false end); [discriminate|].
  destruct (existsb _ _); [discriminate|].
  intros H; injection H as <-. exact E.
Qed.

Lemma filter_length_le : forall {A} (p : A -> bool) l,
  (List.length (filter p l) <= List.length l)%nat.
Proof.
  intros A p l; induction l as [|x xs IH]; simpl; [lia|]. destruct (p x); simpl; lia.
Qed.

Lemma filter_length_all : forall {A} (p : A -> bool) l,
  List.length (filter p l) = List.length l -> forall x, In x l -> p x = true.
Proof.
  intros A p l; induction l as [|x xs IH]; simpl; intros H y Hy; [easy|].
  pose proof (filter_length_le p xs).
  destruct (p x) eqn:E; simpl in H.
  - destruct Hy as [<- | Hy]; [exact E|]. apply IH; [lia | exact Hy].
  - lia.
Qed.

Lemma dedup_str_length_le : forall l, (List.length (dedup_str l) <= List.length l)%nat.
Proof.
  induction l as [|x xs IH]; simpl; [lia|].
  pose proof (filter_length_le (fun y => negb (String.eqb x y)) (dedup_str xs)). lia.
Qed.

Lemma dedup_str_In_r : forall x l, In x l -> In x (dedup_str l).
Proof.
  intros x l; induction l as [|y ys IH]; simpl; [easy|].
  intros [-> | H]; [now left|].
  destruct (String.eqb_spec y x) as [->|Hne]; [now left|].
  right. apply filter_In. split; [now apply IH|].
  apply negb_true_iff. now apply String.eqb_neq.
Qed.

Lemma dedup_str_nodup : forall l,
  List.length l = List.length (dedup_str l) -> NoDup l.
Proof.
  induction l as [|x xs IH]; simpl; intros H; [constructor|].
  pose proof (filter_length_le (fun y => negb (String.eqb x y)) (dedup_str xs)) as H1.
  pose proof (dedup_str_length_le xs) as H2.
  assert (Hf : List.length (filter (fun y => negb (String.eqb x y)) (dedup_str xs))
               = List.length (dedup_str xs)) by lia.
  constructor.
  - intros Hx. apply dedup_str_In_r in Hx.
    pose proof (filter_length_all _ _ Hf x Hx) as E. cbv beta in E.
    rewrite String.eqb_refl in E. discriminate E.
  - apply IH. lia.
Qed.

Lemma session_scores_valid_inv : forall st t req sid v,
  session_scores_valid st t req = Valid (sid, v) ->
  String.eqb sid "" = false
  /\ (String.length sid <= 100)%nat
  /\ List.length v = 4%nat
  /\ NoDup (map (fun e => fst (fst e)) v)
  /\ (forall e, In e v -> exists m, members_named st (team_pk t) (fst (fst e)) = [m]).
Proof.
  intros st t req sid v. unfold session_scores_valid.
  destruct (rq_scores req) as [l|]; [|destruct (char_field (Some 100%nat) (rq_session_id req)); discriminate].
  destruct (validate_list (score_entry_valid st t) l) as [v0| |] eqn:Ev0;
    [|destruct (char_field (Some 100%nat) (rq_session_id req)); discriminate ..].
  unfold validate_scores.
  destruct (Nat.eqb_spec (List.length v0) 4) as [H4|]; simpl;
    [|destruct (char_field (Some 100%nat) (rq_session_id req)); discriminate].
  destruct (Nat.eqb_spec (List.length (map (fun e => fst (fst e)) v0))
                         (List.length (dedup_str (map (fun e => fst (fst e)) v0)))) as [Hd|];
    simpl; [|destruct (char_field (Some 100%nat) (rq_session_id req)); discriminate].
  destruct (validate_list (fun e => score_entry_valid st t (entry_req e)) v0);
    [|destruct (char_field (Some 100%nat) (rq_session_id req)); discriminate ..].
  destruct (char_field (Some 100%nat) (rq_session_id req)) as [s|] eqn:Ec; [|discriminate].
  destruct (rq_session_date_ok req); [|discriminate].
  intros H; injection H as <- <-.
  split; [exact (char_field_nonblank _ _ _ Ec)|].
  split; [exact (char_field_max _ _ _ Ec)|]. split; [exact H4|].
  split; [now apply dedup_str_nodup|].
  intros e He. apply validate_list_valid in Ev0.
  destruct (Forall2_in_r _ _ _ _ Ev0 He) as (x & _ & Hx).
  exact (score_entry_valid_named _ _ _ _ Hx).
Qed.

Lemma members_named_one : forall st tid nm m,
  members_named st tid nm = [m] ->
  In m (members st) /\ name m = nm /\ m_team m = tid.
Proof.
  intros st tid nm m H.
  assert (Hin : In m (members_named st tid nm)) by (rewrite H; now left).
  unfold members_named in Hin. apply filter_In in Hin as [Hin Hp].
  apply andb_true_iff in Hp as [E1 E2].
  apply String.eqb_eq in E1. apply Nat.eqb_eq in E2. auto.
Qed.

Lemma convert_scores_some : forall st t l,
  (forall e, In e l -> exists m, members_named st (team_pk t) (fst (fst e)) = [m]) ->
  exists es, convert_scores st t l = Some es.
Proof.
  intros st t l; induction l as [|e l IH]; intros H; simpl; [eexists; reflexivity|].
  destruct (H e (or_introl eq_refl)) as [m Hm]. rewrite Hm.
  destruct IH as [es Hes]; [intros e' He'; apply H; now right|].
  rewrite Hes. eexists; reflexivity.
Qed.

Lemma convert_scores_rel : forall st t l es,
  convert_scores st t l = Some es ->
  Forall2 (fun e d => exists m, members_named st (team_pk t) (fst (fst e)) = [m]
             /\ d = mkEntry (Some (member_pk m)) (Some (snd (fst e))) (snd e)) l es.
Proof.
  intros st t l; induction l as [|e l IH]; intros es H; simpl in H.
  - injection H as <-. constructor.
  - destruct (members_named st (team_pk t) (fst (fst e))) as [|m [|m' ms]] eqn:Em;
      try discriminate H.
    destruct (convert_scores st t l) as [es'|] eqn:Ec; [|discriminate H].
    injection H as <-. constructor; [exists m; split; [exact Em | reflexivity]|].
    now apply IH.
Qed.

Lemma find_pk_nodup : forall l m,
  NoDup (map member_pk l) -> In m l ->
  find (fun x => Nat.eqb (member_pk x) (member_pk m)) l = Some m.
Proof.
  induction l as [|y ys IH]; intros m Hn Hin; [destruct Hin|].
  inversion Hn as [|? ? Hy Hys]; subst. simpl.
  destruct Hin as [<- | Hin]; [now rewrite Nat.eqb_refl|].
  destruct (Nat.eqb_spec (member_pk y) (member_pk m)) as [E|]; [|now apply IH].
  exfalso. apply Hy. rewrite E. now apply in_map.
Qed.

Lemma converted_entry_ok : forall st0 st t sid l es,
  forallb (fun e => int_in_range (snd (fst e)) && int_in_range (snd e)) l = true ->
  members st0 = members st ->
  NoDup (map member_pk (members st)) ->
  session_rows st0 (team_pk t) sid = [] ->
  convert_scores st t l = Some es ->
  forallb (entry_ok st0 t sid) es = true.
Proof.
  intros st0 st t sid l es Hi Hm Hn Hr Hc. apply forallb_forall. intros d Hd.
  apply convert_scores_rel in Hc.
  destruct (Forall2_in_r _ _ _ _ Hc Hd) as (e & He & m & Hnm & ->).
  destruct (members_named_one _ _ _ _ Hnm) as (Hin & _ & Ht).
  rewrite forallb_forall in Hi. specialize (Hi e He).
  unfold entry_ok. simpl. rewrite Hi. simpl. unfold member_get. rewrite Hm, (find_pk_nodup _ _ Hn Hin), Ht, Nat.eqb_refl.
  apply negb_true_iff. destruct (existsb _ (rows st0)) eqn:E; [|reflexivity].
  exfalso. apply existsb_exists in E as (x & Hx & Hp).
  apply andb_true_iff in Hp as [Hp1 Hp2]. apply Nat.eqb_eq in Hp1.
  assert (Hs : In x (session_rows st0 (team_pk t) sid)).
  { unfold session_rows. apply filter_In. split; [exact Hx|]. rewrite Hp2, andb_true_r.
    unfold in_team, row_team. rewrite Hp1, Hm, (find_pk_nodup _ _ Hn Hin), Ht. apply Nat.eqb_refl. }
  rewrite Hr in Hs. destruct Hs.
Qed.

Lemma converted_no_dup : forall st t l es,
  NoDup (map member_pk (members st)) ->
  NoDup (map (fun e => fst (fst e)) l) ->
  convert_scores st t l = Some es ->
  dup_member_ids es = false.
Proof.
  intros st t l es Hn Hl Hc. apply convert_scores_rel in Hc. unfold dup_member_ids.
  induction Hc as [|e d l ds (m & Hm & ->) F IH]; [reflexivity|].
  simpl in Hl |- *. inversion Hl as [|? ? He Hl']; subst.
  rewrite (IH Hl'), orb_false_r.
  destruct (existsb _ ds) eqn:E; [|reflexivity]. exfalso.
  apply existsb_exists in E as (d' & Hd' & Hp).
  destruct (Forall2_in_r _ _ _ _ F Hd') as (e' & He' & m' & Hm' & ->).
  simpl in Hp. apply Nat.eqb_eq in Hp.
  destruct (members_named_one _ _ _ _ Hm) as (Hin & Hnm & _).
  destruct (members_named_one _ _ _ _ Hm') as (Hin' & Hnm' & _).
  assert (m = m').
  { pose proof (find_pk_nodup _ _ Hn Hin) as F1. pose proof (find_pk_nodup _ _ Hn Hin') as F2.
    rewrite Hp in F1. congruence. }
  subst m'. apply He. rewrite <- Hnm, Hnm'.
  exact (in_map (fun e0 : string * Z * Z => fst (fst e0)) l e' He').
Qed.

Lemma submit_succeeds : forall sid t data st,
  String.eqb sid "" = false ->
  (String.length sid <=? 100)%nat = true ->
  List.length data = 4%nat ->
  forallb (entry_ok st t sid) data = true ->
  dup_member_ids data = false ->
  exists created, fst (submit_session_scores sid t data st) = Ok created.
Proof.
  intros sid t data st Hb Hl H4 Hf Hd.
  destruct (mapM_build_success t sid data st Hb Hl Hf) as [rs Hm].
  pose proof (mapM_build_state t sid data st) as Es.
  unfold submit_session_scores. rewrite H4. simpl. unfold bind.
  destruct (mapM (build_raw_score t sid) data st) as [[rs'|e] st1] eqn:Em;
    simpl in Hm, Es; [|discriminate Hm].
  injection Hm as Hrs. subst rs' st1.
  assert (Hm' : fst (mapM (build_raw_score t sid) data st) = Ok rs) by now rewrite Em.
  assert (Hdup : has_dup same_key (assign_placements rs) = false).
  { rewrite has_dup_assign. erewrite dup_member_ids_rel; [exact Hd|].
    exact (mapM_build_rel _ _ _ _ _ Hm'). }
  unfold bulk_create, bind, get, put, ret.
  rewrite (mapM_build_placed_in_range _ _ _ _ _ Hm' H4). simpl.
  rewrite (no_stored_clash t sid data st rs Hm'), Hdup. simpl.
  match goal with
  | |- context [iterM ?f ?l ?s] =>
      destruct (iterM_recalc_effect t member l s) as (F & _ & _);
      destruct (iterM f l s) as [[[]|e2] st3]
  end; simpl in F |- *; [|discriminate F].
  eexists; reflexivity.
Qed.

Lemma convert_scores_length : forall st t l es,
  convert_scores st t l = Some es -> List.length es = List.length l.
Proof.
  intros st t l es H. apply convert_scores_rel in H. symmetry. exact (Forall2_length H).
Qed.

(** X16: SessionSubmitAPIView.post answers 201 to an admin of the team whose
    request body passes SessionScoresSerializer with every score and chombo
    in the IntegerField range, when the session has no row of the team yet
    and member pks are unique. *)
Theorem api_session_submit_accepts : forall u slug req a team sid v,
  find_team a slug = Some team ->
  is_team_admin a u team = true ->
  session_scores_valid (api_db a) team req = Valid (sid, v) ->
  forallb (fun e => int_in_range (snd (fst e)) && int_in_range (snd e)) v = true ->
  session_rows (api_db a) (team_pk team) sid = [] ->
  NoDup (map member_pk (members (api_db a))) ->
  status (fst (api_session_submit (Some u) slug req a)) = 201.
Proof.
  intros u slug req a team sid v Et Ea Ev Hi Er Hn.
  destruct (session_scores_valid_inv _ _ _ _ _ Ev) as (Hb & Hl & H4 & Hd & Hnm).
  destruct (convert_scores_some _ _ _ Hnm) as [conv Hc].
  unfold api_session_submit. rewrite Et, Ea. api_case.
  rewrite Ev, Hc, Er.
  destruct (submit_succeeds sid team conv (api_db a)) as [c Hs].
  - exact Hb.
  - now apply Nat.leb_le.
  - rewrite (convert_scores_length _ _ _ _ Hc). exact H4.
  - exact (converted_entry_ok _ _ _ _ _ _ Hi eq_refl Hn Er Hc).
  - exact (converted_no_dup _ _ _ _ Hn Hd Hc).
  - destruct (submit_session_scores sid team conv (api_db a)) as [[c'|e] st'];
      simpl in Hs; [reflexivity | discriminate Hs].
Qed.

Lemma api_session_submit_accepts_witness :
  status (fst (api_session_submit (Some 7%nat) "t1" demo_req (api_demo db_empty))) = 201.
Proof.
  apply (api_session_submit_accepts 7 "t1" demo_req (api_demo db_empty) team1 "s9"
           (match session_scores_valid db_empty team1 demo_req with
            | Valid (_, v) => v | _ => [] end));
    vm_compute; try reflexivity.
  repeat constructor; vm_compute; intuition discriminate.
Defined.

Lemma update_of_submit : forall sid t data st c,
  fst (submit_session_scores sid t data
         (set_rows st (filter (fun r => negb (in_team st (team_pk t) r
                                             && String.eqb (session_id r) sid)) (rows st))))
  = Ok c ->
  fst (update_session_scores sid t data st) = Ok c.
Proof.
  intros sid t data st c.
  cbv beta iota zeta delta [update_session_scores bind get put ret].
  destruct (submit_session_scores sid t data _) as [[ns|e1] st2]; simpl;
    [|discriminate]. intros H; injection H as ->.
  destruct (iterM_recalc_ids t
              (dedup_nat (dedup_nat (map member (session_rows st (team_pk t) sid))
                          ++ map member c)) st2) as (F1 & _ & _).
  destruct (iterM _ _ st2) as [[[]|e2] st3]; simpl in F1 |- *; [reflexivity | discriminate F1].
Qed.

(** X17: SessionUpdateAPIView.put answers 200 to an admin of the team whose
    request body passes SessionScoresSerializer with every score and chombo
    in the IntegerField range, when the session of the URL has rows of the
    team, its id is non-empty with at most 100 characters and member pks
    are unique; the session_id of the body plays no part. *)
Theorem api_session_update_accepts : forall u slug sid req a team sid' v,
  find_team a slug = Some team ->
  is_team_admin a u team = true ->
  session_rows (api_db a) (team_pk team) sid <> [] ->
  session_scores_valid (api_db a) team req = Valid (sid', v) ->
  forallb (fun e => int_in_range (snd (fst e)) && int_in_range (snd e)) v = true ->
  String.eqb sid "" = false ->
  (String.length sid <= 100)%nat ->
  NoDup (map member_pk (members (api_db a))) ->
  status (fst (api_session_update (Some u) slug sid req a)) = 200.
Proof.
  intros u slug sid req a team sid' v Et Ea Ene Ev Hi Hb Hl Hn.
  destruct (session_scores_valid_inv _ _ _ _ _ Ev) as (_ & _ & H4 & Hd & Hnm).
  destruct (convert_scores_some _ _ _ Hnm) as [conv Hc].
  unfold api_session_update. rewrite Et, Ea. api_case.
  destruct (session_rows (api_db a) (team_pk team) sid) as [|x xs]; [contradiction|].
  rewrite Ev, Hc.
  destruct (submit_succeeds sid team conv
              (set_rows (api_db a)
                 (filter (fun r => negb (in_team (api_db a) (team_pk team) r
                                         && String.eqb (session_id r) sid)) (rows (api_db a)))))
    as [c Hs].
  - exact Hb.
  - now apply Nat.leb_le.
  - rewrite (convert_scores_length _ _ _ _ Hc). exact H4.
  - apply (converted_entry_ok _ (api_db a) _ _ v); [exact Hi | reflexivity | exact Hn | | exact Hc].
    apply session_rows_cleared.
  - exact (converted_no_dup _ _ _ _ Hn Hd Hc).
  - apply update_of_submit in Hs.
    destruct (update_session_scores sid team conv (api_db a)) as [[c'|e] st'];
      simpl in Hs; [reflexivity | discriminate Hs].
Qed.

Lemma api_session_update_accepts_witness :
  status (fst (api_session_update (Some 7%nat) "t1" "s1" demo_req (api_demo db_tie))) = 200.
Proof.
  apply (api_session_update_accepts 7 "t1" "s1" demo_req (api_demo db_tie) team1 "s9"
           (match session_scores_valid db_tie team1 demo_req with
            | Valid (_, v) => v | _ => [] end));
    vm_compute; try reflexivity; try discriminate; try lia.
  repeat constructor; vm_compute; intuition discriminate.
Defined.

(* ------------------------------------------------------------------ *)
(** ** CharField *)

Lemma drop_space_app_ns : forall l c,
  py_space c = false -> drop_space (l ++ [c]) = drop_space l ++ [c].
Proof.
  intros l c Hc; induction l as [|x xs IH]; simpl; [now rewrite Hc|].
  destruct (py_space x); [exact IH | reflexivity].
Qed.

Lemma drop_space_head : forall l c r, drop_space l = c :: r -> py_space c = false.
Proof.
  induction l as [|x xs IH]; simpl; intros c r H; [discriminate|].
  destruct (py_space x) eqn:E; [exact (IH c r H)|]. injection H as <- _. exact E.
Qed.

Lemma drop_space_idem : forall l, drop_space (drop_space l) = drop_space l.
Proof.
  intros l. destruct (drop_space l) as [|c r] eqn:E; [reflexivity|].
  simpl. now rewrite (drop_space_head l c r E).
Qed.

Lemma py_strip_idem : forall s, py_strip (py_strip s) = py_strip s.
Proof.
  intros s. unfold py_strip at 1 2. rewrite list_ascii_of_string_of_list_ascii.
  f_equal. set (A := drop_space (list_ascii_of_string s)).
  assert (HA : drop_space A = A) by apply drop_space_idem.
  set (B := drop_space (rev A)).
  assert (HB : drop_space (rev B) = rev B).
  { unfold B. destruct A as [|c A'] eqn:EA; [reflexivity|].
    assert (Hc : py_space c = false) by (apply (drop_space_head (list_ascii_of_string s) c A'); exact EA).
    simpl rev. rewrite drop_space_app_ns by exact Hc. rewrite rev_app_distr. simpl.
    now rewrite Hc. }
  rewrite HB, rev_involutive. unfold B. now rewrite drop_space_idem.
Qed.

(** X19: a value CharField accepts (member_name, session_id) is non-empty
    and already stripped of leading and trailing whitespace: stripping it
    again changes nothing. *)
Theorem char_field_trimmed : forall max_length v s,
  char_field max_length v = Some s -> s <> EmptyString /\ py_strip s = s.
Proof.
  intros max_length [v|] s; simpl; [|discriminate].
  destruct (String.eqb_spec (py_strip v) "") as [|Hne]; [discriminate|].
  assert (H : forall s', Some (py_strip v) = Some s' -> s' <> EmptyString /\ py_strip s' = s').
  { intros s' E; injection E as <-. split; [exact Hne | apply py_strip_idem]. }
  destruct max_length as [n|]; [|destruct (existsb _ _); [discriminate | exact (H s)]].
  destruct (n <? String.length (py_strip v))%nat; [discriminate|].
  destruct (existsb _ _); [discriminate | exact (H s)].
Qed.

Lemma char_field_trimmed_witness :
  char_field (Some 100%nat) (Some " s9 "%string) = Some "s9"%string
  /\ ("s9"%string <> EmptyString /\ py_strip "s9" = "s9"%string).
Proof.
  assert (H : char_field (Some 100%nat) (Some " s9 "%string) = Some "s9"%string)
    by (vm_compute; reflexivity).
  split; [exact H | exact (char_field_trimmed _ _ _ H)].
Defined.

(* ------------------------------------------------------------------ *)
(** ** RawScore.save *)

(** X20: RawScore.save. A member missing from its table raises
    DoesNotExist. clean() refuses a row when another row (one of a different
    pk) has the same member and session: a ValidationError naming the member
    and the session, with nothing changed. Otherwise, for values the column
    stores, a pk of an existing row is an UPDATE of that row in place, and
    any other row is an INSERT at the end with the given pk or the next one,
    its created_at set to now; the member's CalculatedScore is then
    compute_stats over the new rows. *)
Theorem rawscore_save_spec : forall t r st,
  let res := rawscore_save t r st in
  let other_row := fun x => same_key r x
                   && negb (negb (Nat.eqb (rs_pk r) 0) && Nat.eqb (rs_pk x) (rs_pk r)) in
  (find (fun m => Nat.eqb (member_pk m) (member r)) (members st) = None ->
     res = (Err DoesNotExist, st))
  /\ (forall m, find (fun m => Nat.eqb (member_pk m) (member r)) (members st) = Some m ->
     (existsb other_row (rows st) = true ->
        res = (Err (ValidationError ("Member " ++ name m ++ " already has a score in session "
                                     ++ session_id r)%string), st))
     /\ (existsb other_row (rows st) = false -> row_in_range r = true ->
        members (snd res) = members st
        /\ calc_get (member r) (calc (snd res)) = Some (compute_stats (snd res) t m)
        /\ (rs_pk r <> 0%nat -> In (rs_pk r) (map rs_pk (rows st)) ->
            fst res = Ok r
            /\ rows (snd res) = map (fun x => if Nat.eqb (rs_pk x) (rs_pk r) then db_value r else x)
                                    (rows st)
            /\ next_pk (snd res) = next_pk st)
        /\ (rs_pk r = 0%nat \/ ~ In (rs_pk r) (map rs_pk (rows st)) ->
            exists r', fst res = Ok r'
            /\ rows (snd res) = rows st ++ [db_value r']
            /\ rs_pk r' = (if Nat.eqb (rs_pk r) 0 then next_pk st else rs_pk r)
            /\ rkey r' = rkey r /\ score r' = score r /\ chombo r' = chombo r
            /\ placement r' = placement r /\ created_at r' = clock st
            /\ next_pk (snd res) = Nat.max (next_pk st) (S (rs_pk r'))))).
Proof.
  intros t r st res other_row.
  unfold res, other_row, rawscore_save, bind, get, put, ret, raise. clear res other_row.
  destruct (find (fun m => Nat.eqb (member_pk m) (member r)) (members st)) as [m|] eqn:Ef.
  2: { split; [reflexivity | intros m H; discriminate H]. }
  split; [discriminate|]. intros m' Hm'. injection Hm' as <-.
  destruct (existsb _ (rows st)) eqn:Ec.
  { split; [reflexivity | discriminate]. }
  split; [discriminate|]. intros _ Hr. rewrite Hr. cbn [negb].
  assert (Hpk : existsb (fun x => Nat.eqb (rs_pk x) (rs_pk r)) (rows st) = true
                <-> In (rs_pk r) (map rs_pk (rows st))).
  { rewrite existsb_exists, in_map_iff. split.
    - intros (x & Hx & E). apply Nat.eqb_eq in E. eauto.
    - intros (x & E & Hx). exists x. split; [exact Hx | now apply Nat.eqb_eq]. }
  destruct (negb (Nat.eqb (rs_pk r) 0) && existsb _ (rows st)) eqn:Eu;
    unfold recalculate_member_score, bind, get, put, ret; simpl; rewrite Ef; simpl;
    (split; [reflexivity|]); (split; [apply calc_get_put_eq|]).
  - split.
    + intros _ _. split; [reflexivity|]. split; reflexivity.
    + intros Hn. exfalso. apply andb_true_iff in Eu as [E1 E2].
      destruct Hn as [H0 | Hn]; [rewrite H0 in E1; discriminate E1 | now apply Hn, Hpk].
  - split.
    + intros Hne Hin. exfalso. apply Hpk in Hin. rewrite Hin, andb_true_r in Eu.
      apply Hne. apply negb_false_iff, Nat.eqb_eq in Eu. exact Eu.
    + intros _. eexists. split; [reflexivity|]. split; [reflexivity|].
      split; [simpl; now destruct (Nat.eqb (rs_pk r) 0)|]. repeat split.
Qed.

Lemma rawscore_save_spec_witness :
  fst (rawscore_save team1 edited_A db_tie) = Ok edited_A
  /\ rows (snd (rawscore_save team1 edited_A db_tie))
     = map (fun x => if Nat.eqb (rs_pk x) (rs_pk edited_A) then db_value edited_A else x)
           (rows db_tie).
Proof.
  pose proof (rawscore_save_spec team1 edited_A db_tie) as H. cbv zeta in H.
  destruct H as [_ H].
  destruct (H member_A) as [_ H2]; [vm_compute; reflexivity|].
  destruct H2 as (_ & _ & Hu & _); [vm_compute; reflexivity | vm_compute; reflexivity|].
  destruct Hu as (H1 & H3 & _); [discriminate | vm_compute; auto|].
  split; assumption.
Defined.

(* ------------------------------------------------------------------ *)
(** ** get_team_standings_by_month *)

(** X21: get_team_standings_by_month lists every member of the team exactly
    once (the standings' members are a permutation of the team's), and a
    member with no complete session of the month gets a monthly total and a
    game count of 0. *)
Theorem monthly_standings_members : forall st t month year,
  Permutation (map st_member (get_team_standings_by_month st t month year))
              (team_members st (team_pk t))
  /\ (forall s, In s (get_team_standings_by_month st t month year) ->
        qualifying_sessions st t month year (st_member s) = [] ->
        monthly_total s = 0%Q /\ monthly_games s = 0%nat).
Proof.
  intros st t month year. unfold get_team_standings_by_month.
  destruct (monthly_raw_scores st t month year) as [|r rs] eqn:Em.
  - split; [apply map_st_member_perm; reflexivity|].
    intros s Hs _. apply (Permutation_in _ (sorted_desc_perm _ _)) in Hs.
    apply in_map_iff in Hs as (m & <- & _). split; reflexivity.
  - rewrite <- Em. split; [apply map_st_member_perm; exact (attach_member _)|].
    intros s Hs Hq. apply (Permutation_in _ (sorted_desc_perm _ _)) in Hs.
    apply in_map_iff in Hs as (m & <- & _). rewrite attach_member in Hq.
    unfold attach. rewrite (no_qualifying_not_scored t _ m Hq). split; reflexivity.
Qed.
